(** * StackIt: the question / answer / vote data-access layer

    A shallow embedding of [server/storage.ts] (class [DatabaseStorage]) and of
    the route handlers of [server/routes.ts] that drive it, over the tables
    declared in [shared/schema.ts].

    The relational store is a record of tables; a table is the list of its
    rows in insertion order together with the next value of its [serial]
    key.  Every [db.select/insert/update/delete] of the source is one
    primitive below; it transforms the tables and appends the statement it
    issues to the [stmts] trace, so that "which statements reached the store,
    and in which order" is an observable of the model (a statement that the
    store rejects changes nothing and leaves no entry).

    What the model leaves to the store: constraint checking (primary keys,
    [references]) and concurrency.  [insert] and [delete] below do not check
    the foreign keys of [shared/schema.ts]: a statement that the store
    rejects aborts the source call with an exception and the route answers
    500.  The theorems describe calls whose statements are all accepted;
    where a theorem names the rows that acceptance needs (a stored user,
    question, answer or post; no referencing row), they are hypotheses of it.
    The tag filter of [getQuestions], which the store rejects whatever the
    tables hold unless it is a single tag that reads as an array literal, is
    modelled with its error path.  A SELECT
    without ORDER BY returns the rows in insertion order, and ORDER BY keeps
    that order among equal keys; the store promises neither.  Columns that no
    modelled operation reads or writes ([updatedAt], password material,
    media URLs) are omitted from the rows. *)

From Stdlib Require Import ZArith List String Bool Lia Sorted Permutation.
Import ListNotations.

Local Open Scope string_scope.
Local Open Scope list_scope.
Local Open Scope Z_scope.

Set Implicit Arguments.

(** ** Rows ([shared/schema.ts]) *)

Record User := mkUser
  { u_id : Z; u_username : string; u_name : string; u_isAdmin : bool }.

Record Question := mkQuestion
  { q_id : Z; q_title : string; q_description : string; q_authorId : Z;
    q_tags : list string; q_votes : Z; q_views : Z;
    q_acceptedAnswerId : option Z; q_createdAt : Z }.

Record Answer := mkAnswer
  { a_id : Z; a_content : string; a_questionId : Z; a_authorId : Z;
    a_votes : Z; a_isAccepted : bool; a_createdAt : Z }.

(** [voteType] is a [varchar] column; the enum ["up" | "down"] is a
    TypeScript-level annotation, so the column is a string here. *)
Record Vote := mkVote
  { v_id : Z; v_userId : Z; v_questionId : option Z; v_answerId : option Z;
    v_voteType : string; v_createdAt : Z }.

Inductive NotificationType := question_answered | answer_accepted | mention.

Record Notification := mkNotification
  { n_id : Z; n_userId : Z; n_type : NotificationType; n_title : string;
    n_message : string; n_questionId : option Z; n_answerId : option Z;
    n_isRead : bool; n_createdAt : Z }.

Record Post := mkPost
  { p_id : Z; p_title : string; p_content : string; p_authorId : Z;
    p_likes : Z; p_shares : Z; p_createdAt : Z }.

Record PostComment := mkPostComment
  { pc_id : Z; pc_postId : Z; pc_authorId : Z; pc_content : string;
    pc_createdAt : Z }.

Record PostLike := mkPostLike
  { pl_id : Z; pl_postId : Z; pl_userId : Z; pl_createdAt : Z }.

(** ** WHERE clauses

    One type of atomic conditions per table, named after the column
    helpers of the query builder ([eq(answers.questionId, x)] is
    [A_questionId_eq x]).  A WHERE clause is a list of atoms joined by
    [and(...)]; the empty list is [where(undefined)]. *)

Inductive UserCond := U_id_eq (id : Z).

Inductive QuestionCond :=
| Q_id_eq (id : Z)
| Q_authorId_eq (u : Z)
| Q_search (pattern : string)       (* or(ilike(title, p), ilike(description, p)) *)
| Q_tags_overlap (arr : list string)   (* tags && arr, for an array value arr *)
| Q_no_answers.                     (* NOT EXISTS (SELECT 1 FROM answers WHERE question_id = questions.id) *)

Inductive AnswerCond :=
| A_id_eq (id : Z)
| A_questionId_eq (q : Z)
| A_authorId_eq (u : Z)
| A_questionId_in (qs : list Z).

Inductive VoteCond :=
| V_id_eq (id : Z)
| V_userId_eq (u : Z)
| V_questionId_eq (q : Z)
| V_answerId_eq (a : Z)
| V_questionId_null
| V_answerId_null
| V_voteType_eq (t : string).

Inductive NotificationCond := N_userId_eq (u : Z).

Inductive PostCond := P_id_eq (id : Z) | P_authorId_eq (u : Z).

Inductive PostCommentCond := PC_authorId_eq (u : Z) | PC_postId_eq (p : Z).

Inductive PostLikeCond := PL_postId_eq (p : Z) | PL_userId_eq (u : Z).

(** ** Statements and the store *)

Inductive Verb := SELECT | INSERT | UPDATE | DELETE.

Inductive Stmt :=
| OnUsers (v : Verb) (w : list UserCond)
| OnQuestions (v : Verb) (w : list QuestionCond)
| OnAnswers (v : Verb) (w : list AnswerCond)
| OnVotes (v : Verb) (w : list VoteCond)
| OnNotifications (v : Verb) (w : list NotificationCond)
| OnPosts (v : Verb) (w : list PostCond)
| OnPostComments (v : Verb) (w : list PostCommentCond)
| OnPostLikes (v : Verb) (w : list PostLikeCond).

Record Tbl (R : Type) := mkTbl { rows : list R; next_id : Z }.

Record DB := mkDB
  { users : Tbl User;
    questions : Tbl Question;
    answers : Tbl Answer;
    votes : Tbl Vote;
    notifications : Tbl Notification;
    posts : Tbl Post;
    postComments : Tbl PostComment;
    postLikes : Tbl PostLike;
    stmts : list Stmt;
    (* SQL [ILIKE value pattern] is evaluated by the store under its own
       collation: the store carries it. *)
    sql_ilike : string -> string -> bool }.

Definition with_users (t : Tbl User) (db : DB) : DB :=
  mkDB t (questions db) (answers db) (votes db) (notifications db)
       (posts db) (postComments db) (postLikes db) (stmts db) (sql_ilike db).
Definition with_questions (t : Tbl Question) (db : DB) : DB :=
  mkDB (users db) t (answers db) (votes db) (notifications db)
       (posts db) (postComments db) (postLikes db) (stmts db) (sql_ilike db).
Definition with_answers (t : Tbl Answer) (db : DB) : DB :=
  mkDB (users db) (questions db) t (votes db) (notifications db)
       (posts db) (postComments db) (postLikes db) (stmts db) (sql_ilike db).
Definition with_votes (t : Tbl Vote) (db : DB) : DB :=
  mkDB (users db) (questions db) (answers db) t (notifications db)
       (posts db) (postComments db) (postLikes db) (stmts db) (sql_ilike db).
Definition with_notifications (t : Tbl Notification) (db : DB) : DB :=
  mkDB (users db) (questions db) (answers db) (votes db) t
       (posts db) (postComments db) (postLikes db) (stmts db) (sql_ilike db).
Definition with_posts (t : Tbl Post) (db : DB) : DB :=
  mkDB (users db) (questions db) (answers db) (votes db) (notifications db)
       t (postComments db) (postLikes db) (stmts db) (sql_ilike db).
Definition with_postComments (t : Tbl PostComment) (db : DB) : DB :=
  mkDB (users db) (questions db) (answers db) (votes db) (notifications db)
       (posts db) t (postLikes db) (stmts db) (sql_ilike db).
Definition with_postLikes (t : Tbl PostLike) (db : DB) : DB :=
  mkDB (users db) (questions db) (answers db) (votes db) (notifications db)
       (posts db) (postComments db) t (stmts db) (sql_ilike db).
Definition issue (s : Stmt) (db : DB) : DB :=
  mkDB (users db) (questions db) (answers db) (votes db) (notifications db)
       (posts db) (postComments db) (postLikes db) (stmts db ++ [s]) (sql_ilike db).

(** Column comparison against a nullable integer column. *)
Definition col_is (c : option Z) (x : Z) : bool :=
  match c with Some y => y =? x | None => false end.
Definition col_null (c : option Z) : bool :=
  match c with Some _ => false | None => true end.
Definition mem_Z (x : Z) (l : list Z) : bool := existsb (Z.eqb x) l.
Definition mem_string (x : string) (l : list string) : bool :=
  existsb (String.eqb x) l.

Definition holds_user (_ : DB) (c : UserCond) (u : User) : bool :=
  match c with U_id_eq id => u_id u =? id end.

Definition holds_question (db : DB) (c : QuestionCond) (q : Question) : bool :=
  match c with
  | Q_id_eq id => q_id q =? id
  | Q_authorId_eq u => q_authorId q =? u
  | Q_search p => sql_ilike db (q_title q) p || sql_ilike db (q_description q) p
  | Q_tags_overlap arr => existsb (fun t => mem_string t arr) (q_tags q)
  | Q_no_answers =>
      negb (existsb (fun a => a_questionId a =? q_id q) (rows (answers db)))
  end.

Definition holds_answer (_ : DB) (c : AnswerCond) (a : Answer) : bool :=
  match c with
  | A_id_eq id => a_id a =? id
  | A_questionId_eq q => a_questionId a =? q
  | A_authorId_eq u => a_authorId a =? u
  | A_questionId_in qs => mem_Z (a_questionId a) qs
  end.

Definition holds_vote (_ : DB) (c : VoteCond) (v : Vote) : bool :=
  match c with
  | V_id_eq id => v_id v =? id
  | V_userId_eq u => v_userId v =? u
  | V_questionId_eq q => col_is (v_questionId v) q
  | V_answerId_eq a => col_is (v_answerId v) a
  | V_questionId_null => col_null (v_questionId v)
  | V_answerId_null => col_null (v_answerId v)
  | V_voteType_eq t => String.eqb (v_voteType v) t
  end.

Definition holds_notification (_ : DB) (c : NotificationCond) (n : Notification) : bool :=
  match c with N_userId_eq u => n_userId n =? u end.

Definition holds_post (_ : DB) (c : PostCond) (p : Post) : bool :=
  match c with
  | P_id_eq id => p_id p =? id
  | P_authorId_eq u => p_authorId p =? u
  end.

Definition holds_postComment (_ : DB) (c : PostCommentCond) (pc : PostComment) : bool :=
  match c with
  | PC_authorId_eq u => pc_authorId pc =? u
  | PC_postId_eq p => pc_postId pc =? p
  end.

Definition holds_postLike (_ : DB) (c : PostLikeCond) (pl : PostLike) : bool :=
  match c with
  | PL_postId_eq p => pl_postId pl =? p
  | PL_userId_eq u => pl_userId pl =? u
  end.

(** A table of the schema as the query builder sees it: where its rows
    live in the store, how its conditions read a row, and how a statement on
    it is traced. *)
Record Table (R C : Type) := mkTable
  { tbl : DB -> Tbl R;
    with_tbl : Tbl R -> DB -> DB;
    holds : DB -> C -> R -> bool;
    stmt_on : Verb -> list C -> Stmt }.

Definition usersT := mkTable users with_users holds_user OnUsers.
Definition answersT := mkTable answers with_answers holds_answer OnAnswers.
Definition votesT := mkTable votes with_votes holds_vote OnVotes.
Definition notificationsT :=
  mkTable notifications with_notifications holds_notification OnNotifications.
Definition postsT := mkTable posts with_posts holds_post OnPosts.
Definition postCommentsT :=
  mkTable postComments with_postComments holds_postComment OnPostComments.
Definition postLikesT :=
  mkTable postLikes with_postLikes holds_postLike OnPostLikes.
Definition questionsT :=
  mkTable questions with_questions holds_question OnQuestions.

(** ** The store monad: every call awaits the previous one *)

Definition M (A : Type) : Type := DB -> A * DB.

Definition ret {A} (a : A) : M A := fun db => (a, db).

Definition bind {A B} (m : M A) (k : A -> M B) : M B :=
  fun db => let (a, db') := m db in k a db'.

Notation "x <- m ;; k" := (bind m (fun x => k))
  (at level 61, m at next level, right associativity).
Notation "m ;;; k" := (bind m (fun _ => k))
  (at level 61, right associativity).

Definition run {A} (m : M A) (db : DB) : DB := snd (m db).
Definition result {A} (m : M A) (db : DB) : A := fst (m db).

Section Statements.

Variables R C : Type.
Variable T : Table R C.

Definition matches (db : DB) (w : list C) (r : R) : bool :=
  forallb (fun c => holds T db c r) w.

(** [db.select().from(T).where(and(...w))] *)
Definition select (w : list C) : M (list R) := fun db =>
  (filter (matches db w) (rows (tbl T db)),
   issue (stmt_on T SELECT w) db).

(** [db.update(T).set(...).where(and(...w)).returning()] *)
Definition update (set : R -> R) (w : list C) : M (list R) := fun db =>
  let t := tbl T db in
  (map set (filter (matches db w) (rows t)),
   issue (stmt_on T UPDATE w)
     (with_tbl T
        (mkTbl (map (fun r => if matches db w r then set r else r) (rows t))
               (next_id t))
        db)).

(** [db.delete(T).where(and(...w))]; rows that reference a deleted row are
    not looked for. *)
Definition delete (w : list C) : M unit := fun db =>
  let t := tbl T db in
  (tt,
   issue (stmt_on T DELETE w)
     (with_tbl T
        (mkTbl (filter (fun r => negb (matches db w r)) (rows t)) (next_id t))
        db)).

(** [db.insert(T).values(...).returning()]: the [serial] key is drawn
    from the table's sequence, the row is appended; the rows it references
    are not looked for. *)
Definition insert (values : Z -> R) : M R := fun db =>
  let t := tbl T db in
  let r := values (next_id t) in
  (r,
   issue (stmt_on T INSERT [])
     (with_tbl T (mkTbl (rows t ++ [r]) (next_id t + 1)) db)).

End Statements.

(** JavaScript truthiness of an optional number: [undefined], [null] and
    [0] are falsy. *)
Definition truthy (x : option Z) : option Z :=
  match x with
  | Some n => if n =? 0 then None else Some n
  | None => None
  end.

(** [s || fallback] on a string that may be [null] *)
Definition or_string (s : option string) (fallback : string) : string :=
  match s with
  | Some s' => if String.eqb s' "" then fallback else s'
  | None => fallback
  end.

(** ** ORDER BY, LEFT JOIN, GROUP BY

    [ORDER BY] is a stable insertion sort on the table order: rows that
    compare equal keep the order the store holds them in. *)

Fixpoint insert_by {A} (le : A -> A -> bool) (x : A) (l : list A) : list A :=
  match l with
  | [] => [x]
  | y :: l' => if le x y then x :: l else y :: insert_by le x l'
  end.

Definition order_by {A} (le : A -> A -> bool) (l : list A) : list A :=
  fold_right (insert_by le) [] l.

(** [.leftJoin(users, eq(key, users.id))]: every row is paired with each
    user row of that id, or with NULLs when there is none. *)
Definition leftJoin_users {R} (key : R -> Z) (us : list User) (rs : list R)
  : list (R * option User) :=
  flat_map
    (fun r =>
       match filter (fun u => u_id u =? key r) us with
       | [] => [(r, None)]
       | us => map (fun u => (r, Some u)) us
       end)
    rs.

Definition select_leftJoin_users {R C} (T : Table R C) (key : R -> Z)
    (le : R -> R -> bool) (w : list C) : M (list (R * option User)) :=
  fun db =>
    (order_by (fun x y => le (fst x) (fst y))
       (leftJoin_users key (rows (users db))
          (filter (matches T db w) (rows (tbl T db)))),
     issue (stmt_on T SELECT w) db).

(** [select questionId, count(id) ... group by questionId] *)
Fixpoint bump (k : Z) (g : list (Z * Z)) : list (Z * Z) :=
  match g with
  | [] => [(k, 1)]
  | (k', n) :: g' => if k' =? k then (k', n + 1) :: g' else (k', n) :: bump k g'
  end.

Definition group_count (ks : list Z) : list (Z * Z) :=
  fold_left (fun g k => bump k g) ks [].

(** ** Read models ([QuestionWithAuthor], [AnswerWithAuthor]) *)

Record Author := mkAuthor
  { au_id : Z; au_name : string; au_username : string }.

Definition author_of (authorId : Z) (u : option User) : Author :=
  mkAuthor authorId
    (or_string (option_map u_name u) "Unknown")
    (or_string (option_map u_username u) "unknown").

Record AnswerWithAuthor := mkAnswerWithAuthor
  { awa_row : Answer; awa_author : Author }.

Record QuestionWithAuthor := mkQuestionWithAuthor
  { qwa_row : Question; qwa_author : Author;
    qwa_answers : list AnswerWithAuthor; qwa_count_answers : Z }.

Definition with_author (ju : Answer * option User) : AnswerWithAuthor :=
  mkAnswerWithAuthor (fst ju) (author_of (a_authorId (fst ju)) (snd ju)).

(** Insert shapes ([InsertAnswer], [InsertVote], [InsertNotification]) *)

Record InsertAnswer := mkInsertAnswer
  { ia_content : string; ia_questionId : Z; ia_authorId : Z }.

Record InsertVote := mkInsertVote
  { iv_userId : Z; iv_questionId : option Z; iv_answerId : option Z;
    iv_voteType : string }.

Record InsertNotification := mkInsertNotification
  { in_userId : Z; in_type : NotificationType; in_title : string;
    in_message : string; in_questionId : option Z; in_answerId : option Z }.

(** ** [DatabaseStorage] *)

(** desc(createdAt) *)
Definition newest_first {R} (createdAt : R -> Z) (x y : R) : bool :=
  createdAt y <=? createdAt x.

(** desc(isAccepted), desc(votes), asc(createdAt) *)
Definition accepted_votes_oldest (x y : Answer) : bool :=
  if Bool.eqb (a_isAccepted x) (a_isAccepted y) then
    if a_votes x =? a_votes y then a_createdAt x <=? a_createdAt y
    else a_votes y <? a_votes x
  else a_isAccepted x.

Inductive Filter := newest | unanswered.

Record QuestionsOptions := mkQuestionsOptions
  { o_search : option string; o_tags : option (list string);
    o_filter : option Filter; o_limit : option nat; o_offset : option nat }.

Definition is_unanswered (f : option Filter) : bool :=
  match f with Some unanswered => true | _ => false end.

Section GetQuestions.

(** [String.prototype.trim] *)
Variable trim : string -> string.

(** The store's reading of a text parameter as a [text[]] literal; [None]
    when the literal is malformed. *)
Variable array_in : string -> option (list string).

(** [sql`${questions.tags} && ${tags}`]: the query builder writes the array
    [tags] as a parenthesised list of parameters.  One tag gives
    [tags && ($1)], whose parameter the store reads as an array literal; two
    or more give the row [($1, $2, ...)], for which the store has no [&&].
    [None] stands for the error the store raises on the statement. *)
Definition tags_condition (tags : option (list string))
  : option (list QuestionCond) :=
  match tags with
  | Some [t] =>
      match array_in t with
      | Some arr => Some [Q_tags_overlap arr]
      | None => None
      end
  | Some (_ :: _ :: _) => None
  | _ => Some []
  end.

Definition getQuestions (options : QuestionsOptions) : M (list QuestionWithAuthor) :=
  let limit := match o_limit options with Some n => n | None => 20%nat end in
  let offset := match o_offset options with Some n => n | None => 0%nat end in
  let searchCondition :=
    match o_search options with
    | Some search =>
        if String.eqb search "" || String.eqb (trim search) "" then []
        else [Q_search (String.append "%" (String.append (trim search) "%"))]
    | None => []
    end in
  let filterCondition :=
    if is_unanswered (o_filter options) then [Q_no_answers] else [] in
  (* try *)
  match tags_condition (o_tags options) with
  | Some tagCondition =>
      let whereConditions := searchCondition ++ tagCondition ++ filterCondition in
      joined <- select_leftJoin_users questionsT q_authorId
                  (newest_first q_createdAt) whereConditions ;;
      let questionsData := firstn limit (skipn offset joined) in
      let questionIds := map (fun q => q_id (fst q)) questionsData in
      answerCounts <-
        (match questionIds with
         | [] => ret []
         | _ =>
             rs <- select answersT [A_questionId_in questionIds] ;;
             ret (group_count (map a_questionId rs))
         end) ;;
      ret (map
             (fun q =>
                mkQuestionWithAuthor (fst q)
                  (author_of (q_authorId (fst q)) (snd q))
                  []
                  (match find (fun ac => fst ac =? q_id (fst q)) answerCounts with
                   | Some ac => snd ac
                   | None => 0
                   end))
             questionsData)
  | None =>
      (* catch (error): the statement is rejected, nothing is read *)
      ret []
  end.

End GetQuestions.

Definition getQuestion (id : Z) : M (option QuestionWithAuthor) :=
  qs <- select_leftJoin_users questionsT q_authorId (fun _ _ => true)
          [Q_id_eq id] ;;
  match qs with
  | [] => ret None
  | question :: _ =>
      questionAnswers <-
        select_leftJoin_users answersT a_authorId (newest_first a_createdAt)
          [A_questionId_eq id] ;;
      ret (Some
             (mkQuestionWithAuthor (fst question)
                (author_of (q_authorId (fst question)) (snd question))
                (map with_author questionAnswers)
                (Z.of_nat (List.length questionAnswers))))
  end.

Definition getAnswersByQuestionId (questionId : Z) : M (list AnswerWithAuthor) :=
  results <-
    select_leftJoin_users answersT a_authorId accepted_votes_oldest
      [A_questionId_eq questionId] ;;
  ret (map with_author results).

Definition createAnswer (answer : InsertAnswer) (now : Z) : M Answer :=
  insert answersT
    (fun id =>
       mkAnswer id (ia_content answer) (ia_questionId answer)
         (ia_authorId answer) 0 false now).

Definition set_isAccepted (b : bool) (a : Answer) : Answer :=
  mkAnswer (a_id a) (a_content a) (a_questionId a) (a_authorId a)
    (a_votes a) b (a_createdAt a).

Definition set_answer_votes (n : Z) (a : Answer) : Answer :=
  mkAnswer (a_id a) (a_content a) (a_questionId a) (a_authorId a)
    n (a_isAccepted a) (a_createdAt a).

Definition set_acceptedAnswerId (x : option Z) (q : Question) : Question :=
  mkQuestion (q_id q) (q_title q) (q_description q) (q_authorId q) (q_tags q)
    (q_votes q) (q_views q) x (q_createdAt q).

Definition set_question_votes (n : Z) (q : Question) : Question :=
  mkQuestion (q_id q) (q_title q) (q_description q) (q_authorId q) (q_tags q)
    n (q_views q) (q_acceptedAnswerId q) (q_createdAt q).

Definition acceptAnswer (questionId answerId : Z) : M unit :=
  (* First, mark all answers for this question as not accepted *)
  update answersT (set_isAccepted false) [A_questionId_eq questionId] ;;;
  (* Then mark the specific answer as accepted *)
  update answersT (set_isAccepted true) [A_id_eq answerId] ;;;
  (* Update the question's accepted answer ID *)
  update questionsT (set_acceptedAnswerId (Some answerId)) [Q_id_eq questionId] ;;;
  ret tt.

(** *** Vote operations *)

Definition getVote (userId : Z) (questionId answerId : option Z) : M (option Vote) :=
  let conditions := [V_userId_eq userId] in
  let conditions :=
    match truthy questionId with
    | Some q => conditions ++ [V_questionId_eq q; V_answerId_null]
    | None => conditions
    end in
  let conditions :=
    match truthy answerId with
    | Some a => conditions ++ [V_answerId_eq a; V_questionId_null]
    | None => conditions
    end in
  vs <- select votesT conditions ;;
  ret (hd_error vs).

(** The [voteType] argument is not read by the source either: the tally
    is recounted from the Vote rows. *)
Definition updateVoteCount (questionId answerId : option Z) (voteType : string)
  : M unit :=
  (match truthy questionId with
   | Some q =>
       totalVotes <- select votesT [V_questionId_eq q; V_voteType_eq "up"] ;;
       downVotes <- select votesT [V_questionId_eq q; V_voteType_eq "down"] ;;
       let netVotes :=
         Z.of_nat (List.length totalVotes) - Z.of_nat (List.length downVotes) in
       update questionsT (set_question_votes netVotes) [Q_id_eq q] ;;;
       ret tt
   | None => ret tt
   end) ;;;
  (match truthy answerId with
   | Some a =>
       totalVotes <- select votesT [V_answerId_eq a; V_voteType_eq "up"] ;;
       downVotes <- select votesT [V_answerId_eq a; V_voteType_eq "down"] ;;
       let netVotes :=
         Z.of_nat (List.length totalVotes) - Z.of_nat (List.length downVotes) in
       update answersT (set_answer_votes netVotes) [A_id_eq a] ;;;
       ret tt
   | None => ret tt
   end).

Definition createVote (vote : InsertVote) (now : Z) : M Vote :=
  newVote <-
    insert votesT
      (fun id =>
         mkVote id (iv_userId vote) (iv_questionId vote) (iv_answerId vote)
           (iv_voteType vote) now) ;;
  updateVoteCount (iv_questionId vote) (iv_answerId vote) (iv_voteType vote) ;;;
  ret newVote.

Definition set_voteType (t : string) (v : Vote) : Vote :=
  mkVote (v_id v) (v_userId v) (v_questionId v) (v_answerId v) t (v_createdAt v).

(** [None] stands for the [TypeError] raised on [updatedVote.questionId]
    when no row has the given id. *)
Definition updateVote (id : Z) (voteType : string) : M (option Vote) :=
  rs <- update votesT (set_voteType voteType) [V_id_eq id] ;;
  match rs with
  | [] => ret None
  | updatedVote :: _ =>
      updateVoteCount (v_questionId updatedVote) (v_answerId updatedVote)
        voteType ;;;
      ret (Some updatedVote)
  end.

Definition deleteVote (id : Z) : M unit :=
  vs <- select votesT [V_id_eq id] ;;
  delete votesT [V_id_eq id] ;;;
  match vs with
  | vote :: _ =>
      updateVoteCount (v_questionId vote) (v_answerId vote)
        (if String.eqb (v_voteType vote) "up" then "down" else "up")
  | [] => ret tt
  end.

(** *** Notifications *)

Definition createNotification (n : InsertNotification) (now : Z) : M Notification :=
  insert notificationsT
    (fun id =>
       mkNotification id (in_userId n) (in_type n) (in_title n) (in_message n)
         (in_questionId n) (in_answerId n) false now).

(** *** Post likes *)

Definition add_likes (d : Z) (p : Post) : Post :=
  mkPost (p_id p) (p_title p) (p_content p) (p_authorId p) (p_likes p + d)
    (p_shares p) (p_createdAt p).

Definition likePost (postId userId : Z) (now : Z) : M unit :=
  existingLike <- select postLikesT [PL_postId_eq postId; PL_userId_eq userId] ;;
  match existingLike with
  | [] =>
      insert postLikesT (fun id => mkPostLike id postId userId now) ;;;
      (* Increment likes count *)
      update postsT (add_likes 1) [P_id_eq postId] ;;;
      ret tt
  | _ :: _ => ret tt
  end.

Definition unlikePost (postId userId : Z) : M unit :=
  delete postLikesT [PL_postId_eq postId; PL_userId_eq userId] ;;;
  (* Decrement likes count if a like was actually deleted *)
  update postsT (add_likes (-1)) [P_id_eq postId] ;;;
  ret tt.

Definition isPostLikedByUser (postId userId : Z) : M bool :=
  ls <- select postLikesT [PL_postId_eq postId; PL_userId_eq userId] ;;
  ret (match ls with [] => false | _ :: _ => true end).

(** *** Admin *)

Definition deleteUser (id : Z) : M unit :=
  (* First, get all question IDs by this user *)
  userQuestions <- select questionsT [Q_authorId_eq id] ;;
  let questionIds := map q_id userQuestions in
  (* Delete all answers to questions by this user *)
  (match questionIds with
   | [] => ret tt
   | _ :: _ => delete answersT [A_questionId_in questionIds]
   end) ;;;
  (* Delete all answers by this user *)
  delete answersT [A_authorId_eq id] ;;;
  (* Now delete questions by this user *)
  delete questionsT [Q_authorId_eq id] ;;;
  (* Delete other related data *)
  delete votesT [V_userId_eq id] ;;;
  delete notificationsT [N_userId_eq id] ;;;
  delete postLikesT [PL_userId_eq id] ;;;
  delete postCommentsT [PC_authorId_eq id] ;;;
  delete postsT [P_authorId_eq id] ;;;
  (* Finally delete the user *)
  delete usersT [U_id_eq id].

(** ** Route handlers ([server/routes.ts])

    A handler receives the session user ([None] when the session carries
    none), the parsed path parameters and the request body, and answers with
    a status and a JSON payload.  [now] is the store's clock when the request
    is served. *)

Inductive Payload :=
| Message (m : string)
| InvalidData (m : string)   (* { message, errors } built from a ZodError *)
| VoteJson (v : Vote)
| AnswerJson (a : Answer)
| LikeJson (m : string) (liked : bool).

Record Response := mkResponse { status : Z; payload : Payload }.

(** [insertAnswerSchema.parse]: [content] is a required string; the two
    ids are required integers. *)
Definition insertAnswerSchema_parse (content : option string)
    (questionId authorId : Z) : option InsertAnswer :=
  match content with
  | Some c => Some (mkInsertAnswer c questionId authorId)
  | None => None
  end.

Definition is_voteType (t : string) : bool :=
  String.eqb t "up" || String.eqb t "down".

(** [insertVoteSchema.parse], for [createInsertSchema(votes)] without [id]
    and [createdAt]: [userId] is a required integer, [questionId] and
    [answerId] are nullable integer columns and so may each be [null],
    [voteType] must be one of the two enum strings.  [None] stands for the
    [ZodError]. *)
Definition insertVoteSchema_parse (userId : Z) (questionId answerId : option Z)
    (voteType : string) : option InsertVote :=
  if is_voteType voteType
  then Some (mkInsertVote userId questionId answerId voteType)
  else None.

(** POST /api/questions/:id/answers *)
Definition post_questions_answers (user : option Z) (questionId : Z)
    (content : option string) (now : Z) : M Response :=
  match user with
  | None => ret (mkResponse 401 (Message "Unauthorized"))
  | Some userId =>
      match insertAnswerSchema_parse content questionId userId with
      | None => ret (mkResponse 400 (InvalidData "Invalid answer data"))
      | Some answerData =>
          answer <- createAnswer answerData now ;;
          (* Create notification for question author *)
          question <- getQuestion questionId ;;
          (match question with
           | Some q =>
               if negb (q_authorId (qwa_row q) =? userId) then
                 createNotification
                   (mkInsertNotification (q_authorId (qwa_row q))
                      question_answered "New Answer"
                      (String.append "Someone answered your question: "
                         (q_title (qwa_row q)))
                      (Some questionId) (Some (a_id answer)))
                   now ;;;
                 ret tt
               else ret tt
           | None => ret tt
           end) ;;;
          ret (mkResponse 200 (AnswerJson answer))
      end
  end.

(** POST /api/questions/:questionId/answers/:answerId/accept *)
Definition post_answers_accept (user : option Z) (questionId answerId : Z)
    (now : Z) : M Response :=
  match user with
  | None => ret (mkResponse 401 (Message "Unauthorized"))
  | Some userId =>
      question <- getQuestion questionId ;;
      match question with
      | None => ret (mkResponse 404 (Message "Question not found"))
      | Some q =>
          if negb (q_authorId (qwa_row q) =? userId) then
            ret (mkResponse 403
                   (Message "Only the question author can accept answers"))
          else
            acceptAnswer questionId answerId ;;;
            (* Create notification for answer author *)
            (match find (fun a => a_id (awa_row a) =? answerId) (qwa_answers q) with
             | Some answer =>
                 if negb (a_authorId (awa_row answer) =? userId) then
                   createNotification
                     (mkInsertNotification (a_authorId (awa_row answer))
                        answer_accepted "Answer Accepted"
                        (String.append "Your answer was accepted for: "
                           (q_title (qwa_row q)))
                        (Some questionId) (Some answerId))
                     now ;;;
                   ret tt
                 else ret tt
             | None => ret tt
             end) ;;;
            ret (mkResponse 200 (Message "Answer accepted successfully"))
      end
  end.

(** The body of POST /api/votes: [questionId] and [answerId] are numbers
    or absent, [voteType] is a string. *)
Record VoteBody := mkVoteBody
  { b_questionId : option Z; b_answerId : option Z; b_voteType : string }.

(** POST /api/votes *)
Definition post_votes (user : option Z) (body : VoteBody) (now : Z) : M Response :=
  match user with
  | None => ret (mkResponse 401 (Message "Unauthorized"))
  | Some userId =>
      (* Check if user already voted *)
      existingVote <- getVote userId (b_questionId body) (b_answerId body) ;;
      match existingVote with
      | Some ev =>
          if String.eqb (v_voteType ev) (b_voteType body) then
            (* Same vote type, remove the vote *)
            deleteVote (v_id ev) ;;;
            ret (mkResponse 200 (Message "Vote removed"))
          else
            (* Different vote type, update the vote *)
            updatedVote <- updateVote (v_id ev) (b_voteType body) ;;
            match updatedVote with
            | Some uv => ret (mkResponse 200 (VoteJson uv))
            | None => ret (mkResponse 500 (Message "Failed to create vote"))
            end
      | None =>
          (* Create new vote *)
          match insertVoteSchema_parse userId (truthy (b_questionId body))
                  (truthy (b_answerId body)) (b_voteType body) with
          | None => ret (mkResponse 400 (InvalidData "Invalid vote data"))
          | Some voteData =>
              vote <- createVote voteData now ;;
              ret (mkResponse 200 (VoteJson vote))
          end
      end
  end.

(** POST /api/posts/:id/like *)
Definition post_posts_like (user : option Z) (postId : Z) (now : Z) : M Response :=
  match user with
  | None => ret (mkResponse 401 (Message "Unauthorized"))
  | Some userId =>
      isLiked <- isPostLikedByUser postId userId ;;
      if isLiked then
        unlikePost postId userId ;;;
        ret (mkResponse 200 (LikeJson "Post unliked" false))
      else
        likePost postId userId now ;;;
        ret (mkResponse 200 (LikeJson "Post liked" true))
  end.

(** ** Vocabulary of the properties *)

(** The target of a Vote: the Question or the Answer it applies to. *)
Inductive Target := OnQuestion (q : Z) | OnAnswer (a : Z).

Definition target_id (t : Target) : Z :=
  match t with OnQuestion q => q | OnAnswer a => a end.

Definition targets (t : Target) (v : Vote) : bool :=
  match t with
  | OnQuestion q => col_is (v_questionId v) q
  | OnAnswer a => col_is (v_answerId v) a
  end.

(** The reference field of a Vote row as the code reads it. *)
Definition is_target_of (t : Target) (v : Vote) : Prop :=
  match t with
  | OnQuestion q => truthy (v_questionId v) = Some q
  | OnAnswer a => truthy (v_answerId v) = Some a
  end.

Definition count_votes (t : Target) (voteType : string) (vs : list Vote) : Z :=
  Z.of_nat
    (List.length
       (filter (fun v => targets t v && String.eqb (v_voteType v) voteType) vs)).

(** up-votes minus down-votes among the Vote rows of the target *)
Definition net_votes (t : Target) (vs : list Vote) : Z :=
  count_votes t "up" vs - count_votes t "down" vs.

(** The denormalized [votes] field of the target's row. *)
Definition stored_tally (t : Target) (db : DB) : list Z :=
  match t with
  | OnQuestion q =>
      map q_votes (filter (fun x => q_id x =? q) (rows (questions db)))
  | OnAnswer a =>
      map a_votes (filter (fun x => a_id x =? a) (rows (answers db)))
  end.

Definition tally_in_sync (t : Target) (db : DB) : Prop :=
  Forall (fun n => n = net_votes t (rows (votes db))) (stored_tally t db).

(** The three mutations of the Vote table. *)
Inductive VoteMutation :=
| Insert_vote (vote : InsertVote) (now : Z)
| Flip_vote (id : Z) (voteType : string)
| Delete_vote (id : Z).

Definition mutate (m : VoteMutation) : M unit :=
  match m with
  | Insert_vote vote now => createVote vote now ;;; ret tt
  | Flip_vote id voteType => updateVote id voteType ;;; ret tt
  | Delete_vote id => deleteVote id
  end.

(** [mutated db m v]: mutation [m], run in [db], inserts, flips or deletes
    the Vote row [v]. *)
Inductive mutated (db : DB) : VoteMutation -> Vote -> Prop :=
| mutated_insert vote now :
    mutated db (Insert_vote vote now) (result (createVote vote now) db)
| mutated_flip id voteType v :
    In v (rows (votes db)) -> v_id v = id ->
    mutated db (Flip_vote id voteType) v
| mutated_delete id v :
    In v (rows (votes db)) -> v_id v = id ->
    mutated db (Delete_vote id) v.

(** A vote request on one target, and two casts in a row. *)
Definition vote_body (t : Target) (voteType : string) : VoteBody :=
  match t with
  | OnQuestion q => mkVoteBody (Some q) None voteType
  | OnAnswer a => mkVoteBody None (Some a) voteType
  end.

(** The Vote rows of a (user, target) pair. *)
Definition vote_rows (u : Z) (t : Target) (db : DB) : list Vote :=
  filter (fun v => (v_userId v =? u) && targets t v) (rows (votes db)).

(** The Vote row a first cast on the target inserts. *)
Definition cast_row (db : DB) (u : Z) (t : Target) (voteType : string)
    (now : Z) : Vote :=
  mkVote (next_id (votes db)) u
    match t with OnQuestion q => Some q | OnAnswer _ => None end
    match t with OnQuestion _ => None | OnAnswer a => Some a end
    voteType now.


(** The PostLike rows of a (post, user) pair, the stored like counter of a
    post, and two like-toggles in a row. *)
Definition is_like_of (postId userId : Z) (l : PostLike) : bool :=
  (pl_postId l =? postId) && (pl_userId l =? userId).

Definition like_rows (postId userId : Z) (db : DB) : list PostLike :=
  filter (is_like_of postId userId) (rows (postLikes db)).

Definition stored_likes (postId : Z) (db : DB) : list Z :=
  map p_likes (filter (fun p => p_id p =? postId) (rows (posts db))).

Definition toggle_twice (u postId : Z) (now1 now2 : Z) : M (Response * Response) :=
  r1 <- post_posts_like (Some u) postId now1 ;;
  r2 <- post_posts_like (Some u) postId now2 ;;
  ret (r1, r2).

Fixpoint unlike_times (n : nat) (postId userId : Z) : M unit :=
  match n with
  | O => ret tt
  | S n' => unlikePost postId userId ;;; unlike_times n' postId userId
  end.

(** The accepted Answers of a Question and the Question's pointer. *)
Definition accepted_answers (questionId : Z) (db : DB) : list Answer :=
  filter (fun a => (a_questionId a =? questionId) && a_isAccepted a)
    (rows (answers db)).

Definition accepted_pointer (questionId : Z) (db : DB) : list (option Z) :=
  map q_acceptedAnswerId
    (filter (fun q => q_id q =? questionId) (rows (questions db))).

Definition question_row (questionId : Z) (db : DB) : option Question :=
  find (fun q => q_id q =? questionId) (rows (questions db)).

(** The Answer of that id among the Answers of the Question. *)
Definition answer_of (questionId answerId : Z) (db : DB) : option Answer :=
  find (fun a => (a_questionId a =? questionId) && (a_id a =? answerId))
    (rows (answers db)).

(** ** A sample store

    Four users; three questions, the third unanswered; question 2 has three
    answers, answer 10 accepted; user 4 has up-voted answer 11; user 2
    likes post 1. *)

Definition sample_db : DB :=
  mkDB
    (mkTbl [ mkUser 1 "ann" "Ann" false; mkUser 2 "bob" "Bob" false;
             mkUser 3 "cy" "Cy" false; mkUser 4 "dee" "Dee" true ] 5)
    (mkTbl [ mkQuestion 1 "How to X?" "x" 1 ["x"] 0 0 None 100;
             mkQuestion 2 "Why Y?" "y" 2 ["y"] 0 0 (Some 10) 101;
             mkQuestion 3 "What is Z?" "z" 3 [] 0 0 None 102 ] 4)
    (mkTbl [ mkAnswer 10 "Do Y" 2 3 0 true 110;
             mkAnswer 11 "Or Y2" 2 3 1 false 111;
             mkAnswer 12 "Do X" 1 2 0 false 112;
             mkAnswer 13 "Or Y3" 2 1 0 false 113 ] 14)
    (mkTbl [ mkVote 1 4 None (Some 11) "up" 120 ] 2)
    (mkTbl [] 1)
    (mkTbl [ mkPost 1 "Hello" "first" 1 1 0 130;
             mkPost 2 "News" "second" 2 0 0 131 ] 3)
    (mkTbl [ mkPostComment 1 1 3 "nice" 140 ] 2)
    (mkTbl [ mkPostLike 1 1 2 150 ] 2)
    []
    (fun _ _ => false).

(** The notification each route is to leave: for a new Answer, one to the
    Question's author unless the answerer is that author; for an accepted
    Answer of the Question, one to the Answer's author unless the acceptor is
    that author. *)
Definition answered_notification (db : DB) (user : option Z) (questionId : Z)
    (content : option string) (now : Z) : list Notification :=
  match user, content, question_row questionId db with
  | Some u, Some _, Some q =>
      if q_authorId q =? u then []
      else [ mkNotification (next_id (notifications db)) (q_authorId q)
               question_answered "New Answer"
               (String.append "Someone answered your question: " (q_title q))
               (Some questionId) (Some (next_id (answers db))) false now ]
  | _, _, _ => []
  end.

Definition accepted_notification (db : DB) (user : option Z)
    (questionId answerId : Z) (now : Z) : list Notification :=
  match user, question_row questionId db with
  | Some u, Some q =>
      if q_authorId q =? u then
        match answer_of questionId answerId db with
        | Some a =>
            if a_authorId a =? u then []
            else [ mkNotification (next_id (notifications db)) (a_authorId a)
                     answer_accepted "Answer Accepted"
                     (String.append "Your answer was accepted for: " (q_title q))
                     (Some questionId) (Some answerId) false now ]
        | None => []
        end
      else []
  | _, _ => []
  end.

(** ** Three statements as the specification words them *)


(** Like toggle: two toggles leave the like counter at its original value
    and no PostLike row of the pair. *)
Definition like_toggle_idempotent (db : DB) (u postId : Z) (now1 now2 : Z)
  : Prop :=
  let db2 := run (toggle_twice u postId now1 now2) db in
  stored_likes postId db2 = stored_likes postId db /\
  like_rows postId u db2 = [].

(** Accept notification: the accept route creates a Notification exactly
    when it has accepted an Answer whose author differs from the acceptor. *)
Definition notified_iff_accepted (db : DB) (u questionId answerId : Z)
    (now : Z) : Prop :=
  let response := result (post_answers_accept (Some u) questionId answerId now) db in
  let db' := run (post_answers_accept (Some u) questionId answerId now) db in
  rows (notifications db') <> rows (notifications db) <->
  (status response = 200 /\
   exists a, In a (rows (answers db')) /\ a_id a = answerId /\
             a_isAccepted a = true /\ a_authorId a <> u).

(** ** Descriptions of intermediate stores, used in the proofs *)

Definition recount_questions (q : option Z) (vs : list Vote) (l : list Question)
  : list Question :=
  match q with
  | Some q =>
      map (fun x => if q_id x =? q
                    then set_question_votes (net_votes (OnQuestion q) vs) x
                    else x) l
  | None => l
  end.

Definition recount_answers (a : option Z) (vs : list Vote) (l : list Answer)
  : list Answer :=
  match a with
  | Some a =>
      map (fun x => if a_id x =? a
                    then set_answer_votes (net_votes (OnAnswer a) vs) x
                    else x) l
  | None => l
  end.

Definition other_null (t : Target) (v : Vote) : bool :=
  match t with
  | OnQuestion _ => col_null (v_answerId v)
  | OnAnswer _ => col_null (v_questionId v)
  end.

Definition bump_likes (postId d : Z) (ps : list Post) : list Post :=
  map (fun p => if p_id p =? postId then add_likes d p else p) ps.

(** What [getQuestion] reads: the Question row of that id, and its
    Answers, newest first. *)
Definition nested_answers (id : Z) (db : DB) : list AnswerWithAuthor :=
  map with_author
    (order_by (fun x y => newest_first a_createdAt (fst x) (fst y))
       (leftJoin_users a_authorId (rows (users db))
          (filter (fun a => a_questionId a =? id) (rows (answers db))))).

(** The statement trace only grows. *)
Definition extends (db db' : DB) : Prop :=
  exists ss, stmts db' = stmts db ++ ss.


(** * Further operations

    The remaining operations of [DatabaseStorage] that the conditions above
    can express, the routes that drive them, and the tag editor of the
    question form.  Author summaries carry the columns of User kept in the
    model. *)

(** ** [DatabaseStorage]: users *)

Definition getUser (id : Z) : M (option User) :=
  us <- select usersT [U_id_eq id] ;;
  ret (hd_error us).

Definition set_isAdmin (b : bool) (u : User) : User :=
  mkUser (u_id u) (u_username u) (u_name u) b.

Definition makeUserAdmin (id : Z) : M unit :=
  update usersT (set_isAdmin true) [U_id_eq id] ;;; ret tt.

Definition removeUserAdmin (id : Z) : M unit :=
  update usersT (set_isAdmin false) [U_id_eq id] ;;; ret tt.

(** ** [DatabaseStorage]: questions and answers *)



Definition deleteQuestion (id : Z) : M unit :=
  delete questionsT [Q_id_eq id].

Definition add_views (d : Z) (q : Question) : Question :=
  mkQuestion (q_id q) (q_title q) (q_description q) (q_authorId q) (q_tags q)
    (q_votes q) (q_views q + d) (q_acceptedAnswerId q) (q_createdAt q).

Definition incrementViewCount (id : Z) : M unit :=
  update questionsT (add_views 1) [Q_id_eq id] ;;; ret tt.

(** [Partial<InsertAnswer>] *)
Record PartialAnswer := mkPartialAnswer
  { pa_content : option string; pa_questionId : option Z;
    pa_authorId : option Z }.

Definition set_answer (p : PartialAnswer) (a : Answer) : Answer :=
  mkAnswer (a_id a)
    (match pa_content p with Some c => c | None => a_content a end)
    (match pa_questionId p with Some q => q | None => a_questionId a end)
    (match pa_authorId p with Some u => u | None => a_authorId a end)
    (a_votes a) (a_isAccepted a) (a_createdAt a).

Definition updateAnswer (id : Z) (answer : PartialAnswer) : M (option Answer) :=
  rs <- update answersT (set_answer answer) [A_id_eq id] ;;
  ret (hd_error rs).

(** ** [DatabaseStorage]: notifications *)

(** asc(createdAt) *)
Definition oldest_first {R} (createdAt : R -> Z) (x y : R) : bool :=
  createdAt x <=? createdAt y.

(** [.leftJoin(questions, eq(key, questions.id))] on a nullable key *)
Definition leftJoin_questions {R} (key : R -> option Z) (qs : list Question)
    (rs : list R) : list (R * option Question) :=
  flat_map
    (fun r =>
       match filter (fun q => col_is (key r) (q_id q)) qs with
       | [] => [(r, None)]
       | ms => map (fun q => (r, Some q)) ms
       end)
    rs.

(** The [question] stub of a notification: its id and title; the other
    fields of the stub are constants in the source. *)
Record NotificationWithQuestion := mkNotificationWithQuestion
  { nwq_row : Notification; nwq_question : option (Z * string) }.

Definition with_question (jq : Notification * option Question)
  : NotificationWithQuestion :=
  mkNotificationWithQuestion (fst jq)
    (match snd jq, n_questionId (fst jq) with
     | Some q, Some questionId =>
         if String.eqb (q_title q) "" then None
         else Some (questionId, q_title q)
     | _, _ => None
     end).

Definition getNotifications (userId : Z) (limit : option nat)
  : M (list NotificationWithQuestion) :=
  let limit := match limit with Some n => n | None => 20%nat end in
  fun db =>
    (map with_question
       (firstn limit
          (order_by (fun x y => newest_first n_createdAt (fst x) (fst y))
             (leftJoin_questions n_questionId (rows (questions db))
                (filter (matches notificationsT db [N_userId_eq userId])
                   (rows (notifications db)))))),
     issue (OnNotifications SELECT [N_userId_eq userId]) db).

Definition set_isRead (b : bool) (n : Notification) : Notification :=
  mkNotification (n_id n) (n_userId n) (n_type n) (n_title n) (n_message n)
    (n_questionId n) (n_answerId n) b (n_createdAt n).

Definition markAllNotificationsAsRead (userId : Z) : M unit :=
  update notificationsT (set_isRead true) [N_userId_eq userId] ;;; ret tt.

(** ** [DatabaseStorage]: posts and comments *)

Record PostCommentWithAuthor := mkPostCommentWithAuthor
  { pcwa_row : PostComment; pcwa_author : Author }.

Definition comment_with_author (ju : PostComment * option User)
  : PostCommentWithAuthor :=
  mkPostCommentWithAuthor (fst ju) (author_of (pc_authorId (fst ju)) (snd ju)).

Definition getPostComments (postId : Z) : M (list PostCommentWithAuthor) :=
  results <-
    select_leftJoin_users postCommentsT pc_authorId (oldest_first pc_createdAt)
      [PC_postId_eq postId] ;;
  ret (map comment_with_author results).

Record InsertPostComment := mkInsertPostComment
  { ipc_postId : Z; ipc_authorId : Z; ipc_content : string }.

Definition createPostComment (comment : InsertPostComment) (now : Z)
  : M PostComment :=
  insert postCommentsT
    (fun id =>
       mkPostComment id (ipc_postId comment) (ipc_authorId comment)
         (ipc_content comment) now).

(** [PostWithAuthor]: the stored [likes] counter is not part of it; [likes]
    is the list of PostLike rows. *)
Record PostWithAuthor := mkPostWithAuthor
  { pwa_id : Z; pwa_title : string; pwa_content : string; pwa_authorId : Z;
    pwa_shares : Z; pwa_createdAt : Z; pwa_author : Author;
    pwa_comments : list PostCommentWithAuthor; pwa_likes : list PostLike;
    pwa_count_comments : Z; pwa_count_likes : Z }.

Definition getPost (id : Z) : M (option PostWithAuthor) :=
  results <- select_leftJoin_users postsT p_authorId (fun _ _ => true)
               [P_id_eq id] ;;
  match results with
  | [] => ret None
  | row :: _ =>
      comments <- getPostComments (p_id (fst row)) ;;
      likes <- select postLikesT [PL_postId_eq (p_id (fst row))] ;;
      ret (Some
             (mkPostWithAuthor (p_id (fst row)) (p_title (fst row))
                (p_content (fst row)) (p_authorId (fst row))
                (p_shares (fst row)) (p_createdAt (fst row))
                (author_of (p_authorId (fst row)) (snd row))
                comments likes
                (Z.of_nat (List.length comments))
                (Z.of_nat (List.length likes))))
  end.

(** ** Further routes *)

Inductive Json :=
| JMessage (m : string)
| JInvalid (m : string)            (* { message, errors } built from a ZodError *)
| JQuestion (q : QuestionWithAuthor)
| JQuestionRow (q : Question)
| JAnswer (a : option Answer)      (* [undefined] when no row was updated *)
| JComment (c : PostComment).

Record Reply := mkReply { code : Z; json : Json }.

(** The [isAdmin] middleware; [None] stands for [next()]. *)
Definition isAdmin (user : option Z) : M (option Reply) :=
  match user with
  | None => ret (Some (mkReply 401 (JMessage "Unauthorized")))
  | Some userId =>
      (* Get fresh user data to check admin status *)
      currentUser <- getUser userId ;;
      match currentUser with
      | Some u =>
          if u_isAdmin u then ret None
          else ret (Some (mkReply 403
                            (JMessage "Access denied. Admin privileges required.")))
      | None =>
          ret (Some (mkReply 403
                       (JMessage "Access denied. Admin privileges required.")))
      end
  end.

(** GET /api/questions/:id; [id] is [None] when [parseInt] yields NaN. *)
Definition get_questions_id (id : option Z) : M Reply :=
  match id with
  | None => ret (mkReply 400 (JMessage "Invalid question ID"))
  | Some id =>
      question <- getQuestion id ;;
      match question with
      | None => ret (mkReply 404 (JMessage "Question not found"))
      | Some q =>
          (* Increment view count *)
          incrementViewCount id ;;;
          ret (mkReply 200 (JQuestion q))
      end
  end.




(** DELETE /api/questions/:id *)
Definition delete_questions_id (user : option Z) (id : Z) : M Reply :=
  match user with
  | None => ret (mkReply 401 (JMessage "Unauthorized"))
  | Some userId =>
      existingQuestion <- getQuestion id ;;
      match existingQuestion with
      | None => ret (mkReply 404 (JMessage "Question not found"))
      | Some q =>
          if negb (q_authorId (qwa_row q) =? userId) then
            ret (mkReply 403
                   (JMessage "Not authorized to delete this question"))
          else
            deleteQuestion id ;;;
            ret (mkReply 200 (JMessage "Question deleted successfully"))
      end
  end.

(** PUT /api/answers/:id; the body is a well-typed partial answer, which
    [insertAnswerSchema.partial().parse] accepts. *)
Definition put_answers_id (user : option Z) (id : Z) (body : PartialAnswer)
  : M Reply :=
  match user with
  | None => ret (mkReply 401 (JMessage "Unauthorized"))
  | Some userId =>
      existingAnswer <- getAnswersByQuestionId 0 ;;
      match find (fun a => a_id (awa_row a) =? id) existingAnswer with
      | None => ret (mkReply 404 (JMessage "Answer not found"))
      | Some answer =>
          if negb (a_authorId (awa_row answer) =? userId) then
            ret (mkReply 403 (JMessage "Not authorized to edit this answer"))
          else
            updatedAnswer <- updateAnswer id body ;;
            ret (mkReply 200 (JAnswer updatedAnswer))
      end
  end.

(** POST /api/posts/:id/comments; [content] is a string or absent. *)
Definition post_posts_comments (user : option Z) (postId : Z)
    (content : option string) (now : Z) : M Reply :=
  match user with
  | None => ret (mkReply 401 (JMessage "Unauthorized"))
  | Some userId =>
      match content with
      | Some c =>
          if String.eqb c "" then
            ret (mkReply 400 (JMessage "Comment content is required"))
          else
            comment <- createPostComment (mkInsertPostComment postId userId c) now ;;
            ret (mkReply 200 (JComment comment))
      | None => ret (mkReply 400 (JMessage "Comment content is required"))
      end
  end.

(** ** The tag editor of the question form *)

Section TagEditor.

(** [s.trim().toLowerCase()] *)
Variable normalize : string -> string.

(** [addTag(tagToAdd?)] on the state ([tags], [tagInput]) *)
Definition addTag (tagToAdd : option string) (tags : list string)
    (tagInput : string) : list string * string :=
  let tag :=
    normalize (match tagToAdd with
               | Some t => if String.eqb t "" then tagInput else t
               | None => tagInput
               end) in
  if negb (String.eqb tag "") && negb (mem_string tag tags)
     && (List.length tags <? 5)%nat
  then (tags ++ [tag], "")
  else (tags, tagInput).

Definition removeTag (tagToRemove : string) (tags : list string) : list string :=
  filter (fun tag => negb (String.eqb tag tagToRemove)) tags.

(** What the user can do to the editor: type into the input, add the typed
    tag or a suggested one, remove a tag, close the form (a successful
    submission resets the editor in the same way).  Every action sees the
    state the previous one left. *)
Inductive TagAction :=
| Type_input (text : string)
| Add_tag (tagToAdd : option string)
| Remove_tag (tagToRemove : string)
| Close_form.

Definition tag_step (st : list string * string) (a : TagAction)
  : list string * string :=
  match a with
  | Type_input text => (fst st, text)
  | Add_tag tagToAdd => addTag tagToAdd (fst st) (snd st)
  | Remove_tag t => (removeTag t (fst st), snd st)
  | Close_form => ([], "")
  end.

End TagEditor.

(** ** Vocabulary of the further properties *)

(** The Answer rows of a Question. *)
Definition answers_of (questionId : Z) (db : DB) : list Answer :=
  filter (fun a => a_questionId a =? questionId) (rows (answers db)).

(** The rows that the foreign keys of an INSERT ask for. *)
Definition stored_user (u : Z) (db : DB) : Prop :=
  In u (map u_id (rows (users db))).

Definition stored_question (q : Z) (db : DB) : Prop :=
  In q (map q_id (rows (questions db))).

Definition stored_answer (a : Z) (db : DB) : Prop :=
  In a (map a_id (rows (answers db))).

Definition stored_post (p : Z) (db : DB) : Prop :=
  In p (map p_id (rows (posts db))).

Definition stored_target (t : Target) (db : DB) : Prop :=
  match t with
  | OnQuestion q => stored_question q db
  | OnAnswer a => stored_answer a db
  end.

(** The store with another ILIKE. *)
Definition with_ilike (ilike : string -> string -> bool) (db : DB) : DB :=
  mkDB (users db) (questions db) (answers db) (votes db) (notifications db)
       (posts db) (postComments db) (postLikes db) (stmts db) ilike.

(** A vote request that names both a question and an answer. *)
Definition both_body (q a : Z) (voteType : string) : VoteBody :=
  mkVoteBody (Some q) (Some a) voteType.

(** Two casts of different types in a row. *)
Definition cast_then (u : Z) (t : Target) (vt1 vt2 : string) (now1 now2 : Z)
  : M (Response * Response) :=
  r1 <- post_votes (Some u) (vote_body t vt1) now1 ;;
  r2 <- post_votes (Some u) (vote_body t vt2) now2 ;;
  ret (r1, r2).
(** * Properties *)

(** ** Lists, tables and the monad *)

Lemma run_bind {A B} (m : M A) (k : A -> M B) (db : DB) :
  run (bind m k) db = run (k (result m db)) (run m db).
Proof. unfold run, result, bind. now destruct (m db). Qed.

Lemma result_bind {A B} (m : M A) (k : A -> M B) (db : DB) :
  result (bind m k) db = result (k (result m db)) (run m db).
Proof. unfold run, result, bind. now destruct (m db). Qed.

Lemma run_ret {A} (a : A) (db : DB) : run (ret a) db = db.
Proof. reflexivity. Qed.

Lemma result_ret {A} (a : A) (db : DB) : result (ret a) db = a.
Proof. reflexivity. Qed.

Lemma result_select {R C} (T : Table R C) (w : list C) (db : DB) :
  result (select T w) db = filter (matches T db w) (rows (tbl T db)).
Proof. reflexivity. Qed.

Lemma run_select {R C} (T : Table R C) (w : list C) (db : DB) :
  run (select T w) db = issue (stmt_on T SELECT w) db.
Proof. reflexivity. Qed.

Lemma result_update {R C} (T : Table R C) (set : R -> R) (w : list C) (db : DB) :
  result (update T set w) db =
  map set (filter (matches T db w) (rows (tbl T db))).
Proof. reflexivity. Qed.

Lemma run_delete {R C} (T : Table R C) (w : list C) (db : DB) :
  run (delete T w) db =
  issue (stmt_on T DELETE w)
    (with_tbl T
       (mkTbl (filter (fun r => negb (matches T db w r)) (rows (tbl T db)))
          (next_id (tbl T db)))
       db).
Proof. reflexivity. Qed.

Lemma Forall_filter_negb {A} (p : A -> bool) (P : A -> Prop) (l : list A) :
  (forall x, p x = false -> P x) ->
  Forall P (filter (fun x => negb (p x)) l).
Proof.
  intros H. apply Forall_forall. intros x Hx. apply filter_In in Hx.
  destruct Hx as [_ Hx]. apply H. now destruct (p x).
Qed.

Lemma mem_Z_In (x : Z) (l : list Z) : mem_Z x l = true <-> In x l.
Proof.
  unfold mem_Z. rewrite existsb_exists. split.
  - intros [y [Hy E]]. apply Z.eqb_eq in E. now subst.
  - intros H. exists x. split; [assumption | apply Z.eqb_refl].
Qed.

Lemma filter_none {A} (p q : A -> bool) (l : list A) :
  filter p l = [] -> (forall x, q x = true -> p x = true) -> filter q l = [].
Proof.
  intros Hp Hq. induction l as [|x l IH]; cbn in *; [reflexivity|].
  destruct (p x) eqn:Ep; [discriminate|].
  destruct (q x) eqn:Eq; [apply Hq in Eq; congruence | now apply IH].
Qed.

Lemma filter_key_unique {A} (key : A -> Z) (l : list A) (x : A) :
  NoDup (map key l) -> In x l ->
  filter (fun r => key r =? key x) l = [x].
Proof.
  induction l as [|y l IH]; cbn; intros Hnd Hin; [contradiction|].
  inversion Hnd as [|? ? Hnotin Hnd']; subst.
  destruct Hin as [-> | Hin].
  - rewrite Z.eqb_refl. f_equal.
    apply filter_none with (p := fun r => existsb (Z.eqb (key r)) [key x]).
    + clear IH Hnd Hnd'. induction l as [|z l IHl]; cbn; [reflexivity|].
      cbn in Hnotin. rewrite orb_false_r.
      destruct (key z =? key x) eqn:E.
      * apply Z.eqb_eq in E. exfalso. apply Hnotin. now left.
      * apply IHl. intros H. apply Hnotin. now right.
    + intros z Hz. cbn. now rewrite Hz.
  - destruct (key y =? key x) eqn:E.
    + apply Z.eqb_eq in E. exfalso. apply Hnotin. rewrite E. now apply in_map.
    + now apply IH.
Qed.

(** ** Vote operations: what each leaves in the store *)

Lemma count_votes_question (q : Z) (t : string) (db0 : DB) (vs : list Vote) :
  Z.of_nat (List.length
              (filter (matches votesT db0 [V_questionId_eq q; V_voteType_eq t]) vs))
  = count_votes (OnQuestion q) t vs.
Proof.
  unfold count_votes. do 2 f_equal. apply filter_ext. intros v. cbn.
  now rewrite andb_true_r.
Qed.

Lemma count_votes_answer (a : Z) (t : string) (db0 : DB) (vs : list Vote) :
  Z.of_nat (List.length
              (filter (matches votesT db0 [V_answerId_eq a; V_voteType_eq t]) vs))
  = count_votes (OnAnswer a) t vs.
Proof.
  unfold count_votes. do 2 f_equal. apply filter_ext. intros v. cbn.
  now rewrite andb_true_r.
Qed.

Lemma updateVoteCount_effect (questionId answerId : option Z) (t : string)
    (db : DB) :
  let db' := run (updateVoteCount questionId answerId t) db in
  votes db' = votes db /\
  rows (questions db') =
    recount_questions (truthy questionId) (rows (votes db)) (rows (questions db)) /\
  rows (answers db') =
    recount_answers (truthy answerId) (rows (votes db)) (rows (answers db)) /\
  notifications db' = notifications db.
Proof.
  unfold updateVoteCount, run, bind, select, update, ret, net_votes.
  destruct (truthy questionId) as [q|], (truthy answerId) as [a|]; cbn;
    repeat split;
    rewrite ?count_votes_question, ?count_votes_answer;
    try (apply map_ext; intros x; now rewrite andb_true_r).
Qed.

Lemma recount_in_sync (t : Target) (db db0 : DB) :
  rows (votes db) = rows (votes db0) ->
  match t with
  | OnQuestion q =>
      rows (questions db) =
      recount_questions (Some q) (rows (votes db0)) (rows (questions db0))
  | OnAnswer a =>
      rows (answers db) =
      recount_answers (Some a) (rows (votes db0)) (rows (answers db0))
  end ->
  tally_in_sync t db.
Proof.
  intros Hv Ht. unfold tally_in_sync, stored_tally. rewrite Hv.
  destruct t as [q|a]; rewrite Ht; cbn;
    apply Forall_forall; intros n Hn;
    apply in_map_iff in Hn; destruct Hn as (x & <- & Hx);
    apply filter_In in Hx; destruct Hx as [Hx Hid];
    apply in_map_iff in Hx; destruct Hx as (y & <- & _).
  - destruct (q_id y =? q) eqn:E; cbn in Hid; [reflexivity | congruence].
  - destruct (a_id y =? a) eqn:E; cbn in Hid; [reflexivity | congruence].
Qed.

Lemma updateVoteCount_in_sync (questionId answerId : option Z) (vt : string)
    (db : DB) (t : Target) :
  match t with
  | OnQuestion q => truthy questionId = Some q
  | OnAnswer a => truthy answerId = Some a
  end ->
  tally_in_sync t (run (updateVoteCount questionId answerId vt) db).
Proof.
  intros Ht.
  destruct (updateVoteCount_effect questionId answerId vt db)
    as (Hv & Hq & Ha & _).
  apply recount_in_sync with (db0 := db); [now rewrite Hv|].
  destruct t; rewrite Ht in *; assumption.
Qed.

Lemma createVote_result (vote : InsertVote) (now : Z) (db : DB) :
  result (createVote vote now) db =
  mkVote (next_id (votes db)) (iv_userId vote) (iv_questionId vote)
    (iv_answerId vote) (iv_voteType vote) now.
Proof. unfold createVote. now rewrite !result_bind. Qed.

Lemma select_by_id (db0 : DB) (vs : list Vote) (v : Vote) :
  NoDup (map v_id vs) -> In v vs ->
  filter (matches votesT db0 [V_id_eq (v_id v)]) vs = [v].
Proof.
  intros Hnd Hin. rewrite <- (filter_key_unique v_id vs v Hnd Hin).
  apply filter_ext. intros r. cbn. apply andb_true_r.
Qed.

(** The three vote operations recount: after the insert of [createVote],
    the in-place flip of [updateVote] and the deletion of [deleteVote], the
    stored [votes] field of the target of the mutated row equals the number
    of its up-votes minus the number of its down-votes among the Vote rows.
    Vote ids are the primary key.  [deleteUser] deletes Vote rows too and is
    not among the three. *)
Theorem vote_mutation_recounts_target (db : DB) (m : VoteMutation) (v : Vote)
    (t : Target) :
  NoDup (map v_id (rows (votes db))) ->
  mutated db m v ->
  is_target_of t v ->
  tally_in_sync t (run (mutate m) db).
Proof.
  intros Hnd Hm Ht. destruct Hm as [vote now | id vt v Hin Hid | id v Hin Hid];
    cbn [mutate].
  - rewrite createVote_result in Ht.
    unfold createVote. rewrite !run_bind, run_ret.
    apply updateVoteCount_in_sync. destruct t; exact Ht.
  - subst id. unfold updateVote. rewrite !run_bind.
    rewrite result_update. cbn [tbl votesT].
    rewrite (select_by_id db (rows (votes db)) v Hnd Hin). cbn [map].
    rewrite !run_bind, !run_ret.
    apply updateVoteCount_in_sync. destruct t; exact Ht.
  - subst id. unfold deleteVote. rewrite !run_bind.
    rewrite result_select. cbn [tbl votesT].
    rewrite (select_by_id db (rows (votes db)) v Hnd Hin).
    apply updateVoteCount_in_sync. destruct t; exact Ht.
Qed.

Lemma truthy_nonzero (n : Z) : n <> 0 -> truthy (Some n) = Some n.
Proof. intros H. cbn. apply Z.eqb_neq in H. now rewrite H. Qed.

Lemma truthy_idem (x : option Z) : truthy (truthy x) = truthy x.
Proof.
  destruct x as [n|]; cbn; [|reflexivity].
  destruct (n =? 0) eqn:E; cbn; [reflexivity | now rewrite E].
Qed.

Lemma createVote_effect (vote : InsertVote) (now : Z) (db : DB) :
  let db' := run (createVote vote now) db in
  let vs := rows (votes db) ++ [result (createVote vote now) db] in
  votes db' = mkTbl vs (next_id (votes db) + 1) /\
  rows (questions db') =
    recount_questions (truthy (iv_questionId vote)) vs (rows (questions db)) /\
  rows (answers db') =
    recount_answers (truthy (iv_answerId vote)) vs (rows (answers db)) /\
  notifications db' = notifications db.
Proof.
  cbv zeta. rewrite createVote_result.
  unfold createVote. rewrite !run_bind, run_ret.
  match goal with
  | |- context [run (updateVoteCount ?q ?a ?t) ?d] =>
      destruct (updateVoteCount_effect q a t d) as (Hv & Hq & Ha & Hn)
  end.
  rewrite Hv, Hq, Ha, Hn. repeat split.
Qed.

Lemma deleteVote_effect (id : Z) (db : DB) :
  let db' := run (deleteVote id) db in
  let vs := filter (fun v => negb (v_id v =? id)) (rows (votes db)) in
  votes db' = mkTbl vs (next_id (votes db)) /\
  notifications db' = notifications db /\
  match filter (fun v => v_id v =? id) (rows (votes db)) with
  | vote :: _ =>
      rows (questions db') =
        recount_questions (truthy (v_questionId vote)) vs (rows (questions db)) /\
      rows (answers db') =
        recount_answers (truthy (v_answerId vote)) vs (rows (answers db))
  | [] => questions db' = questions db /\ answers db' = answers db
  end.
Proof.
  cbv zeta. unfold deleteVote. rewrite !run_bind, result_select.
  cbn [tbl votesT].
  assert (E1 : filter (matches votesT db [V_id_eq id]) (rows (votes db)) =
               filter (fun v => v_id v =? id) (rows (votes db))).
  { apply filter_ext. intros v. cbn. apply andb_true_r. }
  assert (E2 : forall d, filter (fun r => negb (matches votesT d [V_id_eq id] r))
                           (rows (votes db)) =
                         filter (fun v => negb (v_id v =? id)) (rows (votes db))).
  { intros d. apply filter_ext. intros v. cbn. now rewrite andb_true_r. }
  rewrite E1, run_select, run_delete.
  cbn [tbl with_tbl votesT stmt_on issue votes]. rewrite E2.
  destruct (filter (fun v => v_id v =? id) (rows (votes db))) as [|vote rest].
  - rewrite run_ret. repeat split.
  - match goal with
    | |- context [run (updateVoteCount ?q ?a ?t) ?d] =>
        destruct (updateVoteCount_effect q a t d) as (Hv & Hq & Ha & Hn)
    end.
    rewrite Hv, Hq, Ha, Hn. repeat split.
Qed.

(** The recount of [createVote] is made on the table that holds the new
    row. *)
Lemma createVote_inserts_and_recounts (vote : InsertVote) (now : Z) (db : DB)
    (t : Target) :
  is_target_of t (result (createVote vote now) db) ->
  rows (votes (run (createVote vote now) db)) =
    rows (votes db) ++ [result (createVote vote now) db] /\
  tally_in_sync t (run (createVote vote now) db).
Proof.
  intros Ht.
  destruct (createVote_effect vote now db) as (Hv & Hq & Ha & _).
  assert (Hrows : rows (votes (run (createVote vote now) db)) =
                  rows (votes db) ++ [result (createVote vote now) db])
    by now rewrite Hv.
  split; [exact Hrows|].
  rewrite createVote_result in Ht.
  apply recount_in_sync
    with (db0 := with_votes
                   (mkTbl (rows (votes db) ++ [result (createVote vote now) db]) 0)
                   db);
    [exact Hrows|].
  cbn [with_votes votes questions answers rows].
  destruct t as [q|a]; cbn [is_target_of v_questionId v_answerId] in Ht;
    rewrite Ht in *; assumption.
Qed.

(** The three-way state machine of POST /api/votes. *)
Lemma post_votes_cases (u : Z) (body : VoteBody) (now : Z) (db : DB) :
  let lookup := getVote u (b_questionId body) (b_answerId body) in
  let db0 := run lookup db in
  match result lookup db with
  | Some ev =>
      if String.eqb (v_voteType ev) (b_voteType body) then
        run (post_votes (Some u) body now) db = run (deleteVote (v_id ev)) db0 /\
        result (post_votes (Some u) body now) db =
          mkResponse 200 (Message "Vote removed")
      else
        run (post_votes (Some u) body now) db =
          run (updateVote (v_id ev) (b_voteType body)) db0 /\
        result (post_votes (Some u) body now) db =
          match result (updateVote (v_id ev) (b_voteType body)) db0 with
          | Some uv => mkResponse 200 (VoteJson uv)
          | None => mkResponse 500 (Message "Failed to create vote")
          end
  | None =>
      match insertVoteSchema_parse u (truthy (b_questionId body))
              (truthy (b_answerId body)) (b_voteType body) with
      | Some voteData =>
          run (post_votes (Some u) body now) db = run (createVote voteData now) db0 /\
          result (post_votes (Some u) body now) db =
            mkResponse 200 (VoteJson (result (createVote voteData now) db0))
      | None =>
          run (post_votes (Some u) body now) db = db0 /\
          result (post_votes (Some u) body now) db =
            mkResponse 400 (InvalidData "Invalid vote data")
      end
  end.
Proof.
  cbv zeta. unfold post_votes. rewrite run_bind, result_bind.
  destruct (result (getVote u (b_questionId body) (b_answerId body)) db)
    as [ev|].
  - destruct (String.eqb (v_voteType ev) (b_voteType body)).
    + now rewrite run_bind, result_bind, run_ret, result_ret.
    + rewrite run_bind, result_bind.
      now destruct (result (updateVote (v_id ev) (b_voteType body)) _).
  - destruct (insertVoteSchema_parse _ _ _ _).
    + now rewrite run_bind, result_bind, run_ret, result_ret.
    + now rewrite run_ret, result_ret.
Qed.

Lemma getVote_target (u : Z) (t : Target) (vt : string) (db : DB) :
  target_id t <> 0 ->
  let body := vote_body t vt in
  let lookup := getVote u (b_questionId body) (b_answerId body) in
  result lookup db =
    hd_error (filter (fun v => (v_userId v =? u) && targets t v && other_null t v)
                (rows (votes db))) /\
  exists s, run lookup db = issue s db.
Proof.
  intros Hz. cbv zeta. unfold getVote.
  destruct t as [q|a]; cbn [vote_body b_questionId b_answerId target_id] in *;
    rewrite (truthy_nonzero Hz); cbn [truthy app];
    rewrite result_bind, run_bind, result_select, run_select, result_ret, run_ret;
    (split; [ | eexists; reflexivity ]);
    cbn [tbl votesT]; f_equal; apply filter_ext; intros v; cbn;
    now rewrite andb_true_r, andb_assoc.
Qed.

Lemma recount_questions_twice (q : option Z) (vs1 vs2 : list Vote) (l : list Question) :
  recount_questions q vs2 (recount_questions q vs1 l) = recount_questions q vs2 l.
Proof.
  destruct q as [q|]; cbn; [|reflexivity].
  rewrite map_map. apply map_ext. intros x.
  destruct (q_id x =? q) eqn:E; cbn; now rewrite E.
Qed.

Lemma recount_answers_twice (a : option Z) (vs1 vs2 : list Vote) (l : list Answer) :
  recount_answers a vs2 (recount_answers a vs1 l) = recount_answers a vs2 l.
Proof.
  destruct a as [a|]; cbn; [|reflexivity].
  rewrite map_map. apply map_ext. intros x.
  destruct (a_id x =? a) eqn:E; cbn; now rewrite E.
Qed.



Lemma filter_fresh_id (n : Z) (l : list Vote) :
  Forall (fun v => v_id v <> n) l ->
  filter (fun v => v_id v =? n) l = [] /\
  filter (fun v => negb (v_id v =? n)) l = l.
Proof.
  induction 1 as [|v l Hv _ [IH1 IH2]]; cbn; [now split|].
  apply Z.eqb_neq in Hv. rewrite Hv. cbn. split; [assumption | now f_equal].
Qed.

Lemma vote_body_ids (t : Target) (vt : string) :
  target_id t <> 0 ->
  truthy (b_questionId (vote_body t vt)) =
    match t with OnQuestion q => Some q | OnAnswer _ => None end /\
  truthy (b_answerId (vote_body t vt)) =
    match t with OnQuestion _ => None | OnAnswer a => Some a end.
Proof.
  intros Hz. destruct t; cbn [vote_body b_questionId b_answerId target_id] in *;
    now rewrite (truthy_nonzero Hz).
Qed.


(** ** Post likes *)

Lemma is_like_of_self (id postId userId now : Z) :
  is_like_of postId userId (mkPostLike id postId userId now) = true.
Proof. unfold is_like_of. cbn. now rewrite !Z.eqb_refl. Qed.

Lemma like_matches (db0 : DB) (postId userId : Z) (l : PostLike) :
  matches postLikesT db0 [PL_postId_eq postId; PL_userId_eq userId] l =
  is_like_of postId userId l.
Proof. unfold is_like_of. cbn. now rewrite andb_true_r. Qed.

Lemma bump_likes_bump (postId d1 d2 : Z) (ps : list Post) :
  bump_likes postId d2 (bump_likes postId d1 ps) = bump_likes postId (d1 + d2) ps.
Proof.
  unfold bump_likes. rewrite map_map. apply map_ext. intros p.
  destruct (p_id p =? postId) eqn:E; cbn; rewrite E; [|reflexivity].
  unfold add_likes. cbn. f_equal. lia.
Qed.

Lemma bump_likes_0 (postId : Z) (ps : list Post) : bump_likes postId 0 ps = ps.
Proof.
  unfold bump_likes. rewrite <- (map_id ps) at 2. apply map_ext. intros p.
  destruct (p_id p =? postId); [|reflexivity].
  destruct p. unfold add_likes. cbn. f_equal. lia.
Qed.

Lemma filter_negb_none {A} (p : A -> bool) (l : list A) :
  filter p l = [] -> filter (fun x => negb (p x)) l = l.
Proof.
  induction l as [|x l IH]; cbn; [reflexivity|].
  destruct (p x); [discriminate|]. cbn. intros H. f_equal. now apply IH.
Qed.

Lemma filter_filter_negb {A} (p : A -> bool) (l : list A) :
  filter p (filter (fun x => negb (p x)) l) = [].
Proof.
  induction l as [|x l IH]; cbn; [reflexivity|].
  destruct (p x) eqn:E; cbn; [assumption | now rewrite E].
Qed.

Lemma isPostLikedByUser_effect (postId userId : Z) (db : DB) :
  result (isPostLikedByUser postId userId) db =
    match like_rows postId userId db with [] => false | _ :: _ => true end /\
  exists s, run (isPostLikedByUser postId userId) db = issue s db.
Proof.
  unfold isPostLikedByUser.
  rewrite result_bind, run_bind, result_select, run_select, result_ret, run_ret.
  split; [|eexists; reflexivity]. cbn [tbl postLikesT].
  rewrite (filter_ext _ _ (like_matches db postId userId)). reflexivity.
Qed.

Lemma unlikePost_effect (postId userId : Z) (db : DB) :
  let db' := run (unlikePost postId userId) db in
  postLikes db' =
    mkTbl (filter (fun l => negb (is_like_of postId userId l)) (rows (postLikes db)))
      (next_id (postLikes db)) /\
  rows (posts db') = bump_likes postId (-1) (rows (posts db)).
Proof.
  unfold unlikePost, run, bind, delete, update, ret. cbn. split.
  - f_equal. apply filter_ext. intros l. now rewrite andb_true_r.
  - apply map_ext. intros p. now rewrite andb_true_r.
Qed.

Lemma likePost_effect (postId userId now : Z) (db : DB) :
  let db' := run (likePost postId userId now) db in
  match like_rows postId userId db with
  | [] =>
      postLikes db' =
        mkTbl (rows (postLikes db) ++
               [mkPostLike (next_id (postLikes db)) postId userId now])
          (next_id (postLikes db) + 1) /\
      rows (posts db') = bump_likes postId 1 (rows (posts db))
  | _ :: _ => postLikes db' = postLikes db /\ posts db' = posts db
  end.
Proof.
  cbv zeta. unfold likePost. rewrite run_bind, result_select.
  cbn [tbl postLikesT].
  rewrite (filter_ext _ _ (like_matches db postId userId)).
  fold (like_rows postId userId db).
  destruct (like_rows postId userId db).
  - unfold run, bind, select, insert, update, ret. cbn. split; [reflexivity|].
    apply map_ext. intros p. now rewrite andb_true_r.
  - now rewrite run_ret, run_select.
Qed.

Lemma post_posts_like_run (u postId now : Z) (db : DB) :
  exists s,
    run (post_posts_like (Some u) postId now) db =
    match like_rows postId u db with
    | [] => run (likePost postId u now) (issue s db)
    | _ :: _ => run (unlikePost postId u) (issue s db)
    end.
Proof.
  unfold post_posts_like. rewrite run_bind.
  destruct (isPostLikedByUser_effect postId u db) as [Hres [s Hrun]].
  exists s. rewrite Hres, Hrun.
  destruct (like_rows postId u db); now rewrite run_bind, run_ret.
Qed.

(** C8 (amended). Two like-toggles in a row return the post's like counter
    to its original value and the pair to its original like status: when the
    user had not liked the post, the PostLike table is as before, so no row
    of the pair is left; when the user had, one fresh row of the pair is
    left. *)
Theorem like_toggle_twice (db : DB) (u postId now1 now2 : Z) :
  let db2 := run (toggle_twice u postId now1 now2) db in
  rows (posts db2) = rows (posts db) /\
  stored_likes postId db2 = stored_likes postId db /\
  match like_rows postId u db with
  | [] => rows (postLikes db2) = rows (postLikes db) /\ like_rows postId u db2 = []
  | _ :: _ =>
      like_rows postId u db2 =
      [mkPostLike (next_id (postLikes db)) postId u now2]
  end.
Proof.
  cbv zeta. unfold toggle_twice, stored_likes. rewrite !run_bind, run_ret.
  destruct (post_posts_like_run u postId now1 db) as [s1 ->].
  pose proof (likePost_effect postId u now1 (issue s1 db)) as L1.
  pose proof (unlikePost_effect postId u (issue s1 db)) as U1.
  cbv zeta in L1, U1.
  change (like_rows postId u (issue s1 db)) with (like_rows postId u db) in L1.
  cbn [issue postLikes posts] in L1, U1.
  destruct (like_rows postId u db) as [|l0 ls] eqn:Hl.
  - (* not liked: the first toggle likes, the second unlikes *)
    destruct L1 as [PL1 P1].
    set (db1 := run (likePost postId u now1) (issue s1 db)) in *.
    clearbody db1.
    assert (Hl1 : like_rows postId u db1 =
                  [mkPostLike (next_id (postLikes db)) postId u now1]).
    { unfold like_rows. rewrite PL1. cbn [rows]. rewrite filter_app.
      fold (like_rows postId u db). rewrite Hl. cbn [filter app].
      now rewrite is_like_of_self. }
    destruct (post_posts_like_run u postId now2 db1) as [s2 ->].
    rewrite Hl1.
    destruct (unlikePost_effect postId u (issue s2 db1)) as [PL2 P2].
    cbn [issue postLikes posts] in PL2, P2.
    assert (HL : rows (postLikes (run (unlikePost postId u) (issue s2 db1))) =
                 rows (postLikes db)).
    { rewrite PL2, PL1. cbn [rows]. rewrite filter_app.
      unfold like_rows in Hl. rewrite (filter_negb_none _ _ Hl).
      cbn [filter]. rewrite is_like_of_self. apply app_nil_r. }
    rewrite P2, P1, bump_likes_bump. cbn [Z.add]. rewrite bump_likes_0.
    repeat split; [exact HL|]. unfold like_rows in *. now rewrite HL.
  - (* liked: the first toggle unlikes, the second likes again *)
    destruct U1 as [PL1 P1].
    set (db1 := run (unlikePost postId u) (issue s1 db)) in *.
    clearbody db1.
    assert (Hl1 : like_rows postId u db1 = []).
    { unfold like_rows. rewrite PL1. cbn [rows].
      apply (filter_filter_negb (is_like_of postId u)). }
    destruct (post_posts_like_run u postId now2 db1) as [s2 ->].
    rewrite Hl1.
    pose proof (likePost_effect postId u now2 (issue s2 db1)) as L2.
    cbv zeta in L2.
    change (like_rows postId u (issue s2 db1)) with (like_rows postId u db1) in L2.
    rewrite Hl1 in L2. destruct L2 as [PL2 P2].
    cbn [issue postLikes posts] in PL2, P2.
    rewrite P2, P1, bump_likes_bump. cbn [Z.add]. rewrite bump_likes_0.
    repeat split.
    unfold like_rows. rewrite PL2, PL1. cbn [rows next_id].
    rewrite filter_app, (filter_filter_negb (is_like_of postId u)).
    cbn [filter app]. now rewrite is_like_of_self.
Qed.

Lemma stored_likes_bump (postId d : Z) (ps : list Post) :
  map p_likes (filter (fun p => p_id p =? postId) (bump_likes postId d ps)) =
  map (fun k => k + d) (map p_likes (filter (fun p => p_id p =? postId) ps)).
Proof.
  unfold bump_likes.
  induction ps as [|p ps IH]; cbn; [reflexivity|].
  destruct (p_id p =? postId) eqn:E; cbn; rewrite E; cbn; now rewrite IH.
Qed.

(** C10. When no PostLike row exists for the pair, [unlikePost] leaves the
    PostLike rows unchanged and still decrements the post's stored [likes]
    counter by one; [n] such calls in a row decrement it by [n], so that the
    counter of a post with fewer than [n] likes ends below zero while the
    PostLike rows never changed. *)
Theorem unlikePost_without_like (db : DB) (postId userId : Z) (n : nat) :
  like_rows postId userId db = [] ->
  let db1 := run (unlikePost postId userId) db in
  let dbn := run (unlike_times n postId userId) db in
  rows (postLikes db1) = rows (postLikes db) /\
  stored_likes postId db1 = map (fun k => k - 1) (stored_likes postId db) /\
  rows (postLikes dbn) = rows (postLikes db) /\
  stored_likes postId dbn =
    map (fun k => k - Z.of_nat n) (stored_likes postId db) /\
  Forall (fun k => k < Z.of_nat n -> exists k', In k' (stored_likes postId dbn) /\ k' < 0)
    (stored_likes postId db).
Proof.
  intros Hnone. cbv zeta.
  assert (Hone : forall d, like_rows postId userId d = [] ->
            rows (postLikes (run (unlikePost postId userId) d)) = rows (postLikes d) /\
            rows (posts (run (unlikePost postId userId) d)) =
              bump_likes postId (-1) (rows (posts d))).
  { intros d Hd. destruct (unlikePost_effect postId userId d) as [PL P].
    rewrite PL, P. cbn [rows]. split; [|reflexivity].
    now apply filter_negb_none. }
  assert (Hmany : forall m d, like_rows postId userId d = [] ->
            rows (postLikes (run (unlike_times m postId userId) d)) = rows (postLikes d) /\
            rows (posts (run (unlike_times m postId userId) d)) =
              bump_likes postId (- Z.of_nat m) (rows (posts d))).
  { induction m as [|m IH]; intros d Hd.
    - cbn [unlike_times]. rewrite run_ret. cbn. now rewrite bump_likes_0.
    - cbn [unlike_times]. rewrite run_bind.
      destruct (Hone d Hd) as [PL P].
      destruct (IH (run (unlikePost postId userId) d)) as [PLm Pm].
      { unfold like_rows. rewrite PL. exact Hd. }
      rewrite PLm, Pm, PL, P, bump_likes_bump. split; [reflexivity|].
      f_equal. lia. }
  destruct (Hone db Hnone) as [PL1 P1]. destruct (Hmany n db Hnone) as [PLn Pn].
  assert (Hn : stored_likes postId (run (unlike_times n postId userId) db) =
               map (fun k => k - Z.of_nat n) (stored_likes postId db)).
  { unfold stored_likes. rewrite Pn, stored_likes_bump. apply map_ext.
    intros k. lia. }
  repeat split; try assumption.
  - unfold stored_likes. rewrite P1, stored_likes_bump. apply map_ext.
    intros k. lia.
  - apply Forall_forall. intros k Hk Hlt. exists (k - Z.of_nat n). split.
    + rewrite Hn. exact (in_map (fun k => k - Z.of_nat n) _ _ Hk).
    + lia.
Qed.

(** ** Cascading deletion of a user *)

(** C5. After [deleteUser id] no Answer, Question, Vote, Notification,
    PostLike, PostComment or Post row references [id] as its author or user
    (nor does an Answer remain on a Question of that user, nor the User row
    itself), and the deletions reach the store in the stated order: answers
    to the user's questions (issued when the user has questions), the user's
    answers, the user's questions, votes, notifications, post likes, post
    comments, posts, and the user row last. *)
Theorem deleteUser_cascade (id : Z) (db : DB) :
  let db' := run (deleteUser id) db in
  let questionIds :=
    map q_id (filter (fun q => q_authorId q =? id) (rows (questions db))) in
  Forall (fun a => a_authorId a <> id /\ ~ In (a_questionId a) questionIds)
    (rows (answers db')) /\
  Forall (fun q => q_authorId q <> id) (rows (questions db')) /\
  Forall (fun v => v_userId v <> id) (rows (votes db')) /\
  Forall (fun n => n_userId n <> id) (rows (notifications db')) /\
  Forall (fun l => pl_userId l <> id) (rows (postLikes db')) /\
  Forall (fun c => pc_authorId c <> id) (rows (postComments db')) /\
  Forall (fun p => p_authorId p <> id) (rows (posts db')) /\
  Forall (fun u => u_id u <> id) (rows (users db')) /\
  stmts db' =
    stmts db ++
    OnQuestions SELECT [Q_authorId_eq id] ::
    match questionIds with
    | [] => []
    | _ :: _ => [OnAnswers DELETE [A_questionId_in questionIds]]
    end ++
    [ OnAnswers DELETE [A_authorId_eq id];
      OnQuestions DELETE [Q_authorId_eq id];
      OnVotes DELETE [V_userId_eq id];
      OnNotifications DELETE [N_userId_eq id];
      OnPostLikes DELETE [PL_userId_eq id];
      OnPostComments DELETE [PC_authorId_eq id];
      OnPosts DELETE [P_authorId_eq id];
      OnUsers DELETE [U_id_eq id] ].
Proof.
  intros db' questionIds. subst db'.
  assert (Eq : map q_id (filter (matches questionsT db [Q_authorId_eq id])
                           (rows (questions db))) = questionIds).
  { unfold questionIds. f_equal. apply filter_ext. intros q. cbn.
    apply andb_true_r. }
  unfold deleteUser, run, bind, select, delete, ret. cbn.
  rewrite Eq. clearbody questionIds. clear Eq.
  destruct questionIds as [|q0 qs]; cbn;
    (split;
     [ apply Forall_forall; intros x Hx;
       repeat (apply filter_In in Hx; destruct Hx as [Hx ?]);
       repeat match goal with
              | H : negb _ = true |- _ => apply negb_true_iff in H
              | H : (_ && true) = false |- _ => rewrite andb_true_r in H
              end;
       split; [ apply Z.eqb_neq; assumption | ]
     | repeat match goal with
              | |- _ /\ _ => split
              | |- Forall _ (filter (fun _ => negb _) _) =>
                  apply Forall_filter_negb; intros x Hx;
                  rewrite andb_true_r in Hx; apply Z.eqb_neq; assumption
              end;
       rewrite <- !app_assoc; reflexivity ]).
  - intros [].
  - intros Hin. apply (proj2 (mem_Z_In _ (q0 :: qs))) in Hin.
    unfold mem_Z in Hin. cbn in Hin. congruence.
Qed.

(** [deleteUser] rewrites no Answer and no Question: the rows it leaves
    carry the [votes] they had. *)
Lemma deleteUser_keeps_stored_votes (id : Z) (db : DB) :
  let db' := run (deleteUser id) db in
  (forall a, In a (rows (answers db')) -> In a (rows (answers db))) /\
  (forall q, In q (rows (questions db')) -> In q (rows (questions db))) /\
  rows (votes db') = filter (fun v => negb (v_userId v =? id)) (rows (votes db)).
Proof.
  cbv zeta. unfold deleteUser, run, bind, select, delete, ret. cbn.
  destruct (map q_id _); cbn; (split; [|split]);
    try (intros x Hx; repeat (apply filter_In in Hx; destruct Hx as [Hx _]);
         exact Hx);
    apply filter_ext; intros v; now rewrite andb_true_r.
Qed.

(** C3. The deletion of Vote rows inside [deleteUser] is a vote mutation
    after which the target's stored [votes] is not the recount.  On the
    sample store answer 11 stores 1, in step with the one up-vote it has, by
    user 4; [deleteUser 4] deletes that Vote row and leaves answer 11 with a
    stored tally of 1 while no Vote row is left, so up-votes minus down-votes
    is 0. *)
Theorem deleteUser_leaves_tally_stale :
  let db' := run (deleteUser 4) sample_db in
  rows (votes sample_db) = [mkVote 1 4 None (Some 11) "up" 120] /\
  tally_in_sync (OnAnswer 11) sample_db /\
  rows (votes db') = [] /\
  stored_tally (OnAnswer 11) db' = [1] /\
  net_votes (OnAnswer 11) (rows (votes db')) = 0 /\
  ~ tally_in_sync (OnAnswer 11) db'.
Proof.
  cbv zeta. split; [reflexivity|]. split.
  { unfold tally_in_sync. vm_compute. repeat constructor. }
  split; [reflexivity|]. split; [reflexivity|]. split; [reflexivity|].
  unfold tally_in_sync. intros H. vm_compute in H.
  inversion H as [|? ? H1 _]. discriminate H1.
Qed.

(** ** Listing questions *)

Lemma In_firstn {A} (n : nat) (l : list A) (x : A) :
  In x (firstn n l) -> In x l.
Proof.
  intros H. rewrite <- (firstn_skipn n l). apply in_or_app. now left.
Qed.

Lemma In_skipn {A} (n : nat) (l : list A) (x : A) :
  In x (skipn n l) -> In x l.
Proof.
  intros H. rewrite <- (firstn_skipn n l). apply in_or_app. now right.
Qed.

Lemma In_insert_by {A} (le : A -> A -> bool) (x y : A) (l : list A) :
  In y (insert_by le x l) <-> y = x \/ In y l.
Proof.
  induction l as [|z l IH]; cbn.
  - intuition congruence.
  - destruct (le x z); cbn; [intuition congruence|].
    rewrite IH. intuition congruence.
Qed.

Lemma In_order_by {A} (le : A -> A -> bool) (l : list A) (y : A) :
  In y (order_by le l) <-> In y l.
Proof.
  unfold order_by. induction l as [|x l IH]; cbn; [reflexivity|].
  rewrite In_insert_by, IH. intuition congruence.
Qed.

Lemma In_leftJoin_users {R} (key : R -> Z) (us : list User) (rs : list R)
    (j : R * option User) :
  In j (leftJoin_users key us rs) -> In (fst j) rs.
Proof.
  unfold leftJoin_users. rewrite in_flat_map. intros (r & Hr & Hj).
  destruct (filter (fun u => u_id u =? key r) us) as [|u0 us'].
  - destruct Hj as [<- | []]. exact Hr.
  - apply in_map_iff in Hj. destruct Hj as (u & <- & _). exact Hr.
Qed.

Lemma In_select_leftJoin_users {R C} (T : Table R C) (key : R -> Z)
    (le : R -> R -> bool) (w : list C) (db : DB) (j : R * option User) :
  In j (result (select_leftJoin_users T key le w) db) ->
  In (fst j) (rows (tbl T db)) /\ matches T db w (fst j) = true.
Proof.
  unfold select_leftJoin_users, result. cbn [fst].
  rewrite In_order_by. intros H. apply In_leftJoin_users in H.
  now apply filter_In in H.
Qed.

Lemma find_bump_none (k k0 : Z) (g : list (Z * Z)) :
  k <> k0 ->
  find (fun ac => fst ac =? k0) g = None ->
  find (fun ac => fst ac =? k0) (bump k g) = None.
Proof.
  intros Hk. induction g as [|[k' n] g IH]; cbn.
  - intros _. apply Z.eqb_neq in Hk. now rewrite Hk.
  - destruct (k' =? k0) eqn:E0; [discriminate|]. intros H.
    destruct (k' =? k); cbn; rewrite E0; [assumption | now apply IH].
Qed.

Lemma find_group_count_none (k0 : Z) (ks : list Z) :
  ~ In k0 ks ->
  find (fun ac => fst ac =? k0) (group_count ks) = None.
Proof.
  unfold group_count.
  assert (H : forall g, find (fun ac => fst ac =? k0) g = None ->
                        ~ In k0 ks ->
                        find (fun ac => fst ac =? k0)
                          (fold_left (fun g k => bump k g) ks g) = None).
  { induction ks as [|k ks IH]; cbn; intros g Hg Hin; [assumption|].
    apply IH; [|tauto]. apply find_bump_none; [|assumption].
    intros ->. apply Hin. now left. }
  now apply H.
Qed.

(** C7. Every Question that [getQuestions] returns under
    [filter = "unanswered"] carries an answer count of zero, and no Answer
    row of the store references its id. *)
Theorem unanswered_filter_correct (trim : string -> string)
    (array_in : string -> option (list string))
    (options : QuestionsOptions) (db : DB) (q : QuestionWithAuthor) :
  o_filter options = Some unanswered ->
  In q (result (getQuestions trim array_in options) db) ->
  qwa_count_answers q = 0 /\
  Forall (fun a => a_questionId a <> q_id (qwa_row q)) (rows (answers db)).
Proof.
  intros Hf Hq. unfold getQuestions in Hq. rewrite Hf in Hq.
  cbn [is_unanswered] in Hq.
  destruct (tags_condition array_in (o_tags options)) as [tagCondition|];
    [|contradiction].
  rewrite !result_bind, result_ret in Hq.
  apply in_map_iff in Hq. destruct Hq as (j & <- & Hj).
  apply In_firstn, In_skipn, In_select_leftJoin_users in Hj.
  destruct Hj as [_ Hm]. cbn [qwa_row qwa_count_answers].
  unfold matches in Hm. rewrite !forallb_app in Hm.
  apply andb_true_iff in Hm. destruct Hm as [_ Hm].
  apply andb_true_iff in Hm. destruct Hm as [_ Hm].
  cbn in Hm. rewrite andb_true_r in Hm. apply negb_true_iff in Hm.
  assert (Hnone : Forall (fun a => a_questionId a <> q_id (fst j))
                    (rows (answers db))).
  { apply Forall_forall. intros a Ha E.
    assert (Hex : existsb (fun a => a_questionId a =? q_id (fst j))
                    (rows (answers db)) = true).
    { apply existsb_exists. exists a. split; [assumption|]. now apply Z.eqb_eq. }
    congruence. }
  split; [|exact Hnone].
  match goal with
  | |- match find _ ?counts with _ => _ end = 0 =>
      assert (Hc : find (fun ac => fst ac =? q_id (fst j)) counts = None)
  end.
  { match goal with
    | |- context [match ?ids with [] => ret [] | _ :: _ => _ end] =>
        destruct ids
    end.
    - reflexivity.
    - rewrite result_bind, result_ret, result_select.
      apply find_group_count_none. intros Hin.
      apply in_map_iff in Hin. destruct Hin as (a & Ea & Ha).
      apply filter_In in Ha. destruct Ha as [Ha _].
      rewrite Forall_forall in Hnone. exact (Hnone a Ha Ea). }
  now rewrite Hc.
Qed.

(** ** Ordering of answers *)

Section OrderBy.

Variable A : Type.
Variable le : A -> A -> bool.
Hypothesis le_total : forall x y, le x y = false -> le y x = true.
Hypothesis le_trans : forall x y z, le x y = true -> le y z = true -> le x z = true.

Lemma insert_by_sorted (x : A) (l : list A) :
  StronglySorted (fun a b => le a b = true) l ->
  StronglySorted (fun a b => le a b = true) (insert_by le x l).
Proof.
  induction 1 as [|y l Hs IH Hy]; cbn.
  - constructor; constructor.
  - destruct (le x y) eqn:E.
    + constructor; [now constructor|]. constructor; [assumption|].
      apply Forall_forall. intros z Hz. rewrite Forall_forall in Hy.
      eapply le_trans; eauto.
    + constructor; [assumption|]. apply Forall_forall. intros z Hz.
      apply In_insert_by in Hz. destruct Hz as [-> | Hz].
      * now apply le_total.
      * rewrite Forall_forall in Hy. now apply Hy.
Qed.

Lemma order_by_sorted (l : list A) :
  StronglySorted (fun a b => le a b = true) (order_by le l).
Proof.
  unfold order_by. induction l as [|x l IH]; cbn; [constructor|].
  now apply insert_by_sorted.
Qed.

End OrderBy.

Lemma StronglySorted_map {A B} (f : A -> B) (R : B -> B -> Prop) (l : list A) :
  StronglySorted (fun x y => R (f x) (f y)) l -> StronglySorted R (map f l).
Proof.
  induction 1 as [|x l Hs IH Hx]; cbn; constructor; [assumption|].
  apply Forall_forall. intros y Hy. apply in_map_iff in Hy.
  destruct Hy as (z & <- & Hz). rewrite Forall_forall in Hx. now apply Hx.
Qed.

Lemma accepted_votes_oldest_total (x y : Answer) :
  accepted_votes_oldest x y = false -> accepted_votes_oldest y x = true.
Proof.
  unfold accepted_votes_oldest.
  destruct (a_isAccepted x), (a_isAccepted y); cbn; try congruence;
    destruct (Z.eqb_spec (a_votes x) (a_votes y)),
             (Z.eqb_spec (a_votes y) (a_votes x)); try lia;
    rewrite ?Z.leb_le, ?Z.ltb_lt, ?Z.leb_gt, ?Z.ltb_ge; lia.
Qed.

Lemma accepted_votes_oldest_trans (x y z : Answer) :
  accepted_votes_oldest x y = true -> accepted_votes_oldest y z = true ->
  accepted_votes_oldest x z = true.
Proof.
  unfold accepted_votes_oldest.
  destruct (a_isAccepted x), (a_isAccepted y), (a_isAccepted z); cbn;
    try congruence;
    destruct (Z.eqb_spec (a_votes x) (a_votes y)),
             (Z.eqb_spec (a_votes y) (a_votes z)),
             (Z.eqb_spec (a_votes x) (a_votes z));
    rewrite ?Z.leb_le, ?Z.ltb_lt; lia.
Qed.

(** The answers route orders as the contract asks. *)
Lemma getAnswersByQuestionId_ordered (questionId : Z) (db : DB) :
  StronglySorted
    (fun x y => accepted_votes_oldest (awa_row x) (awa_row y) = true)
    (result (getAnswersByQuestionId questionId) db).
Proof.
  unfold getAnswersByQuestionId. rewrite result_bind, result_ret.
  apply StronglySorted_map. cbn [awa_row with_author].
  unfold select_leftJoin_users, result. cbn [fst].
  apply (order_by_sorted (fun x y : Answer * option User =>
                            accepted_votes_oldest (fst x) (fst y))).
  - intros x y. apply accepted_votes_oldest_total.
  - intros x y z. apply accepted_votes_oldest_trans.
Qed.

(** [getQuestion] orders the answers it nests newest first. *)
Lemma getQuestion_answers_newest_first (id : Z) (db : DB) (q : QuestionWithAuthor) :
  result (getQuestion id) db = Some q ->
  StronglySorted
    (fun x y => a_createdAt (awa_row y) <= a_createdAt (awa_row x))
    (qwa_answers q).
Proof.
  unfold getQuestion. rewrite result_bind.
  destruct (result (select_leftJoin_users questionsT q_authorId _ [Q_id_eq id]) db)
    as [|question rest]; [discriminate|].
  rewrite result_bind, result_ret. intros [= <-]. cbn [qwa_answers].
  apply StronglySorted_map. cbn [awa_row with_author].
  unfold select_leftJoin_users, result. cbn [fst].
  match goal with
  | |- StronglySorted _ (order_by ?f ?l) =>
      pose proof (order_by_sorted f) as Hs
  end.
  cbn beta in Hs. unfold newest_first in Hs.
  eapply StronglySorted_ind with (P := fun l => StronglySorted _ l);
    [constructor | | apply Hs].
  - intros a l _ IH Ha. constructor; [exact IH|].
    eapply Forall_impl; [|exact Ha]. cbn. intros b Hb. now apply Z.leb_le.
  - intros x y Hxy. apply Z.leb_gt in Hxy. apply Z.leb_le. lia.
  - intros x y z Hxy Hyz. apply Z.leb_le in Hxy, Hyz. apply Z.leb_le. lia.
Qed.

(** C4. [getQuestion] does not order its answers accepted first: on the
    sample store, question 2 has the accepted answer 10, answer 11 with one
    vote and answer 13 with none, created in that order; [getQuestion 2]
    lists them newest first, 13, 11, 10, with the accepted answer last,
    while [getAnswersByQuestionId 2] lists 10, 11, 13. *)
Theorem getQuestion_answers_not_accepted_first :
  option_map (fun q => map (fun a => a_id (awa_row a)) (qwa_answers q))
    (result (getQuestion 2) sample_db) = Some [13; 11; 10] /\
  map (fun a => a_id (awa_row a)) (result (getAnswersByQuestionId 2) sample_db)
    = [10; 11; 13] /\
  ~ StronglySorted
      (fun x y => accepted_votes_oldest (awa_row x) (awa_row y) = true)
      (match result (getQuestion 2) sample_db with
       | Some q => qwa_answers q
       | None => []
       end).
Proof.
  split; [reflexivity|]. split; [reflexivity|].
  intros H. vm_compute in H.
  inversion H as [|? ? _ Hall]. inversion Hall as [|? ? Hle _].
  discriminate Hle.
Qed.

(** ** Accepting an answer *)

Lemma acceptAnswer_effect (questionId answerId : Z) (db : DB) :
  let db' := run (acceptAnswer questionId answerId) db in
  rows (answers db') =
    map (fun a => if a_id a =? answerId then set_isAccepted true a else a)
      (map (fun a => if a_questionId a =? questionId
                     then set_isAccepted false a else a)
         (rows (answers db))) /\
  rows (questions db') =
    map (fun q => if q_id q =? questionId
                  then set_acceptedAnswerId (Some answerId) q else q)
      (rows (questions db)) /\
  notifications db' = notifications db.
Proof.
  unfold acceptAnswer, run, bind, update, ret. cbn. repeat split.
  - rewrite !map_map. apply map_ext. intros a. now rewrite !andb_true_r.
  - apply map_ext. intros q. now rewrite andb_true_r.
Qed.

Lemma accepted_after_accept (questionId answerId : Z) (l : list Answer) :
  (forall x, In x l -> a_id x = answerId -> a_questionId x = questionId) ->
  filter (fun a => (a_questionId a =? questionId) && a_isAccepted a)
    (map (fun a => if a_id a =? answerId then set_isAccepted true a else a)
       (map (fun a => if a_questionId a =? questionId
                      then set_isAccepted false a else a) l)) =
  map (set_isAccepted true) (filter (fun x => a_id x =? answerId) l).
Proof.
  induction l as [|x l IH]; intros Hown; [reflexivity|].
  cbn [map filter]. rewrite IH by (intros y Hy; apply Hown; now right).
  destruct (a_id x =? answerId) eqn:E.
  - apply Z.eqb_eq in E.
    pose proof (Hown x (or_introl eq_refl) E) as Hxq.
    apply Z.eqb_eq in Hxq. apply Z.eqb_eq in E. rewrite Hxq. cbn.
    rewrite E. cbn. rewrite Hxq. reflexivity.
  - destruct (a_questionId x =? questionId) eqn:Eq; cbn; rewrite ?E, ?Eq;
      cbn; rewrite ?Eq; reflexivity.
Qed.

(** When the id names an Answer of the Question, the transition is the
    intended one: that Answer is the only accepted Answer of the Question
    and the Question points to it. *)
Lemma acceptAnswer_own_answer (db : DB) (questionId answerId : Z) (a : Answer) :
  NoDup (map a_id (rows (answers db))) ->
  In a (rows (answers db)) ->
  a_id a = answerId -> a_questionId a = questionId ->
  let db' := run (acceptAnswer questionId answerId) db in
  accepted_answers questionId db' = [set_isAccepted true a] /\
  Forall (fun p => p = Some answerId) (accepted_pointer questionId db').
Proof.
  intros Hnd Hin Hid Hq. cbv zeta.
  destruct (acceptAnswer_effect questionId answerId db) as (HA & HQ & _).
  unfold accepted_answers, accepted_pointer. rewrite HA, HQ. clear HA HQ.
  split.
  - rewrite accepted_after_accept.
    + subst answerId. now rewrite (filter_key_unique a_id _ a Hnd Hin).
    + intros x Hx Hxid.
      assert (E : [x] = [a]).
      { rewrite <- (filter_key_unique a_id _ x Hnd Hx).
        replace (a_id x) with (a_id a) by congruence.
        now apply filter_key_unique. }
      injection E as ->. exact Hq.
  - apply Forall_forall. intros p Hp.
    apply in_map_iff in Hp. destruct Hp as (q & <- & Hqin).
    apply filter_In in Hqin. destruct Hqin as [Hqin Hqid].
    apply in_map_iff in Hqin. destruct Hqin as (q0 & <- & _).
    destruct (q_id q0 =? questionId) eqn:E; [reflexivity|].
    cbn in Hqid. congruence.
Qed.

(** C1. [acceptAnswer] does not keep the accepted answer exclusive when the
    id names an Answer of another Question.  On the sample store, question 2
    has the accepted answer 10; the author of question 1 accepts answer 11,
    an Answer of question 2, for question 1.  The route replies 200;
    afterwards question 2 has two accepted Answers, 10 and 11, and question 1
    points to answer 11 although none of its own Answers is accepted. *)
Theorem acceptAnswer_of_another_question :
  let db' := run (acceptAnswer 1 11) sample_db in
  map a_id (accepted_answers 2 sample_db) = [10] /\
  answer_of 1 11 sample_db = None /\
  map a_id (accepted_answers 2 db') = [10; 11] /\
  accepted_answers 1 db' = [] /\
  accepted_pointer 1 db' = [Some 11] /\
  result (post_answers_accept (Some 1) 1 11 200) sample_db =
    mkResponse 200 (Message "Answer accepted successfully") /\
  rows (answers (run (post_answers_accept (Some 1) 1 11 200) sample_db)) =
    rows (answers db').
Proof. repeat split. Qed.

(** ** Votes without a target *)

(** C6. A vote request with neither [questionId] nor [answerId] is not
    rejected, and statements reach the store.  On the sample store: for
    user 1, who holds no vote, the route looks up the votes of the user,
    inserts a Vote row without target and replies 200; for user 4, who has
    up-voted answer 11, the same request finds that vote, deletes it and
    recounts answer 11 from 1 to 0. *)
Theorem vote_without_target_not_rejected :
  let body := mkVoteBody None None "up" in
  let r1 := post_votes (Some 1) body 200 sample_db in
  let r4 := post_votes (Some 4) body 200 sample_db in
  fst r1 = mkResponse 200 (VoteJson (mkVote 2 1 None None "up" 200)) /\
  rows (votes (snd r1)) =
    [mkVote 1 4 None (Some 11) "up" 120; mkVote 2 1 None None "up" 200] /\
  stmts (snd r1) = [OnVotes SELECT [V_userId_eq 1]; OnVotes INSERT []] /\
  fst r4 = mkResponse 200 (Message "Vote removed") /\
  rows (votes (snd r4)) = [] /\
  stored_tally (OnAnswer 11) sample_db = [1] /\
  stored_tally (OnAnswer 11) (snd r4) = [0] /\
  hd_error (stmts (snd r4)) = Some (OnVotes SELECT [V_userId_eq 4]).
Proof. repeat split. Qed.

Lemma extends_refl (db : DB) : extends db db.
Proof. exists []. now rewrite app_nil_r. Qed.

Lemma extends_trans (db1 db2 db3 : DB) :
  extends db1 db2 -> extends db2 db3 -> extends db1 db3.
Proof.
  intros [s1 H1] [s2 H2]. exists (s1 ++ s2). now rewrite H2, H1, app_assoc.
Qed.

Lemma extends_issue (s : Stmt) (db db' : DB) :
  stmts db' = stmts db ++ [s] -> extends db db'.
Proof. intros H. now exists [s]. Qed.

Lemma updateVoteCount_extends (q a : option Z) (t : string) (db : DB) :
  extends db (run (updateVoteCount q a t) db).
Proof.
  unfold updateVoteCount, run, bind, select, update, ret, extends.
  destruct (truthy q), (truthy a); cbn; rewrite <- ?app_assoc;
    eexists; try reflexivity.
  now rewrite app_nil_r.
Qed.

Lemma createVote_extends (vote : InsertVote) (now : Z) (db : DB) :
  extends db (run (createVote vote now) db).
Proof.
  unfold createVote. rewrite !run_bind, run_ret.
  eapply extends_trans; [|apply updateVoteCount_extends].
  now apply extends_issue with (s := OnVotes INSERT []).
Qed.

Lemma deleteVote_extends (id : Z) (db : DB) :
  extends db (run (deleteVote id) db).
Proof.
  unfold deleteVote. rewrite !run_bind.
  apply extends_trans with (run (select votesT [V_id_eq id]) db);
    [now apply extends_issue with (s := OnVotes SELECT [V_id_eq id])|].
  apply extends_trans
    with (run (delete votesT [V_id_eq id]) (run (select votesT [V_id_eq id]) db));
    [now apply extends_issue with (s := OnVotes DELETE [V_id_eq id])|].
  destruct (result (select votesT [V_id_eq id]) db);
    [apply extends_refl | apply updateVoteCount_extends].
Qed.

Lemma updateVote_extends (id : Z) (t : string) (db : DB) :
  extends db (run (updateVote id t) db).
Proof.
  unfold updateVote. rewrite !run_bind.
  apply extends_trans with (run (update votesT (set_voteType t) [V_id_eq id]) db);
    [now apply extends_issue with (s := OnVotes UPDATE [V_id_eq id])|].
  destruct (result (update votesT (set_voteType t) [V_id_eq id]) db).
  - apply extends_refl.
  - rewrite run_bind, run_ret. apply updateVoteCount_extends.
Qed.

(** Whatever the store, a request without target first reaches the store
    with a lookup of the user's votes; no validation precedes it. *)
Lemma vote_without_target_reaches_store (db : DB) (u : Z) (vt : string)
    (now : Z) :
  exists rest,
    stmts (run (post_votes (Some u) (mkVoteBody None None vt) now) db) =
    stmts db ++ OnVotes SELECT [V_userId_eq u] :: rest.
Proof.
  pose proof (post_votes_cases u (mkVoteBody None None vt) now db) as C.
  cbv zeta in C. cbn [b_questionId b_answerId b_voteType] in C.
  set (db0 := run (getVote u None None) db) in *.
  assert (H0 : stmts db0 = stmts db ++ [OnVotes SELECT [V_userId_eq u]])
    by reflexivity.
  assert (E : extends db0 (run (post_votes (Some u) (mkVoteBody None None vt) now) db)).
  { destruct (result (getVote u None None) db) as [ev|].
    - destruct (String.eqb (v_voteType ev) vt).
      + destruct C as [-> _]. apply deleteVote_extends.
      + destruct C as [-> _]. apply updateVote_extends.
    - destruct (insertVoteSchema_parse u (truthy None) (truthy None) vt);
        destruct C as [-> _]; [apply createVote_extends | apply extends_refl]. }
  destruct E as [ss E]. exists ss. rewrite E, H0, <- app_assoc. reflexivity.
Qed.

(** Nor is it answered with the invalid-input signal when the vote type is
    one of the two enum strings. *)
Lemma vote_without_target_not_invalid (db : DB) (u : Z) (vt : string)
    (now : Z) :
  is_voteType vt = true ->
  status (result (post_votes (Some u) (mkVoteBody None None vt) now) db) <> 400.
Proof.
  intros Hvt.
  pose proof (post_votes_cases u (mkVoteBody None None vt) now db) as C.
  cbv zeta in C. cbn [b_questionId b_answerId b_voteType] in C.
  destruct (result (getVote u None None) db) as [ev|].
  - destruct (String.eqb (v_voteType ev) vt).
    + destruct C as [_ ->]. discriminate.
    + destruct C as [_ ->].
      destruct (result (updateVote (v_id ev) vt) _); discriminate.
  - unfold insertVoteSchema_parse in C. rewrite Hvt in C.
    destruct C as [_ ->]. discriminate.
Qed.

(** ** Notifications *)

Lemma order_by_unordered {A} (l : list A) : order_by (fun _ _ => true) l = l.
Proof.
  unfold order_by. induction l as [|x l IH]; cbn; [reflexivity|].
  rewrite IH. now destruct l.
Qed.

Lemma find_hd_filter {A} (p : A -> bool) (l : list A) :
  find p l = hd_error (filter p l).
Proof.
  induction l as [|x l IH]; cbn; [reflexivity|]. now destruct (p x).
Qed.

Lemma leftJoin_users_head {R} (key : R -> Z) (us : list User) (rs : list R) :
  option_map fst (hd_error (leftJoin_users key us rs)) = hd_error rs.
Proof.
  destruct rs as [|r rs]; cbn; [reflexivity|].
  now destruct (filter (fun u => u_id u =? key r) us).
Qed.

Lemma leftJoin_users_covers {R} (key : R -> Z) (us : list User) (rs : list R) (r : R) :
  In r rs -> exists j, In j (leftJoin_users key us rs) /\ fst j = r.
Proof.
  intros Hr. unfold leftJoin_users.
  destruct (filter (fun u => u_id u =? key r) us) as [|u0 us'] eqn:E.
  - exists (r, None). split; [|reflexivity]. apply in_flat_map. exists r.
    split; [assumption|]. rewrite E. now left.
  - exists (r, Some u0). split; [|reflexivity]. apply in_flat_map. exists r.
    split; [assumption|]. rewrite E. now left.
Qed.

Lemma find_map {A B} (f : A -> B) (p : B -> bool) (l : list A) :
  find p (map f l) = option_map f (find (fun x => p (f x)) l).
Proof.
  induction l as [|x l IH]; cbn; [reflexivity|]. now destruct (p (f x)).
Qed.

Lemma find_unique {A B} (f : A -> B) (p : A -> bool) (l : list A) (v : B) :
  (forall x, In x l -> p x = true -> f x = v) ->
  (exists x, In x l /\ p x = true) ->
  option_map f (find p l) = Some v.
Proof.
  intros Hall [x [Hx Hp]].
  destruct (find p l) as [y|] eqn:E.
  - apply find_some in E. destruct E as [Hy Hpy]. cbn. f_equal.
    now apply Hall.
  - pose proof (find_none _ _ E x Hx). congruence.
Qed.

Lemma find_absent {A} (p : A -> bool) (l : list A) :
  (forall x, In x l -> p x = false) -> find p l = None.
Proof.
  intros H. destruct (find p l) as [y|] eqn:E; [|reflexivity].
  apply find_some in E. destruct E as [Hy Hpy]. rewrite (H y Hy) in Hpy.
  discriminate.
Qed.

Lemma getQuestion_effect (id : Z) (db : DB) :
  let db' := run (getQuestion id) db in
  questions db' = questions db /\ answers db' = answers db /\
  notifications db' = notifications db /\
  match question_row id db with
  | Some r =>
      exists q, result (getQuestion id) db = Some q /\
                qwa_row q = r /\ qwa_answers q = nested_answers id db
  | None => result (getQuestion id) db = None
  end.
Proof.
  cbv zeta. unfold getQuestion. rewrite run_bind, result_bind.
  assert (Hhd : option_map fst
                  (hd_error (result (select_leftJoin_users questionsT q_authorId
                                       (fun _ _ => true) [Q_id_eq id]) db)) =
                question_row id db).
  { unfold select_leftJoin_users, result. cbn [fst].
    rewrite order_by_unordered, leftJoin_users_head.
    unfold question_row. rewrite find_hd_filter. f_equal.
    apply filter_ext. intros q. cbn. apply andb_true_r. }
  destruct (result (select_leftJoin_users questionsT q_authorId
                      (fun _ _ => true) [Q_id_eq id]) db) as [|question rest].
  - cbn in Hhd. rewrite <- Hhd. rewrite run_ret, result_ret. repeat split.
  - cbn in Hhd. rewrite <- Hhd. rewrite run_bind, result_bind, run_ret, result_ret.
    split; [reflexivity|]. split; [reflexivity|]. split; [reflexivity|].
    eexists. split; [reflexivity|]. split; [reflexivity|].
    cbn [qwa_answers]. unfold nested_answers, select_leftJoin_users, result, run.
    cbn [fst snd issue users answers tbl answersT]. do 3 f_equal.
    apply filter_ext. intros a. cbn. apply andb_true_r.
Qed.

Lemma key_unique {A} (key : A -> Z) (l : list A) (x y : A) :
  NoDup (map key l) -> In x l -> In y l -> key x = key y -> x = y.
Proof.
  intros Hnd Hx Hy E.
  assert (H : [x] = [y]).
  { rewrite <- (filter_key_unique key l x Hnd Hx). rewrite E.
    now apply filter_key_unique. }
  now injection H.
Qed.

Lemma nested_answers_find (id answerId : Z) (db : DB) :
  NoDup (map a_id (rows (answers db))) ->
  option_map awa_row
    (find (fun a => a_id (awa_row a) =? answerId) (nested_answers id db)) =
  answer_of id answerId db.
Proof.
  intros Hnd. unfold nested_answers. rewrite find_map.
  cbn [awa_row with_author].
  set (L := order_by _ _).
  assert (HL : forall j, In j L ->
                 In (fst j) (rows (answers db)) /\ a_questionId (fst j) = id).
  { intros j Hj. apply In_order_by, In_leftJoin_users, filter_In in Hj.
    destruct Hj as [Hj Hq]. split; [assumption | now apply Z.eqb_eq]. }
  transitivity
    (option_map fst (find (fun j : Answer * option User => a_id (fst j) =? answerId) L)).
  { now destruct (find _ L). }
  unfold answer_of.
  destruct (find (fun a => (a_questionId a =? id) && (a_id a =? answerId))
              (rows (answers db))) as [a|] eqn:Ea.
  - apply find_some in Ea. destruct Ea as [Ha Hp].
    apply andb_true_iff in Hp. destruct Hp as [Hq Hid].
    apply find_unique.
    + intros j Hj Hjid. destruct (HL j Hj) as [Hjin _].
      apply (key_unique a_id (rows (answers db))); try assumption.
      apply Z.eqb_eq in Hjid, Hid. congruence.
    + destruct (leftJoin_users_covers a_authorId (rows (users db))
                  (filter (fun a => a_questionId a =? id) (rows (answers db))) a)
        as (j & Hj & Hfst).
      { apply filter_In. now split. }
      exists j. split; [now apply In_order_by | now rewrite Hfst].
  - rewrite find_absent; [reflexivity|].
    intros j Hj. destruct (HL j Hj) as [Hjin Hjq].
    pose proof (find_none _ _ Ea (fst j) Hjin) as Hn. cbn in Hn.
    apply Z.eqb_eq in Hjq. now rewrite Hjq in Hn.
Qed.

Lemma createAnswer_effect (answer : InsertAnswer) (now : Z) (db : DB) :
  let db' := run (createAnswer answer now) db in
  result (createAnswer answer now) db =
    mkAnswer (next_id (answers db)) (ia_content answer) (ia_questionId answer)
      (ia_authorId answer) 0 false now /\
  questions db' = questions db /\ notifications db' = notifications db.
Proof. repeat split. Qed.

Lemma createNotification_effect (n : InsertNotification) (now : Z) (db : DB) :
  rows (notifications (run (createNotification n now) db)) =
  rows (notifications db) ++
  [ mkNotification (next_id (notifications db)) (in_userId n) (in_type n)
      (in_title n) (in_message n) (in_questionId n) (in_answerId n) false now ].
Proof. reflexivity. Qed.

Lemma updateVote_notifications (id : Z) (vt : string) (db : DB) :
  notifications (run (updateVote id vt) db) = notifications db.
Proof.
  unfold updateVote. rewrite run_bind.
  destruct (result (update votesT (set_voteType vt) [V_id_eq id]) db).
  - now rewrite run_ret.
  - rewrite run_bind, run_ret.
    match goal with
    | |- context [run (updateVoteCount ?q ?a ?t) ?d] =>
        destruct (updateVoteCount_effect q a t d) as (_ & _ & _ & Hn)
    end.
    now rewrite Hn.
Qed.

Lemma post_votes_notifications (user : option Z) (body : VoteBody) (now : Z)
    (db : DB) :
  notifications (run (post_votes user body now) db) = notifications db.
Proof.
  destruct user as [u|]; [|reflexivity].
  pose proof (post_votes_cases u body now db) as C. cbv zeta in C.
  assert (H0 : notifications
                 (run (getVote u (b_questionId body) (b_answerId body)) db) =
               notifications db).
  { unfold getVote. now rewrite run_bind, run_ret, run_select. }
  destruct (result (getVote u (b_questionId body) (b_answerId body)) db) as [ev|].
  - destruct (String.eqb (v_voteType ev) (b_voteType body)).
    + destruct C as [-> _].
      destruct (deleteVote_effect (v_id ev)
                  (run (getVote u (b_questionId body) (b_answerId body)) db))
        as (_ & Hn & _).
      now rewrite Hn.
    + destruct C as [-> _]. now rewrite updateVote_notifications.
  - destruct (insertVoteSchema_parse _ _ _ _) as [vd|]; destruct C as [-> _];
      [|assumption].
    destruct (createVote_effect vd now
                (run (getVote u (b_questionId body) (b_answerId body)) db))
      as (_ & _ & _ & Hn).
    now rewrite Hn.
Qed.

Lemma post_posts_like_notifications (user : option Z) (postId now : Z) (db : DB) :
  notifications (run (post_posts_like user postId now) db) = notifications db.
Proof.
  destruct user as [u|]; [|reflexivity].
  destruct (post_posts_like_run u postId now db) as [s ->].
  destruct (like_rows postId u db).
  - unfold likePost. rewrite run_bind.
    destruct (result (select postLikesT [PL_postId_eq postId; PL_userId_eq u])
                (issue s db)); reflexivity.
  - reflexivity.
Qed.

(** Notifications are created by the two Question/Answer routes and by
    nothing else modelled here.  Posting an Answer creates one
    notification of type [question_answered] for the Question's author
    exactly when the Question exists and its author is not the answerer.
    Accepting creates one notification of type [answer_accepted] for the
    Answer's author exactly when the request is carried out (the Question
    exists and the user is its author), the id names an Answer of that
    Question, and that Answer's author is not the acceptor.  Voting and
    like-toggling create none. *)
Theorem notifications_created_exactly (db : DB) (user : option Z)
    (questionId answerId postId now : Z) (content : option string)
    (body : VoteBody) :
  NoDup (map a_id (rows (answers db))) ->
  rows (notifications
          (run (post_questions_answers user questionId content now) db)) =
    rows (notifications db) ++
    answered_notification db user questionId content now /\
  rows (notifications
          (run (post_answers_accept user questionId answerId now) db)) =
    rows (notifications db) ++
    accepted_notification db user questionId answerId now /\
  notifications (run (post_votes user body now) db) = notifications db /\
  notifications (run (post_posts_like user postId now) db) = notifications db.
Proof.
  intros Hnd.
  split; [|split; [|split; [apply post_votes_notifications
                           | apply post_posts_like_notifications]]].
  - (* a new Answer *)
    unfold post_questions_answers, answered_notification.
    destruct user as [u|]; [|now rewrite run_ret, app_nil_r].
    destruct content as [c|]; cbn [insertAnswerSchema_parse];
      [|now rewrite run_ret, app_nil_r].
    rewrite !run_bind, run_ret.
    destruct (createAnswer_effect (mkInsertAnswer c questionId u) now db)
      as (Ha & Hq & Hn).
    set (db1 := run (createAnswer _ now) db) in *.
    destruct (getQuestion_effect questionId db1) as (_ & _ & Hn2 & Hres).
    assert (Hrow : question_row questionId db1 = question_row questionId db)
      by (unfold question_row; now rewrite Hq).
    rewrite Hrow in Hres.
    destruct (question_row questionId db) as [r|].
    + destruct Hres as (q & -> & <- & _).
      destruct (q_authorId (qwa_row q) =? u); cbn [negb].
      * now rewrite run_ret, Hn2, Hn, app_nil_r.
      * rewrite run_bind, run_ret, createNotification_effect, Hn2, Hn, Ha.
        reflexivity.
    + rewrite Hres. now rewrite run_ret, Hn2, Hn, app_nil_r.
  - (* an accepted Answer *)
    unfold post_answers_accept, accepted_notification.
    destruct user as [u|]; [|now rewrite run_ret, app_nil_r].
    rewrite run_bind.
    destruct (getQuestion_effect questionId db) as (_ & _ & Hn & Hres).
    destruct (question_row questionId db) as [r|].
    + destruct Hres as (q & -> & <- & Hans).
      destruct (q_authorId (qwa_row q) =? u); cbn [negb];
        [|now rewrite run_ret, Hn, app_nil_r].
      rewrite !run_bind, run_ret.
      destruct (acceptAnswer_effect questionId answerId
                  (run (getQuestion questionId) db)) as (_ & _ & Hn2).
      pose proof (nested_answers_find questionId answerId db Hnd) as Hfind.
      rewrite Hans.
      destruct (find (fun a => a_id (awa_row a) =? answerId)
                  (nested_answers questionId db)) as [answer|];
        cbn [option_map] in Hfind; rewrite <- Hfind.
      * destruct (a_authorId (awa_row answer) =? u); cbn [negb].
        -- now rewrite run_ret, Hn2, Hn, app_nil_r.
        -- rewrite run_bind, run_ret, createNotification_effect, Hn2, Hn.
           reflexivity.
      * now rewrite run_ret, Hn2, Hn, app_nil_r.
    + rewrite Hres. now rewrite run_ret, Hn, app_nil_r.
Qed.

(** ** Instances on the sample store *)



(** Deleting the only vote of the sample store recounts answer 11. *)
Lemma vote_mutation_recounts_target_witness :
  mutated sample_db (Delete_vote 1) (mkVote 1 4 None (Some 11) "up" 120) /\
  tally_in_sync (OnAnswer 11) (run (mutate (Delete_vote 1)) sample_db).
Proof.
  assert (Hm : mutated sample_db (Delete_vote 1)
                 (mkVote 1 4 None (Some 11) "up" 120))
    by (apply mutated_delete; [left; reflexivity | reflexivity]).
  split; [exact Hm|].
  apply (@vote_mutation_recounts_target sample_db (Delete_vote 1)
           (mkVote 1 4 None (Some 11) "up" 120) (OnAnswer 11)).
  - cbn. repeat constructor. intros [].
  - exact Hm.
  - reflexivity.
Defined.

(** Question 3 is the unanswered question of the sample store. *)
Lemma unanswered_filter_correct_witness :
  let options := mkQuestionsOptions None None (Some unanswered) None None in
  let q := mkQuestionWithAuthor (mkQuestion 3 "What is Z?" "z" 3 [] 0 0 None 102)
             (mkAuthor 3 "Cy" "cy") [] 0 in
  In q (result (getQuestions (fun s => s) (fun _ => None) options) sample_db) /\
  qwa_count_answers q = 0 /\
  Forall (fun a => a_questionId a <> q_id (qwa_row q)) (rows (answers sample_db)).
Proof.
  cbv zeta.
  assert (Hin : In (mkQuestionWithAuthor
                      (mkQuestion 3 "What is Z?" "z" 3 [] 0 0 None 102)
                      (mkAuthor 3 "Cy" "cy") [] 0)
                  (result (getQuestions (fun s => s) (fun _ => None)
                             (mkQuestionsOptions None None (Some unanswered) None None))
                     sample_db))
    by (left; reflexivity).
  split; [exact Hin|].
  exact (unanswered_filter_correct (fun s => s) (fun _ => None)
           (mkQuestionsOptions None None (Some unanswered) None None)
           sample_db _ eq_refl Hin).
Defined.

(** C8, as worded, fails where the user already likes the post (user 2
    likes post 1): two toggles unlike and like again, so a PostLike row of the
    pair is left. *)
Lemma like_toggle_not_idempotent :
  ~ like_toggle_idempotent sample_db 2 1 200 201.
Proof. intros [_ H]. vm_compute in H. discriminate H. Qed.

(** User 3 does not like post 2, whose counter is 0: unliking once leaves
    -1, twice -2, and the PostLike rows never change. *)
Lemma unlikePost_without_like_witness :
  like_rows 2 3 sample_db = [] /\
  stored_likes 2 sample_db = [0] /\
  stored_likes 2 (run (unlikePost 2 3) sample_db) = [-1] /\
  stored_likes 2 (run (unlike_times 2 2 3) sample_db) = [-2] /\
  rows (postLikes (run (unlike_times 2 2 3) sample_db)) =
    rows (postLikes sample_db).
Proof.
  destruct (unlikePost_without_like sample_db 2 3 2 eq_refl)
    as (_ & H1 & Hn & H2 & _).
  split; [reflexivity|]. split; [reflexivity|]. split; [exact H1|].
  split; [exact H2 | exact Hn].
Defined.

(** C9. An Answer that is accepted through the route of another Question
    is accepted without a notification.  On the sample store the author of
    question 1 accepts answer 11, which belongs to question 2 and was written
    by user 3: the route replies 200 and answer 11 is marked accepted, its
    author differs from the acceptor, yet the notifications are as they
    were; so the route does not create a notification exactly when it has
    accepted an Answer of another author. *)
Theorem accept_of_another_question_not_notified :
  let db' := run (post_answers_accept (Some 1) 1 11 200) sample_db in
  status (result (post_answers_accept (Some 1) 1 11 200) sample_db) = 200 /\
  In (mkAnswer 11 "Or Y2" 2 3 1 true 111) (rows (answers db')) /\
  rows (notifications db') = rows (notifications sample_db) /\
  ~ notified_iff_accepted sample_db 1 1 11 200.
Proof.
  cbv zeta. split; [reflexivity|].
  assert (Hin : In (mkAnswer 11 "Or Y2" 2 3 1 true 111)
                  (rows (answers (run (post_answers_accept (Some 1) 1 11 200)
                                    sample_db))))
    by (right; left; reflexivity).
  split; [exact Hin|]. split; [reflexivity|].
  intros [_ H].
  assert (R : status (result (post_answers_accept (Some 1) 1 11 200) sample_db)
              = 200 /\
              exists a,
                In a (rows (answers (run (post_answers_accept (Some 1) 1 11 200)
                                       sample_db))) /\
                a_id a = 11 /\ a_isAccepted a = true /\ a_authorId a <> 1).
  { split; [reflexivity|]. exists (mkAnswer 11 "Or Y2" 2 3 1 true 111).
    split; [exact Hin|]. repeat split. discriminate. }
  apply H in R. apply R. reflexivity.
Qed.

(** On the sample store user 2, the author of question 2, answers that
    question (no notification: it is the user's own) and accepts answer 11,
    written by user 3 (one notification, for user 3). *)
Lemma notifications_created_exactly_witness :
  answered_notification sample_db (Some 2) 2 (Some "Do Y4") 200 = [] /\
  map n_userId (accepted_notification sample_db (Some 2) 2 11 200) = [3] /\
  rows (notifications
          (run (post_questions_answers (Some 2) 2 (Some "Do Y4") 200) sample_db)) =
    rows (notifications sample_db) ++
    answered_notification sample_db (Some 2) 2 (Some "Do Y4") 200 /\
  rows (notifications (run (post_answers_accept (Some 2) 2 11 200) sample_db)) =
    rows (notifications sample_db) ++
    accepted_notification sample_db (Some 2) 2 11 200.
Proof.
  assert (Hnd : NoDup (map a_id (rows (answers sample_db)))).
  { cbn. repeat constructor; cbn; intuition discriminate. }
  destruct (notifications_created_exactly sample_db (Some 2) 2 11 1 200
              (Some "Do Y4") (mkVoteBody None None "up") Hnd)
    as (Ha & Hb & _).
  split; [reflexivity|]. split; [reflexivity|]. split; [exact Ha | exact Hb].
Defined.

(** * Further properties *)

(** ** Listings through the users join *)

Lemma In_rows_select_leftJoin_users {R C} (T : Table R C) (key : R -> Z)
    (le : R -> R -> bool) (w : list C) (db : DB) (r : R) :
  In r (map fst (result (select_leftJoin_users T key le w) db)) <->
  In r (filter (matches T db w) (rows (tbl T db))).
Proof.
  split.
  - intros H. apply in_map_iff in H. destruct H as (j & <- & Hj).
    apply In_select_leftJoin_users in Hj. now apply filter_In.
  - intros H.
    destruct (leftJoin_users_covers key (rows (users db)) _ _ H) as (j & Hj & <-).
    apply in_map. unfold select_leftJoin_users, result. cbn [fst].
    now apply In_order_by.
Qed.

Lemma map_awa_row (l : list (Answer * option User)) :
  map awa_row (map with_author l) = map fst l.
Proof. rewrite map_map. now apply map_ext. Qed.

Lemma matches_questionId (db : DB) (questionId : Z) (a : Answer) :
  matches answersT db [A_questionId_eq questionId] a = (a_questionId a =? questionId).
Proof. cbn. apply andb_true_r. Qed.

Lemma In_getAnswersByQuestionId (questionId : Z) (db : DB) (a : Answer) :
  In a (map awa_row (result (getAnswersByQuestionId questionId) db)) <->
  In a (answers_of questionId db).
Proof.
  unfold getAnswersByQuestionId.
  rewrite result_bind, result_ret, map_awa_row, In_rows_select_leftJoin_users.
  unfold answers_of. cbn [tbl answersT].
  now rewrite (filter_ext _ _ (matches_questionId db questionId)).
Qed.

(** X1. [getAnswersByQuestionId] lists the Answer rows of the Question, all
    of them and no other, accepted first, then by votes descending, then
    oldest first. *)
Theorem getAnswersByQuestionId_listing (questionId : Z) (db : DB) :
  let l := result (getAnswersByQuestionId questionId) db in
  StronglySorted
    (fun x y => accepted_votes_oldest (awa_row x) (awa_row y) = true) l /\
  forall a, In a (map awa_row l) <-> In a (answers_of questionId db).
Proof.
  cbv zeta. split; [apply getAnswersByQuestionId_ordered|].
  intros a. apply In_getAnswersByQuestionId.
Qed.

(** X2. The Question that [getQuestion] returns nests the Answer rows of
    that Question, all of them and no other, newest first, and its answer
    count is their number. *)
Theorem getQuestion_nests_answers (id : Z) (db : DB) (q : QuestionWithAuthor) :
  result (getQuestion id) db = Some q ->
  StronglySorted
    (fun x y => a_createdAt (awa_row y) <= a_createdAt (awa_row x))
    (qwa_answers q) /\
  qwa_count_answers q = Z.of_nat (List.length (qwa_answers q)) /\
  q_id (qwa_row q) = id /\
  forall a, In a (map awa_row (qwa_answers q)) <-> In a (answers_of id db).
Proof.
  intros Hq. split; [now apply (getQuestion_answers_newest_first id db)|].
  revert Hq. unfold getQuestion. rewrite result_bind.
  destruct (result (select_leftJoin_users questionsT q_authorId _ [Q_id_eq id]) db)
    as [|question rest] eqn:E; [discriminate|].
  rewrite result_bind, result_ret. intros [= <-].
  cbn [qwa_answers qwa_count_answers qwa_row].
  split; [now rewrite length_map|]. split.
  - assert (Hin : In question
                    (result (select_leftJoin_users questionsT q_authorId
                               (fun _ _ => true) [Q_id_eq id]) db))
      by (rewrite E; now left).
    apply In_select_leftJoin_users in Hin. destruct Hin as [_ Hm].
    cbn in Hm. rewrite andb_true_r in Hm. now apply Z.eqb_eq.
  - intros a. rewrite map_awa_row.
    match goal with
    | |- context [run ?m db] => set (db1 := run m db)
    end.
    rewrite In_rows_select_leftJoin_users. unfold answers_of.
    cbn [tbl answersT].
    now rewrite (filter_ext _ _ (matches_questionId db1 id)).
Qed.

Lemma getQuestion_nests_answers_witness :
  exists q, result (getQuestion 2) sample_db = Some q /\
            map (fun a => a_id (awa_row a)) (qwa_answers q) = [13; 11; 10] /\
            qwa_count_answers q = 3.
Proof.
  eexists. split; [reflexivity|].
  destruct (@getQuestion_nests_answers 2 sample_db _ eq_refl) as (_ & Hc & _).
  split; [reflexivity | exact Hc].
Defined.

(** ** Accepting an answer through the route *)

Lemma notify_keeps_answers (n : InsertNotification) (now : Z) (db : DB) :
  answers (run (createNotification n now ;;; ret tt) db) = answers db /\
  questions (run (createNotification n now ;;; ret tt) db) = questions db.
Proof. now split. Qed.

(** X3. When the author of a Question accepts one of its Answers through the
    route, the reply is 200, that Answer is afterwards the only accepted
    Answer of the Question, and the Question points to it.  Answer ids are
    unique. *)
Theorem accept_route_own_answer (db : DB) (u questionId answerId now : Z)
    (r : Question) (a : Answer) :
  NoDup (map a_id (rows (answers db))) ->
  question_row questionId db = Some r -> q_authorId r = u ->
  In a (rows (answers db)) -> a_id a = answerId -> a_questionId a = questionId ->
  let db' := run (post_answers_accept (Some u) questionId answerId now) db in
  result (post_answers_accept (Some u) questionId answerId now) db =
    mkResponse 200 (Message "Answer accepted successfully") /\
  accepted_answers questionId db' = [set_isAccepted true a] /\
  Forall (fun p => p = Some answerId) (accepted_pointer questionId db').
Proof.
  intros Hnd Hrow Hauth Hin Hid Hq. cbv zeta.
  unfold post_answers_accept. rewrite run_bind, result_bind.
  destruct (getQuestion_effect questionId db) as (Hqs & Has & _ & Hres).
  rewrite Hrow in Hres. destruct Hres as (q & -> & Hqr & _).
  rewrite Hqr, Hauth, Z.eqb_refl. cbn [negb].
  rewrite !run_bind, !result_bind, run_ret, result_ret.
  split; [reflexivity|].
  set (db1 := run (getQuestion questionId) db) in *.
  set (db2 := run (acceptAnswer questionId answerId) db1).
  assert (H2 : accepted_answers questionId db2 = [set_isAccepted true a] /\
               Forall (fun p => p = Some answerId)
                 (accepted_pointer questionId db2)).
  { apply acceptAnswer_own_answer; rewrite ?Has; assumption. }
  match goal with
  | |- context [run ?m db2] =>
      assert (HA : answers (run m db2) = answers db2 /\
                   questions (run m db2) = questions db2)
  end.
  { destruct (find _ (qwa_answers q)) as [answer|]; [|now rewrite run_ret].
    destruct (negb (a_authorId (awa_row answer) =? u));
      [apply notify_keeps_answers | now rewrite run_ret]. }
  destruct HA as [HA HQ].
  unfold accepted_answers, accepted_pointer in *. now rewrite HA, HQ.
Qed.

Lemma accept_route_own_answer_witness :
  let db' := run (post_answers_accept (Some 2) 2 11 200) sample_db in
  result (post_answers_accept (Some 2) 2 11 200) sample_db =
    mkResponse 200 (Message "Answer accepted successfully") /\
  accepted_answers 2 db' = [mkAnswer 11 "Or Y2" 2 3 1 true 111] /\
  Forall (fun p => p = Some 11) (accepted_pointer 2 db').
Proof.
  apply (@accept_route_own_answer sample_db 2 2 11 200
           (mkQuestion 2 "Why Y?" "y" 2 ["y"] 0 0 (Some 10) 101)
           (mkAnswer 11 "Or Y2" 2 3 1 false 111)).
  - repeat constructor; cbn; intuition discriminate.
  - reflexivity.
  - reflexivity.
  - cbn. tauto.
  - reflexivity.
  - reflexivity.
Defined.

(** ** The question list *)

Lemma find_bump (k k0 : Z) (g : list (Z * Z)) :
  match find (fun ac => fst ac =? k0) (bump k g) with
  | Some ac => snd ac
  | None => 0
  end =
  match find (fun ac => fst ac =? k0) g with
  | Some ac => snd ac
  | None => 0
  end + (if k =? k0 then 1 else 0).
Proof.
  induction g as [|[k' n] g IH]; cbn.
  - destruct (k =? k0); reflexivity.
  - destruct (k' =? k) eqn:E; cbn.
    + apply Z.eqb_eq in E. subst k'. destruct (k =? k0); cbn; lia.
    + destruct (k' =? k0) eqn:E0; cbn; [|apply IH].
      destruct (k =? k0) eqn:E1; [|lia].
      apply Z.eqb_eq in E0, E1. apply Z.eqb_neq in E. lia.
Qed.

Lemma find_group_count (k0 : Z) (ks : list Z) :
  match find (fun ac => fst ac =? k0) (group_count ks) with
  | Some ac => snd ac
  | None => 0
  end = Z.of_nat (List.length (filter (fun k => k =? k0) ks)).
Proof.
  unfold group_count.
  assert (H : forall g,
             match find (fun ac => fst ac =? k0)
                     (fold_left (fun g k => bump k g) ks g) with
             | Some ac => snd ac
             | None => 0
             end =
             match find (fun ac => fst ac =? k0) g with
             | Some ac => snd ac
             | None => 0
             end + Z.of_nat (List.length (filter (fun k => k =? k0) ks))).
  { induction ks as [|k ks IH]; cbn; intros g; [lia|].
    rewrite IH, find_bump. destruct (k =? k0); cbn [List.length]; lia. }
  now rewrite H.
Qed.

Lemma count_in_group (ids : list Z) (k0 : Z) (l : list Answer) :
  In k0 ids ->
  List.length
    (filter (fun k => k =? k0)
       (map a_questionId (filter (fun a => mem_Z (a_questionId a) ids) l))) =
  List.length (filter (fun a => a_questionId a =? k0) l).
Proof.
  intros Hin. induction l as [|a l IH]; cbn; [reflexivity|].
  destruct (a_questionId a =? k0) eqn:E.
  - assert (Hm : mem_Z (a_questionId a) ids = true).
    { apply mem_Z_In. apply Z.eqb_eq in E. now rewrite E. }
    rewrite Hm. cbn. rewrite E. cbn. now f_equal.
  - destruct (mem_Z (a_questionId a) ids); cbn; rewrite ?E; exact IH.
Qed.

(** X4. Whatever the options, every Question that [getQuestions] returns
    carries as its answer count the number of Answer rows of the store that
    reference it, and an empty list of answers. *)
Theorem getQuestions_answer_counts (trim : string -> string)
    (array_in : string -> option (list string))
    (options : QuestionsOptions) (db : DB) (q : QuestionWithAuthor) :
  In q (result (getQuestions trim array_in options) db) ->
  qwa_answers q = [] /\
  qwa_count_answers q =
    Z.of_nat (List.length (answers_of (q_id (qwa_row q)) db)).
Proof.
  intros Hq. unfold getQuestions in Hq.
  destruct (tags_condition array_in (o_tags options)) as [tagCondition|];
    [|contradiction].
  rewrite !result_bind, result_ret in Hq.
  apply in_map_iff in Hq. destruct Hq as (j & <- & Hj).
  cbn [qwa_answers qwa_count_answers qwa_row]. split; [reflexivity|].
  apply (in_map (fun q => q_id (fst q))) in Hj. cbn beta in Hj.
  remember (map (fun q => q_id (fst q)) _) as ids eqn:Eids.
  clear Eids. destruct ids as [|i ids]; [contradiction|].
  rewrite result_bind, result_ret, result_select, find_group_count.
  f_equal. unfold answers_of.
  rewrite <- (count_in_group (i :: ids) _ _ Hj).
  match goal with
  | |- context [matches answersT ?d ?w] =>
      rewrite (filter_ext (matches answersT d w)
                 (fun a => mem_Z (a_questionId a) (i :: ids)))
        by (intros a; cbn [matches forallb holds answersT holds_answer];
            apply andb_true_r)
  end.
  reflexivity.
Qed.

(** Without filters the sample store lists question 2 with its three
    answers counted. *)
Lemma getQuestions_answer_counts_witness :
  let options := mkQuestionsOptions None None None None None in
  let q := mkQuestionWithAuthor (mkQuestion 2 "Why Y?" "y" 2 ["y"] 0 0 (Some 10) 101)
             (mkAuthor 2 "Bob" "bob") [] 3 in
  In q (result (getQuestions (fun s => s) (fun _ => None) options) sample_db) /\
  qwa_answers q = [] /\
  qwa_count_answers q = Z.of_nat (List.length (answers_of 2 sample_db)).
Proof.
  cbv zeta.
  assert (Hin : In (mkQuestionWithAuthor
                      (mkQuestion 2 "Why Y?" "y" 2 ["y"] 0 0 (Some 10) 101)
                      (mkAuthor 2 "Bob" "bob") [] 3)
                  (result (getQuestions (fun s => s) (fun _ => None)
                             (mkQuestionsOptions None None None None None))
                     sample_db))
    by (right; left; reflexivity).
  split; [exact Hin|].
  exact (getQuestions_answer_counts (fun s => s) (fun _ => None)
           (mkQuestionsOptions None None None None None)
           sample_db _ Hin).
Defined.

Lemma StronglySorted_impl {A} (R R' : A -> A -> Prop) (l : list A) :
  (forall x y, R x y -> R' x y) -> StronglySorted R l -> StronglySorted R' l.
Proof.
  intros HR. induction 1 as [|x l _ IH Hx]; constructor; [assumption|].
  eapply Forall_impl; [|exact Hx]. apply HR.
Qed.

Lemma StronglySorted_firstn {A} (R : A -> A -> Prop) (n : nat) (l : list A) :
  StronglySorted R l -> StronglySorted R (firstn n l).
Proof.
  intros H. revert n. induction H as [|x l _ IH Hx]; intros [|n]; cbn;
    constructor; [apply IH|].
  apply Forall_forall. intros y Hy. apply In_firstn in Hy.
  rewrite Forall_forall in Hx. now apply Hx.
Qed.

Lemma StronglySorted_skipn {A} (R : A -> A -> Prop) (n : nat) (l : list A) :
  StronglySorted R l -> StronglySorted R (skipn n l).
Proof.
  intros H. revert n. induction H as [|x l Hl IH Hx]; intros [|n]; cbn;
    try constructor; try assumption. apply IH.
Qed.

Lemma order_by_newest_first {A} (createdAt : A -> Z) (l : list A) :
  StronglySorted (fun x y => createdAt y <= createdAt x)
    (order_by (newest_first createdAt) l).
Proof.
  apply StronglySorted_impl
    with (R := fun x y => newest_first createdAt x y = true).
  - intros x y H. now apply Z.leb_le.
  - apply order_by_sorted; unfold newest_first.
    + intros x y Hxy. apply Z.leb_gt in Hxy. apply Z.leb_le. lia.
    + intros x y z Hxy Hyz. apply Z.leb_le in Hxy, Hyz. apply Z.leb_le. lia.
Qed.

Lemma order_by_oldest_first {A} (createdAt : A -> Z) (l : list A) :
  StronglySorted (fun x y => createdAt x <= createdAt y)
    (order_by (oldest_first createdAt) l).
Proof.
  apply StronglySorted_impl
    with (R := fun x y => oldest_first createdAt x y = true).
  - intros x y H. now apply Z.leb_le.
  - apply order_by_sorted; unfold oldest_first.
    + intros x y Hxy. apply Z.leb_gt in Hxy. apply Z.leb_le. lia.
    + intros x y z Hxy Hyz. apply Z.leb_le in Hxy, Hyz. apply Z.leb_le. lia.
Qed.

(** X5. A page of [getQuestions] holds at most [limit] questions, twenty
    when no limit is given; they are rows of the Question table, newest
    first. *)
Theorem getQuestions_page (trim : string -> string)
    (array_in : string -> option (list string))
    (options : QuestionsOptions) (db : DB) :
  let l := result (getQuestions trim array_in options) db in
  (List.length l <=
   match o_limit options with Some n => n | None => 20 end)%nat /\
  StronglySorted
    (fun x y => q_createdAt (qwa_row y) <= q_createdAt (qwa_row x)) l /\
  Forall (fun q => In (qwa_row q) (rows (questions db))) l.
Proof.
  cbv zeta. unfold getQuestions.
  destruct (tags_condition array_in (o_tags options)) as [tagCondition|];
    [|rewrite result_ret; cbn; repeat split; [lia | constructor | constructor]].
  rewrite !result_bind, result_ret.
  split; [rewrite length_map; apply firstn_le_length|]. split.
  - apply StronglySorted_map. cbn [qwa_row].
    apply StronglySorted_firstn, StronglySorted_skipn.
    unfold select_leftJoin_users, result. cbn [fst].
    exact (order_by_newest_first (fun x : Question * option User => q_createdAt (fst x)) _).
  - apply Forall_forall. intros q Hq.
    apply in_map_iff in Hq. destruct Hq as (j & <- & Hj).
    apply In_firstn, In_skipn, In_select_leftJoin_users in Hj.
    cbn [qwa_row]. apply Hj.
Qed.

Lemma mem_string_In (x : string) (l : list string) :
  mem_string x l = true <-> In x l.
Proof.
  unfold mem_string. rewrite existsb_exists. split.
  - intros (y & Hy & E). apply String.eqb_eq in E. now subst.
  - intros H. exists x. split; [assumption | apply String.eqb_refl].
Qed.

Lemma getQuestions_matches (trim : string -> string)
    (array_in : string -> option (list string))
    (options : QuestionsOptions) (db : DB) (q : QuestionWithAuthor) :
  In q (result (getQuestions trim array_in options) db) ->
  exists tagCondition,
    tags_condition array_in (o_tags options) = Some tagCondition /\
    matches questionsT db
      (match o_search options with
       | Some search =>
           if String.eqb search "" || String.eqb (trim search) "" then []
           else [Q_search (String.append "%" (String.append (trim search) "%"))]
       | None => []
       end ++ tagCondition) (qwa_row q) = true.
Proof.
  intros Hq. unfold getQuestions in Hq.
  destruct (tags_condition array_in (o_tags options)) as [tagCondition|];
    [|contradiction].
  rewrite !result_bind, result_ret in Hq.
  apply in_map_iff in Hq. destruct Hq as (j & <- & Hj).
  apply In_firstn, In_skipn, In_select_leftJoin_users in Hj.
  destruct Hj as [_ Hm]. cbn [qwa_row].
  exists tagCondition. split; [reflexivity|].
  unfold matches in *. rewrite !forallb_app in *.
  apply andb_true_iff in Hm. destruct Hm as [Hs Hm].
  apply andb_true_iff in Hm. destruct Hm as [Ht _].
  now rewrite Hs, Ht.
Qed.

(** X6. The filters of [getQuestions].  The tag filter reaches the store as
    a parenthesised parameter list: with two or more tags, and with one tag
    that the store does not read as an array literal, the statement is
    rejected and [getQuestions] returns no question at all; with one tag that
    reads as an array literal, every Question returned has a tag in that
    array.  With a search text that is not blank, the title or the
    description of every Question returned matches the pattern built from
    the trimmed text. *)
Theorem getQuestions_respects_filters (trim : string -> string)
    (array_in : string -> option (list string))
    (options : QuestionsOptions) (db : DB) :
  let l := result (getQuestions trim array_in options) db in
  (forall t1 t2 ts, o_tags options = Some (t1 :: t2 :: ts) -> l = []) /\
  (forall t, o_tags options = Some [t] -> array_in t = None -> l = []) /\
  (forall t arr, o_tags options = Some [t] -> array_in t = Some arr ->
     Forall (fun q => exists tag, In tag (q_tags (qwa_row q)) /\ In tag arr) l) /\
  (forall s, o_search options = Some s -> s <> "" -> trim s <> "" ->
     let pattern := String.append "%" (String.append (trim s) "%") in
     Forall (fun q => sql_ilike db (q_title (qwa_row q)) pattern
                      || sql_ilike db (q_description (qwa_row q)) pattern = true)
       l).
Proof.
  cbv zeta. split; [|split; [|split]].
  - intros t1 t2 ts E. unfold getQuestions. rewrite E. reflexivity.
  - intros t E En. unfold getQuestions. rewrite E. cbn [tags_condition].
    rewrite En. reflexivity.
  - intros t arr E Ea. apply Forall_forall. intros q Hq.
    apply getQuestions_matches in Hq. destruct Hq as (tc & Htc & Hm).
    rewrite E in Htc. cbn [tags_condition] in Htc. rewrite Ea in Htc.
    injection Htc as <-.
    unfold matches in Hm. rewrite forallb_app in Hm.
    apply andb_true_iff in Hm. destruct Hm as [_ Ht].
    cbn in Ht. rewrite andb_true_r in Ht.
    apply existsb_exists in Ht. destruct Ht as (tag & Hin & Hmem).
    exists tag. split; [assumption | now apply mem_string_In].
  - intros s E Hne Htrim. apply Forall_forall. intros q Hq.
    apply getQuestions_matches in Hq. destruct Hq as (tc & _ & Hm).
    unfold matches in Hm. rewrite forallb_app in Hm.
    apply andb_true_iff in Hm. destruct Hm as [Hs _].
    rewrite E in Hs. apply String.eqb_neq in Hne, Htrim.
    rewrite Hne, Htrim in Hs. cbn in Hs. now rewrite andb_true_r in Hs.
Qed.

(** On the sample store, with an ILIKE under which only the title of
    question 2 matches the pattern, the search for " why " returns
    question 2; with two tags the same request returns nothing. *)
Lemma getQuestions_respects_filters_witness :
  let db := with_ilike (fun s p => String.eqb p "%why%" && String.eqb s "Why Y?")
              sample_db in
  let trim := fun s => if String.eqb s " why " then "why" else s in
  let options := mkQuestionsOptions (Some " why ") in
  map (fun q => q_id (qwa_row q))
    (result (getQuestions trim (fun _ => None) (options None None None None)) db) =
    [2] /\
  Forall (fun q => sql_ilike db (q_title (qwa_row q)) "%why%"
                   || sql_ilike db (q_description (qwa_row q)) "%why%" = true)
    (result (getQuestions trim (fun _ => None) (options None None None None)) db) /\
  result (getQuestions trim (fun _ => None)
            (options (Some ["y"; "x"]) None None None)) db = [].
Proof.
  cbv zeta. split; [reflexivity|]. split.
  - exact (proj2 (proj2 (proj2
             (getQuestions_respects_filters
                (fun s => if String.eqb s " why " then "why" else s)
                (fun _ => None)
                (mkQuestionsOptions (Some " why ") None None None None)
                (with_ilike
                   (fun s p => String.eqb p "%why%" && String.eqb s "Why Y?")
                   sample_db))))
             " why " eq_refl
             (fun H : " why " = "" => ltac:(discriminate H))
             (fun H : "why" = "" => ltac:(discriminate H))).
  - exact (proj1 (getQuestions_respects_filters
                    (fun s => if String.eqb s " why " then "why" else s)
                    (fun _ => None)
                    (mkQuestionsOptions (Some " why ") (Some ["y"; "x"])
                       None None None)
                    (with_ilike
                       (fun s p => String.eqb p "%why%" && String.eqb s "Why Y?")
                       sample_db))
             "y" "x" [] eq_refl).
Defined.

(** ** Votes: requests that name both targets, and changing one's vote *)

Lemma filter_false {A} (p : A -> bool) (l : list A) :
  (forall x, In x l -> p x = false) -> filter p l = [].
Proof.
  induction l as [|x l IH]; cbn; intros H; [reflexivity|].
  rewrite (H x (or_introl eq_refl)). apply IH. intros y Hy. apply H. now right.
Qed.

Lemma getVote_both_targets (u q a : Z) (db : DB) :
  q <> 0 -> a <> 0 ->
  result (getVote u (Some q) (Some a)) db = None /\
  votes (run (getVote u (Some q) (Some a)) db) = votes db /\
  questions (run (getVote u (Some q) (Some a)) db) = questions db /\
  answers (run (getVote u (Some q) (Some a)) db) = answers db.
Proof.
  intros Hq Ha. unfold getVote.
  rewrite (truthy_nonzero Hq), (truthy_nonzero Ha). cbn [app].
  rewrite result_bind, run_bind, result_select, run_select, result_ret, run_ret.
  split; [|now repeat split].
  rewrite filter_false; [reflexivity|].
  intros v _. cbn. destruct (v_answerId v), (v_questionId v); cbn;
    now rewrite ?andb_false_r.
Qed.

(** X7. A vote request that names both a question and an answer never meets
    an earlier vote: the lookup asks for rows whose [questionId] is the
    question and is null at once.  So with a valid vote type every such
    request of a stored user for a stored question and a stored answer is
    answered 200 and appends a Vote row holding both ids; a repeated request
    does not take the vote back. *)
Theorem vote_on_both_targets_inserts (db : DB) (u q a : Z) (vt : string)
    (now : Z) :
  stored_user u db -> stored_question q db -> stored_answer a db ->
  q <> 0 -> a <> 0 -> is_voteType vt = true ->
  let row := mkVote (next_id (votes db)) u (Some q) (Some a) vt now in
  let db' := run (post_votes (Some u) (both_body q a vt) now) db in
  result (post_votes (Some u) (both_body q a vt) now) db =
    mkResponse 200 (VoteJson row) /\
  rows (votes db') = rows (votes db) ++ [row].
Proof.
  intros _ _ _ Hq Ha Hvt. cbv zeta.
  pose proof (post_votes_cases u (both_body q a vt) now db) as C.
  cbv zeta in C. cbn [both_body b_questionId b_answerId b_voteType] in C.
  destruct (getVote_both_targets u db Hq Ha) as (Hnone & Hv & _).
  rewrite Hnone in C. unfold insertVoteSchema_parse in C. rewrite Hvt in C.
  rewrite (truthy_nonzero Hq), (truthy_nonzero Ha) in C.
  destruct C as [-> ->]. rewrite createVote_result.
  match goal with
  | |- context [run (createVote ?vd now) ?d] =>
      destruct (createVote_effect vd now d) as (V1 & _);
      rewrite createVote_result in V1
  end.
  rewrite V1, Hv. now split.
Qed.

Lemma vote_on_both_targets_inserts_witness :
  let row n now := mkVote n 1 (Some 2) (Some 11) "up" now in
  rows (votes (run (post_votes (Some 1) (both_body 2 11 "up") 200 ;;;
                    post_votes (Some 1) (both_body 2 11 "up") 201) sample_db)) =
  rows (votes sample_db) ++ [row 2 200; row 3 201].
Proof.
  cbv zeta. rewrite run_bind.
  destruct (@vote_on_both_targets_inserts sample_db 1 2 11 "up" 200)
    as [_ H1];
    [ cbn; tauto | cbn; tauto | cbn; tauto
    | discriminate | discriminate | reflexivity |].
  set (db1 := run (post_votes (Some 1) (both_body 2 11 "up") 200) sample_db) in *.
  destruct (@vote_on_both_targets_inserts db1 1 2 11 "up" 201)
    as [_ H2];
    [ vm_compute; tauto | vm_compute; tauto | vm_compute; tauto
    | discriminate | discriminate | reflexivity |].
  rewrite H2, H1, <- app_assoc. reflexivity.
Defined.

Lemma updateVote_effect (id : Z) (vt : string) (db : DB) :
  let db' := run (updateVote id vt) db in
  let vs := map (fun v => if v_id v =? id then set_voteType vt v else v)
              (rows (votes db)) in
  rows (votes db') = vs /\
  match filter (fun v => v_id v =? id) (rows (votes db)) with
  | v :: _ =>
      result (updateVote id vt) db = Some (set_voteType vt v) /\
      rows (questions db') =
        recount_questions (truthy (v_questionId v)) vs (rows (questions db)) /\
      rows (answers db') =
        recount_answers (truthy (v_answerId v)) vs (rows (answers db))
  | [] =>
      result (updateVote id vt) db = None /\
      questions db' = questions db /\ answers db' = answers db
  end.
Proof.
  cbv zeta. unfold updateVote. rewrite run_bind, result_bind, result_update.
  cbn [tbl votesT].
  assert (E1 : filter (matches votesT db [V_id_eq id]) (rows (votes db)) =
               filter (fun v => v_id v =? id) (rows (votes db))).
  { apply filter_ext. intros v. cbn. apply andb_true_r. }
  set (d := run (update votesT (set_voteType vt) [V_id_eq id]) db).
  assert (Ed : rows (votes d) =
               map (fun v => if v_id v =? id then set_voteType vt v else v)
                 (rows (votes db)) /\
               questions d = questions db /\ answers d = answers db).
  { split; [|now split]. subst d. unfold run, update. cbn.
    apply map_ext. intros v. now rewrite andb_true_r. }
  destruct Ed as (Edv & Edq & Eda).
  rewrite E1.
  destruct (filter (fun v => v_id v =? id) (rows (votes db))) as [|v rest].
  - cbn [map]. rewrite run_ret, result_ret. repeat split; assumption.
  - cbn [map]. rewrite run_bind, run_ret, result_bind, result_ret.
    match goal with
    | |- context [run (updateVoteCount ?q ?a ?t) d] =>
        destruct (updateVoteCount_effect q a t d) as (Hv & Hq & Ha & _)
    end.
    rewrite Hv, Hq, Ha, Edv, Edq, Eda.
    cbn [v_questionId v_answerId set_voteType]. repeat split.
Qed.

Lemma map_fresh_id (n : Z) (f : Vote -> Vote) (l : list Vote) :
  Forall (fun v => v_id v <> n) l ->
  map (fun v => if v_id v =? n then f v else v) l = l.
Proof.
  induction 1 as [|v l Hv _ IH]; cbn; [reflexivity|].
  apply Z.eqb_neq in Hv. rewrite Hv. now f_equal.
Qed.

(** X8. Where a stored user holds no vote on a stored target, a cast
    followed by a cast of another type is answered with the new Vote and then
    with the same Vote carrying the second type: one Vote row of the pair is
    left, changed in place, and the target's stored tally equals up-votes
    minus down-votes of the rows.  The second type is not validated: only the
    first cast passes through the insert schema.  The next Vote id of the
    store is unused. *)
Theorem cast_then_change (db : DB) (u : Z) (t : Target) (vt1 vt2 : string)
    (now1 now2 : Z) :
  stored_user u db -> stored_target t db ->
  is_voteType vt1 = true ->
  vt1 <> vt2 ->
  target_id t <> 0 ->
  vote_rows u t db = [] ->
  Forall (fun v => v_id v <> next_id (votes db)) (rows (votes db)) ->
  let db2 := run (cast_then u t vt1 vt2 now1 now2) db in
  result (cast_then u t vt1 vt2 now1 now2) db =
    (mkResponse 200 (VoteJson (cast_row db u t vt1 now1)),
     mkResponse 200 (VoteJson (cast_row db u t vt2 now1))) /\
  rows (votes db2) = rows (votes db) ++ [cast_row db u t vt2 now1] /\
  tally_in_sync t db2.
Proof.
  intros _ _ Hvt Hne Hz Hnone Hfresh. cbv zeta.
  unfold cast_then. rewrite !run_bind, run_ret, !result_bind, result_ret.
  assert (Hlook : filter (fun v => (v_userId v =? u) && targets t v && other_null t v)
                    (rows (votes db)) = []).
  { apply filter_none with (p := fun v => (v_userId v =? u) && targets t v);
      [exact Hnone|].
    intros v Hv. now apply andb_true_iff in Hv. }
  (* first cast: no existing vote, a row is inserted *)
  pose proof (post_votes_cases u (vote_body t vt1) now1 db) as C1.
  cbv zeta in C1.
  destruct (getVote_target u t vt1 db Hz) as [L1 [s1 R1]].
  rewrite L1, Hlook, R1 in C1. cbn [hd_error] in C1.
  unfold insertVoteSchema_parse in C1.
  replace (b_voteType (vote_body t vt1)) with vt1 in C1 by now destruct t.
  rewrite Hvt in C1. destruct C1 as [C1 Res1]. rewrite C1, Res1.
  clear C1 Res1 L1 R1.
  match goal with
  | |- context [run (createVote ?vd now1) ?d] =>
      destruct (createVote_effect vd now1 d) as (V1 & Q1 & A1 & _);
      rewrite createVote_result in V1, Q1, A1 |- *;
      set (db1 := run (createVote vd now1) d) in *
  end.
  cbn [issue votes questions answers iv_userId iv_questionId iv_answerId iv_voteType]
    in V1, Q1, A1 |- *.
  destruct (vote_body_ids t vt1 Hz) as [Hbq Hba].
  rewrite truthy_idem in Q1, A1. rewrite Hbq, Hba in V1, Q1, A1 |- *.
  clear Hbq Hba. clearbody db1.
  fold (cast_row db u t vt1 now1) in V1, Q1, A1 |- *.
  set (r1 := cast_row db u t vt1 now1) in *.
  assert (Hr1 : (v_userId r1 =? u) && targets t r1 && other_null t r1 = true).
  { subst r1. destruct t; cbn in *; now rewrite !Z.eqb_refl. }
  (* second cast: the row is found, has another type, and is changed *)
  pose proof (post_votes_cases u (vote_body t vt2) now2 db1) as C2.
  cbv zeta in C2.
  destruct (getVote_target u t vt2 db1 Hz) as [L2 [s2 R2]].
  rewrite L2, V1, R2 in C2. cbn [rows] in C2.
  rewrite filter_app, Hlook in C2. cbn [filter app] in C2.
  rewrite Hr1 in C2. cbn [hd_error] in C2.
  replace (b_voteType (vote_body t vt2)) with vt2 in C2 by now destruct t.
  replace (v_voteType r1) with vt1 in C2 by reflexivity.
  apply String.eqb_neq in Hne. rewrite Hne in C2.
  destruct (updateVote_effect (v_id r1) vt2 (issue s2 db1)) as (V2 & QA2).
  cbn [issue votes questions answers] in V2, QA2.
  rewrite V1 in V2, QA2. cbn [rows] in V2, QA2.
  rewrite map_app in V2, QA2. rewrite filter_app in QA2.
  destruct (filter_fresh_id Hfresh) as [F1 _].
  replace (v_id r1) with (next_id (votes db)) in V2, QA2, C2 by reflexivity.
  rewrite (map_fresh_id _ Hfresh) in V2, QA2. rewrite F1 in QA2.
  cbn [filter map app v_id r1 cast_row] in V2, QA2.
  rewrite Z.eqb_refl in V2, QA2.
  destruct QA2 as (Res & Q2 & A2). destruct C2 as [C2 Res2].
  rewrite Res in Res2. rewrite C2, Res2. clear C2 Res2 Res L2 R2.
  split; [reflexivity|].
  set (db2 := run (updateVote _ vt2) _) in *. clearbody db2.
  split; [exact V2|].
  apply recount_in_sync
    with (db0 := with_votes (mkTbl (rows (votes db) ++ [cast_row db u t vt2 now1]) 0) db);
    [exact V2|].
  cbn [with_votes votes questions answers rows]. subst r1.
  destruct t as [q|a]; cbn [target_id v_questionId v_answerId set_voteType cast_row] in *.
  - rewrite (truthy_nonzero Hz), Q1, recount_questions_twice in Q2. exact Q2.
  - rewrite (truthy_nonzero Hz), A1, recount_answers_twice in A2. exact A2.
Qed.

Lemma cast_then_change_witness :
  let db2 := run (cast_then 3 (OnQuestion 1) "up" "down" 200 201) sample_db in
  rows (votes db2) =
    [mkVote 1 4 None (Some 11) "up" 120; mkVote 2 3 (Some 1) None "down" 200] /\
  tally_in_sync (OnQuestion 1) db2.
Proof.
  destruct (@cast_then_change sample_db 3 (OnQuestion 1) "up" "down" 200 201)
    as (_ & Hv & Hs).
  - cbn. tauto.
  - cbn. tauto.
  - reflexivity.
  - discriminate.
  - discriminate.
  - reflexivity.
  - repeat constructor. discriminate.
  - split; [exact Hv | exact Hs].
Defined.

(** ** Reading, creating and deleting a question through the routes *)

Lemma incrementViewCount_effect (id : Z) (db : DB) :
  let db' := run (incrementViewCount id) db in
  rows (questions db') =
    map (fun x => if q_id x =? id then add_views 1 x else x)
      (rows (questions db)) /\
  answers db' = answers db.
Proof.
  cbv zeta. unfold incrementViewCount, run, bind, update, ret. cbn.
  split; [|reflexivity]. apply map_ext. intros x. now rewrite andb_true_r.
Qed.

(** X9. GET /api/questions/:id counts a view on every Question row of that
    id, after reading: the reply carries the row as it was stored before the
    request, so its [views] is the count before this view.  An id that is
    not a number is answered 400 without a statement, an id without a
    Question 404 with the Question table as it was; Answers are never
    touched. *)
Theorem get_questions_id_counts_view (id : Z) (db : DB) :
  let db' := run (get_questions_id (Some id)) db in
  answers db' = answers db /\
  run (get_questions_id None) db = db /\
  match question_row id db with
  | Some r =>
      (exists q, result (get_questions_id (Some id)) db = mkReply 200 (JQuestion q) /\
                 qwa_row q = r) /\
      rows (questions db') =
        map (fun x => if q_id x =? id then add_views 1 x else x)
          (rows (questions db))
  | None =>
      result (get_questions_id (Some id)) db =
        mkReply 404 (JMessage "Question not found") /\
      questions db' = questions db
  end.
Proof.
  cbv zeta. unfold get_questions_id. rewrite run_bind, result_bind, run_ret.
  destruct (getQuestion_effect id db) as (Hq & Ha & _ & Hres).
  destruct (question_row id db) as [r|].
  - destruct Hres as (q & -> & Hqr & _).
    rewrite run_bind, run_ret, result_bind, result_ret.
    destruct (incrementViewCount_effect id (run (getQuestion id) db))
      as [Hv Ha2].
    rewrite Hv, Ha2, Hq, Ha. split; [reflexivity|]. split; [reflexivity|].
    split; [|reflexivity]. now exists q.
  - rewrite Hres, run_ret, result_ret. now repeat split.
Qed.

(** X10. PUT /api/answers/:id looks the Answer up among the Answers of
    question 0, so a request for any Answer that belongs to another
    Question, its author's included, is answered 404 and the Answer table
    is left as it was. *)
Theorem put_answers_id_not_found (db : DB) (u id : Z) (body : PartialAnswer) :
  (forall a, In a (rows (answers db)) -> a_id a = id -> a_questionId a <> 0) ->
  result (put_answers_id (Some u) id body) db =
    mkReply 404 (JMessage "Answer not found") /\
  answers (run (put_answers_id (Some u) id body) db) = answers db.
Proof.
  intros Hq. unfold put_answers_id. rewrite run_bind, result_bind.
  rewrite find_absent.
  - now rewrite run_ret, result_ret.
  - intros x Hx. apply Z.eqb_neq. intros E.
    assert (Hin : In (awa_row x) (answers_of 0 db))
      by (apply In_getAnswersByQuestionId; now apply in_map).
    apply filter_In in Hin. destruct Hin as [Hin H0].
    apply Z.eqb_eq in H0. exact (Hq _ Hin E H0).
Qed.

Lemma put_answers_id_not_found_witness :
  result (put_answers_id (Some 3) 11 (mkPartialAnswer (Some "Or Y4") None None))
    sample_db = mkReply 404 (JMessage "Answer not found") /\
  answers (run (put_answers_id (Some 3) 11
                  (mkPartialAnswer (Some "Or Y4") None None)) sample_db) =
  answers sample_db.
Proof.
  apply put_answers_id_not_found.
  intros a Ha _.
  cbn in Ha. decompose [or] Ha; subst; try discriminate; contradiction.
Defined.

(** X11. DELETE /api/questions/:id deletes nothing for anyone but the
    author of the Question: without a session, for an id without a Question
    or for another user the reply is 401, 404 or 403, and the Question and
    Answer tables are as they were. *)
Theorem delete_question_refused (db : DB) (user : option Z) (id : Z) :
  (forall r, question_row id db = Some r -> user <> Some (q_authorId r)) ->
  let db' := run (delete_questions_id user id) db in
  In (code (result (delete_questions_id user id) db)) [401; 403; 404] /\
  questions db' = questions db /\ answers db' = answers db.
Proof.
  intros Hno. cbv zeta. unfold delete_questions_id.
  destruct user as [u|]; [|rewrite run_ret, result_ret; cbn; tauto].
  rewrite run_bind, result_bind.
  destruct (getQuestion_effect id db) as (Hq & Ha & _ & Hres).
  destruct (question_row id db) as [r|].
  - destruct Hres as (q & -> & Hqr & _). rewrite Hqr.
    destruct (q_authorId r =? u) eqn:E.
    + apply Z.eqb_eq in E. exfalso. apply (Hno r eq_refl). now rewrite E.
    + cbn [negb]. rewrite run_ret, result_ret. cbn. tauto.
  - rewrite Hres, run_ret, result_ret. cbn. tauto.
Qed.

Lemma delete_question_refused_witness :
  let db' := run (delete_questions_id (Some 3) 2) sample_db in
  In (code (result (delete_questions_id (Some 3) 2) sample_db)) [401; 403; 404] /\
  questions db' = questions sample_db /\ answers db' = answers sample_db.
Proof.
  apply delete_question_refused. intros r [= <-]. discriminate.
Defined.

(** X12. When the author deletes a Question that no Answer, Vote or
    Notification references (the store's foreign keys refuse the deletion
    otherwise), the reply is 200, every Question row of that id is gone and
    no other, and reading the id afterwards is answered 404. *)
Theorem delete_question_by_author (db : DB) (u id : Z) (r : Question) :
  question_row id db = Some r -> q_authorId r = u ->
  answers_of id db = [] ->
  Forall (fun v => v_questionId v <> Some id) (rows (votes db)) ->
  Forall (fun n => n_questionId n <> Some id) (rows (notifications db)) ->
  let db' := run (delete_questions_id (Some u) id) db in
  result (delete_questions_id (Some u) id) db =
    mkReply 200 (JMessage "Question deleted successfully") /\
  rows (questions db') =
    filter (fun q => negb (q_id q =? id)) (rows (questions db)) /\
  result (get_questions_id (Some id)) db' =
    mkReply 404 (JMessage "Question not found").
Proof.
  intros Hrow Hauth _ _ _. cbv zeta. unfold delete_questions_id.
  rewrite run_bind, result_bind.
  destruct (getQuestion_effect id db) as (Hq & _ & _ & Hres).
  rewrite Hrow in Hres. destruct Hres as (q & -> & Hqr & _).
  rewrite Hqr, Hauth, Z.eqb_refl. cbn [negb].
  rewrite run_bind, run_ret, result_bind, result_ret.
  split; [reflexivity|].
  set (db1 := run (getQuestion id) db) in *.
  assert (Hrows : rows (questions (run (deleteQuestion id) db1)) =
                  filter (fun q => negb (q_id q =? id)) (rows (questions db))).
  { unfold deleteQuestion. rewrite run_delete.
    cbn [tbl with_tbl questionsT issue questions rows]. rewrite Hq.
    apply filter_ext. intros x. cbn. now rewrite andb_true_r. }
  split; [exact Hrows|].
  set (db2 := run (deleteQuestion id) db1) in *.
  assert (Hnone : question_row id db2 = None).
  { unfold question_row. rewrite Hrows. apply find_absent.
    intros x Hx. apply filter_In in Hx. destruct Hx as [_ Hx].
    now apply negb_true_iff in Hx. }
  unfold get_questions_id. rewrite result_bind.
  destruct (getQuestion_effect id db2) as (_ & _ & _ & G).
  rewrite Hnone in G. now rewrite G, result_ret.
Qed.

Lemma delete_question_by_author_witness :
  let db' := run (delete_questions_id (Some 3) 3) sample_db in
  result (delete_questions_id (Some 3) 3) sample_db =
    mkReply 200 (JMessage "Question deleted successfully") /\
  map q_id (rows (questions db')) = [1; 2] /\
  result (get_questions_id (Some 3)) db' =
    mkReply 404 (JMessage "Question not found").
Proof.
  destruct (@delete_question_by_author sample_db 3 3
              (mkQuestion 3 "What is Z?" "z" 3 [] 0 0 None 102))
    as (H1 & H2 & H3).
  - reflexivity.
  - reflexivity.
  - reflexivity.
  - repeat constructor; discriminate.
  - constructor.
  - cbv zeta. split; [exact H1|]. split; [now rewrite H2 | exact H3].
Defined.




(** ** What [deleteUser] keeps *)

Lemma keep_neq (x y : Z) : x <> y -> negb ((x =? y) && true) = true.
Proof.
  intros H. apply Z.eqb_neq in H. now rewrite H.
Qed.

Lemma keep_not_in (x : Z) (l : list Z) :
  ~ In x l -> negb (mem_Z x l && true) = true.
Proof.
  intros H. rewrite andb_true_r. apply negb_true_iff.
  destruct (mem_Z x l) eqn:E; [|reflexivity].
  apply mem_Z_In in E. contradiction.
Qed.

(** X14. [deleteUser] removes no row that is unrelated to the user: every
    row of another user stays in its table, except that user's Answers to
    the deleted user's Questions. *)
Theorem deleteUser_keeps_unrelated (id : Z) (db : DB) :
  let db' := run (deleteUser id) db in
  let questionIds :=
    map q_id (filter (fun q => q_authorId q =? id) (rows (questions db))) in
  (forall a, In a (rows (answers db)) -> a_authorId a <> id ->
             ~ In (a_questionId a) questionIds -> In a (rows (answers db'))) /\
  (forall q, In q (rows (questions db)) -> q_authorId q <> id ->
             In q (rows (questions db'))) /\
  (forall v, In v (rows (votes db)) -> v_userId v <> id ->
             In v (rows (votes db'))) /\
  (forall n, In n (rows (notifications db)) -> n_userId n <> id ->
             In n (rows (notifications db'))) /\
  (forall l, In l (rows (postLikes db)) -> pl_userId l <> id ->
             In l (rows (postLikes db'))) /\
  (forall c, In c (rows (postComments db)) -> pc_authorId c <> id ->
             In c (rows (postComments db'))) /\
  (forall p, In p (rows (posts db)) -> p_authorId p <> id ->
             In p (rows (posts db'))) /\
  (forall x, In x (rows (users db)) -> u_id x <> id ->
             In x (rows (users db'))).
Proof.
  intros db' questionIds. subst db'.
  assert (Eq : map q_id (filter (matches questionsT db [Q_authorId_eq id])
                           (rows (questions db))) = questionIds).
  { unfold questionIds. f_equal. apply filter_ext. intros q. cbn.
    apply andb_true_r. }
  unfold deleteUser, run, bind, select, delete, ret. cbn.
  rewrite Eq. clearbody questionIds. clear Eq.
  destruct questionIds as [|q0 qs]; cbn;
    repeat match goal with
           | |- _ /\ _ => split
           end;
    intros x Hx Hne; try intros Hnot;
    repeat (apply filter_In; split);
    try assumption;
    try (apply keep_neq; assumption).
  exact (keep_not_in (a_questionId x) (q0 :: qs) Hnot).
Qed.

(** ** Notifications: listing and marking as read *)

Lemma In_leftJoin_questions {R} (key : R -> option Z) (qs : list Question)
    (rs : list R) (j : R * option Question) :
  In j (leftJoin_questions key qs rs) ->
  In (fst j) rs /\
  forall q, snd j = Some q -> In q qs /\ key (fst j) = Some (q_id q).
Proof.
  unfold leftJoin_questions. rewrite in_flat_map. intros (r & Hr & Hj).
  destruct (filter (fun q => col_is (key r) (q_id q)) qs) as [|q0 qs'] eqn:E.
  - destruct Hj as [<- | []]. split; [exact Hr | discriminate].
  - apply in_map_iff in Hj. destruct Hj as (q & <- & Hq).
    split; [exact Hr|]. cbn. intros q' [= <-].
    rewrite <- E in Hq. apply filter_In in Hq. destruct Hq as [Hq Hk].
    split; [exact Hq|]. unfold col_is in Hk.
    destruct (key r) as [y|]; [|discriminate].
    apply Z.eqb_eq in Hk. now subst.
Qed.

Lemma In_getNotifications (userId : Z) (limit : option nat) (db : DB)
    (x : NotificationWithQuestion) :
  In x (result (getNotifications userId limit) db) ->
  exists j,
    x = with_question j /\
    In (fst j) (rows (notifications db)) /\ n_userId (fst j) = userId /\
    forall q, snd j = Some q ->
              In q (rows (questions db)) /\ n_questionId (fst j) = Some (q_id q).
Proof.
  unfold getNotifications, result. cbn [fst]. intros Hx.
  apply in_map_iff in Hx. destruct Hx as (j & <- & Hj).
  apply In_firstn, In_order_by, In_leftJoin_questions in Hj.
  destruct Hj as [Hj Hq]. apply filter_In in Hj. destruct Hj as [Hin Hm].
  exists j. split; [reflexivity|]. split; [exact Hin|]. split; [|exact Hq].
  cbn in Hm. rewrite andb_true_r in Hm. now apply Z.eqb_eq.
Qed.

(** X15. [getNotifications] lists at most [limit] notifications, twenty when
    no limit is given, newest first; each is a Notification row addressed to
    the user; a question stub is attached only to a notification that names
    a Question row of the store with a non-empty title, and carries that id
    and title. *)
Theorem getNotifications_listing (userId : Z) (limit : option nat) (db : DB) :
  let l := result (getNotifications userId limit) db in
  (List.length l <= match limit with Some n => n | None => 20 end)%nat /\
  StronglySorted
    (fun x y => n_createdAt (nwq_row y) <= n_createdAt (nwq_row x)) l /\
  Forall (fun x => In (nwq_row x) (rows (notifications db)) /\
                   n_userId (nwq_row x) = userId) l /\
  Forall (fun x => forall i t, nwq_question x = Some (i, t) ->
                     n_questionId (nwq_row x) = Some i /\ t <> "" /\
                     exists q, In q (rows (questions db)) /\
                               q_id q = i /\ q_title q = t) l.
Proof.
  cbv zeta. split; [|split; [|split]].
  - unfold getNotifications, result. cbn [fst].
    rewrite length_map. apply firstn_le_length.
  - unfold getNotifications, result. cbn [fst].
    apply StronglySorted_map. cbn [nwq_row with_question].
    apply StronglySorted_firstn.
    exact (order_by_newest_first
             (fun x : Notification * option Question => n_createdAt (fst x)) _).
  - apply Forall_forall. intros x Hx.
    apply In_getNotifications in Hx. destruct Hx as (j & -> & Hin & Hu & _).
    now split.
  - apply Forall_forall. intros x Hx i t.
    apply In_getNotifications in Hx. destruct Hx as (j & -> & _ & _ & Hq).
    cbn [nwq_question nwq_row with_question].
    destruct (snd j) as [q|]; [|discriminate].
    destruct (Hq q eq_refl) as [Hqin Hk]. rewrite Hk.
    destruct (String.eqb (q_title q) "") eqn:E; [discriminate|].
    intros [= <- <-]. split; [reflexivity|]. split.
    + now apply String.eqb_neq.
    + now exists q.
Qed.

Lemma markAllNotificationsAsRead_rows (userId : Z) (db : DB) :
  rows (notifications (run (markAllNotificationsAsRead userId) db)) =
  map (fun n => if n_userId n =? userId then set_isRead true n else n)
    (rows (notifications db)).
Proof.
  unfold markAllNotificationsAsRead, run, bind, update, ret. cbn.
  apply map_ext. intros n. now rewrite andb_true_r.
Qed.

(** X16. After [markAllNotificationsAsRead] every notification that
    [getNotifications] lists for that user is read; the notifications of
    other users are as they were, and no notification is added, removed or
    changed in another field. *)
Theorem markAllNotificationsAsRead_marks_all (userId : Z) (limit : option nat)
    (db : DB) :
  let db' := run (markAllNotificationsAsRead userId) db in
  Forall (fun x => n_isRead (nwq_row x) = true)
    (result (getNotifications userId limit) db') /\
  filter (fun n => negb (n_userId n =? userId)) (rows (notifications db')) =
  filter (fun n => negb (n_userId n =? userId)) (rows (notifications db)) /\
  map (set_isRead true) (rows (notifications db')) =
  map (set_isRead true) (rows (notifications db)).
Proof.
  cbv zeta. split; [|split].
  - apply Forall_forall. intros x Hx.
    apply In_getNotifications in Hx. destruct Hx as (j & -> & Hin & Hu & _).
    cbn [nwq_row with_question].
    rewrite markAllNotificationsAsRead_rows in Hin.
    apply in_map_iff in Hin. destruct Hin as (n & Hn & _).
    destruct (n_userId n =? userId) eqn:E.
    + now rewrite <- Hn.
    + rewrite <- Hn in Hu. apply Z.eqb_neq in E. contradiction.
  - rewrite markAllNotificationsAsRead_rows.
    induction (rows (notifications db)) as [|n l IH]; [reflexivity|].
    cbn [map filter]. destruct (n_userId n =? userId) eqn:E.
    + cbn. rewrite E. exact IH.
    + rewrite E. cbn. now rewrite IH.
  - rewrite markAllNotificationsAsRead_rows, map_map. apply map_ext.
    intros n. now destruct (n_userId n =? userId).
Qed.

(** ** Comments of a post *)

Lemma map_pcwa_row (l : list (PostComment * option User)) :
  map pcwa_row (map comment_with_author l) = map fst l.
Proof. rewrite map_map. now apply map_ext. Qed.

Lemma matches_postId (db : DB) (postId : Z) (c : PostComment) :
  matches postCommentsT db [PC_postId_eq postId] c = (pc_postId c =? postId).
Proof. cbn. apply andb_true_r. Qed.

Lemma In_getPostComments (postId : Z) (db : DB) (c : PostComment) :
  In c (map pcwa_row (result (getPostComments postId) db)) <->
  In c (filter (fun c => pc_postId c =? postId) (rows (postComments db))).
Proof.
  unfold getPostComments.
  rewrite result_bind, result_ret, map_pcwa_row, In_rows_select_leftJoin_users.
  cbn [tbl postCommentsT].
  now rewrite (filter_ext _ _ (matches_postId db postId)).
Qed.

(** X17. [getPostComments] lists the comments of the post, all of them and
    no other, oldest first. *)
Theorem getPostComments_listing (postId : Z) (db : DB) :
  let l := result (getPostComments postId) db in
  StronglySorted
    (fun x y => pc_createdAt (pcwa_row x) <= pc_createdAt (pcwa_row y)) l /\
  forall c, In c (map pcwa_row l) <->
            In c (filter (fun c => pc_postId c =? postId)
                    (rows (postComments db))).
Proof.
  cbv zeta. split; [|intros c; apply In_getPostComments].
  unfold getPostComments. rewrite result_bind, result_ret.
  apply StronglySorted_map. cbn [pcwa_row comment_with_author].
  unfold select_leftJoin_users, result. cbn [fst].
  exact (order_by_oldest_first
           (fun x : PostComment * option User => pc_createdAt (fst x)) _).
Qed.

Lemma getPostComments_other_post (p postId u now : Z) (c : string) (db : DB) :
  p <> postId ->
  result (getPostComments p)
    (run (createPostComment (mkInsertPostComment postId u c) now) db) =
  result (getPostComments p) db.
Proof.
  intros Hp. unfold getPostComments. rewrite !result_bind, !result_ret.
  set (db' := run (createPostComment (mkInsertPostComment postId u c) now) db).
  assert (Hu : users db' = users db) by reflexivity.
  assert (Hr : rows (postComments db') =
               rows (postComments db) ++
               [mkPostComment (next_id (postComments db)) postId u c now])
    by reflexivity.
  f_equal. unfold select_leftJoin_users, result.
  cbn [fst tbl postCommentsT]. rewrite Hu, Hr, filter_app.
  rewrite !(filter_ext _ _ (matches_postId db' p)).
  rewrite ?(filter_ext _ _ (matches_postId db p)).
  cbn [filter pc_postId]. apply Z.eqb_neq in Hp. rewrite Z.eqb_sym in Hp.
  now rewrite Hp, app_nil_r.
Qed.

(** X18. A comment that a stored user posts on a stored post with a
    non-empty text is stored under the next comment id with the session user
    as author and is then listed by [getPostComments] for that post; the
    listings of other posts are as they were.  A request without text, or
    with the empty text, is answered 400 and reaches no statement. *)
Theorem post_posts_comments_round_trip (db : DB) (u postId now : Z)
    (c : string) :
  stored_user u db -> stored_post postId db ->
  c <> "" ->
  let row := mkPostComment (next_id (postComments db)) postId u c now in
  let db' := run (post_posts_comments (Some u) postId (Some c) now) db in
  result (post_posts_comments (Some u) postId (Some c) now) db =
    mkReply 200 (JComment row) /\
  In row (map pcwa_row (result (getPostComments postId) db')) /\
  (forall p, p <> postId ->
     result (getPostComments p) db' = result (getPostComments p) db) /\
  (forall content, content = None \/ content = Some "" ->
     result (post_posts_comments (Some u) postId content now) db =
       mkReply 400 (JMessage "Comment content is required") /\
     run (post_posts_comments (Some u) postId content now) db = db).
Proof.
  intros _ _ Hc. cbv zeta. apply String.eqb_neq in Hc.
  unfold post_posts_comments at 1 2 3. rewrite Hc.
  rewrite run_bind, result_bind, run_ret, result_ret.
  split; [reflexivity|]. split; [|split].
  - apply In_getPostComments. apply filter_In. split.
    + unfold run, createPostComment, insert.
      cbn [snd tbl with_tbl postCommentsT issue postComments rows].
      apply in_or_app. right. now left.
    + cbn. apply Z.eqb_refl.
  - intros p Hp. now apply getPostComments_other_post.
  - intros content [-> | ->]; now split.
Qed.

Lemma post_posts_comments_round_trip_witness :
  let row := mkPostComment 2 1 4 "thanks" 200 in
  let db' := run (post_posts_comments (Some 4) 1 (Some "thanks") 200) sample_db in
  result (post_posts_comments (Some 4) 1 (Some "thanks") 200) sample_db =
    mkReply 200 (JComment row) /\
  In row (map pcwa_row (result (getPostComments 1) db')).
Proof.
  destruct (@post_posts_comments_round_trip sample_db 4 1 200 "thanks")
    as (H1 & H2 & _); [cbn; tauto | cbn; tauto | discriminate|].
  split; [exact H1 | exact H2].
Defined.

(** ** Reading a post *)

Lemma getPostComments_ext (p : Z) (db1 db2 : DB) :
  users db1 = users db2 ->
  rows (postComments db1) = rows (postComments db2) ->
  result (getPostComments p) db1 = result (getPostComments p) db2.
Proof.
  intros Hu Hc. unfold getPostComments. rewrite !result_bind, !result_ret.
  f_equal. unfold select_leftJoin_users, result.
  cbn [fst tbl postCommentsT]. rewrite Hu, Hc.
  rewrite (filter_ext _ _ (matches_postId db1 p)).
  now rewrite ?(filter_ext _ _ (matches_postId db2 p)).
Qed.

Lemma getPost_result (id : Z) (db : DB) :
  result (getPost id) db =
  match leftJoin_users p_authorId (rows (users db))
          (filter (fun p => p_id p =? id) (rows (posts db))) with
  | [] => None
  | row :: _ =>
      let comments := result (getPostComments (p_id (fst row))) db in
      let likes := filter (fun l => pl_postId l =? p_id (fst row))
                     (rows (postLikes db)) in
      Some (mkPostWithAuthor (p_id (fst row)) (p_title (fst row))
              (p_content (fst row)) (p_authorId (fst row))
              (p_shares (fst row)) (p_createdAt (fst row))
              (author_of (p_authorId (fst row)) (snd row))
              comments likes
              (Z.of_nat (List.length comments))
              (Z.of_nat (List.length likes)))
  end.
Proof.
  unfold getPost. rewrite result_bind.
  assert (E : result (select_leftJoin_users postsT p_authorId (fun _ _ => true)
                        [P_id_eq id]) db =
              leftJoin_users p_authorId (rows (users db))
                (filter (fun p => p_id p =? id) (rows (posts db)))).
  { unfold select_leftJoin_users, result. cbn [fst tbl postsT].
    rewrite order_by_unordered. f_equal. apply filter_ext.
    intros p. cbn. apply andb_true_r. }
  rewrite E.
  destruct (leftJoin_users p_authorId (rows (users db)) _) as [|row rest];
    [now rewrite result_ret|].
  rewrite !result_bind, result_ret, result_select. cbv zeta.
  set (db1 := run (select_leftJoin_users postsT p_authorId _ [P_id_eq id]) db).
  assert (Hc : result (getPostComments (p_id (fst row))) db1 =
               result (getPostComments (p_id (fst row))) db)
    by now apply getPostComments_ext.
  rewrite Hc.
  assert (Hl : filter (matches postLikesT
                         (run (getPostComments (p_id (fst row))) db1)
                         [PL_postId_eq (p_id (fst row))])
                 (rows (tbl postLikesT
                          (run (getPostComments (p_id (fst row))) db1))) =
               filter (fun l => pl_postId l =? p_id (fst row))
                 (rows (postLikes db))).
  { apply filter_ext. intros l. cbn. apply andb_true_r. }
  now rewrite Hl.
Qed.

(** X19. The post that [getPost] returns has the requested id; its likes
    are the PostLike rows of the post and its like count is their number,
    not the counter stored on the Post row; its comments are those of
    [getPostComments] and its comment count is their number. *)
Theorem getPost_counts (id : Z) (db : DB) (p : PostWithAuthor) :
  result (getPost id) db = Some p ->
  pwa_id p = id /\
  pwa_likes p = filter (fun l => pl_postId l =? id) (rows (postLikes db)) /\
  pwa_count_likes p = Z.of_nat (List.length (pwa_likes p)) /\
  pwa_comments p = result (getPostComments id) db /\
  pwa_count_comments p = Z.of_nat (List.length (pwa_comments p)).
Proof.
  rewrite getPost_result.
  destruct (leftJoin_users p_authorId (rows (users db)) _) as [|row rest] eqn:E;
    [discriminate|].
  assert (Hid : p_id (fst row) = id).
  { assert (Hin : In row (leftJoin_users p_authorId (rows (users db))
                            (filter (fun p => p_id p =? id) (rows (posts db)))))
      by (rewrite E; now left).
    apply In_leftJoin_users, filter_In in Hin. now apply Z.eqb_eq. }
  cbv zeta. intros [= <-]. cbn. rewrite Hid. now repeat split.
Qed.

Lemma getPost_counts_witness :
  exists p, result (getPost 1) sample_db = Some p /\
            pwa_count_likes p = 1 /\ pwa_count_comments p = 1.
Proof.
  eexists. split; [reflexivity|].
  destruct (@getPost_counts 1 sample_db _ eq_refl) as (_ & _ & Hl & _ & Hc).
  split; [exact Hl | exact Hc].
Defined.

Lemma filter_map_inv {A} (p : A -> bool) (f : A -> A) (l : list A) :
  (forall x, p (f x) = p x) -> filter p (map f l) = map f (filter p l).
Proof.
  intros H. induction l as [|x l IH]; cbn; [reflexivity|].
  rewrite H. destruct (p x); cbn; now rewrite IH.
Qed.

Lemma leftJoin_users_cons {R} (key : R -> Z) (us : list User) (r : R)
    (rs : list R) :
  leftJoin_users key us (r :: rs) =
  match filter (fun u => u_id u =? key r) us with
  | [] => [(r, None)]
  | ms => map (fun u => (r, Some u)) ms
  end ++ leftJoin_users key us rs.
Proof. reflexivity. Qed.

Lemma leftJoin_users_map {R} (key : R -> Z) (us : list User) (f : R -> R)
    (rs : list R) :
  (forall r, key (f r) = key r) ->
  leftJoin_users key us (map f rs) =
  map (fun j => (f (fst j), snd j)) (leftJoin_users key us rs).
Proof.
  intros H. induction rs as [|r rs IH]; [reflexivity|].
  cbn [map]. rewrite !leftJoin_users_cons, IH, map_app, H. f_equal.
  destruct (filter (fun u => u_id u =? key r) us); [reflexivity|].
  rewrite map_map. now apply map_ext.
Qed.

Lemma getPost_bump_likes (id postId d : Z) (db1 db2 : DB) :
  users db1 = users db2 ->
  rows (postComments db1) = rows (postComments db2) ->
  rows (postLikes db1) = rows (postLikes db2) ->
  rows (posts db1) = bump_likes postId d (rows (posts db2)) ->
  result (getPost id) db1 = result (getPost id) db2.
Proof.
  intros Hu Hc Hl Hp. rewrite !getPost_result. rewrite Hu, Hl, Hp.
  unfold bump_likes.
  rewrite filter_map_inv by (intros x; now destruct (p_id x =? postId)).
  rewrite leftJoin_users_map by (intros x; now destruct (p_id x =? postId)).
  destruct (leftJoin_users p_authorId (rows (users db2)) _) as [|row rest];
    [reflexivity|].
  cbn [map fst snd]. cbv zeta.
  assert (E : forall x : Post,
            let y := if p_id x =? postId then add_likes d x else x in
            p_id y = p_id x /\ p_title y = p_title x /\
            p_content y = p_content x /\ p_authorId y = p_authorId x /\
            p_shares y = p_shares x /\ p_createdAt y = p_createdAt x).
  { intros x. cbv zeta. now destruct (p_id x =? postId). }
  destruct (E (fst row)) as (E1 & E2 & E3 & E4 & E5 & E6).
  rewrite E1, E2, E3, E4, E5, E6.
  now rewrite (getPostComments_ext (p_id (fst row)) db1 db2 Hu Hc).
Qed.

(** X20. The counter stored on a Post row never shows in what [getPost]
    returns: unliking a post the user does not like lowers the stored
    counter and leaves the post that [getPost] returns, its like count
    included, as it was. *)
Theorem getPost_ignores_stored_counter (db : DB) (postId userId id : Z) :
  like_rows postId userId db = [] ->
  let db' := run (unlikePost postId userId) db in
  stored_likes postId db' = map (fun n => n - 1) (stored_likes postId db) /\
  result (getPost id) db' = result (getPost id) db.
Proof.
  intros Hnone. cbv zeta.
  destruct (unlikePost_effect postId userId db) as [Hl Hp].
  split.
  - unfold stored_likes. rewrite Hp, stored_likes_bump. reflexivity.
  - apply getPost_bump_likes with (postId := postId) (d := -1).
    + reflexivity.
    + reflexivity.
    + rewrite Hl. cbn [rows]. now apply filter_negb_none.
    + exact Hp.
Qed.

Lemma getPost_ignores_stored_counter_witness :
  let db' := run (unlikePost 2 3) sample_db in
  stored_likes 2 sample_db = [0] /\ stored_likes 2 db' = [-1] /\
  result (getPost 2) db' = result (getPost 2) sample_db.
Proof.
  destruct (@getPost_ignores_stored_counter sample_db 2 3 2 eq_refl) as [H1 H2].
  split; [reflexivity|]. split; [exact H1 | exact H2].
Defined.

(** ** The admin check *)

Lemma isAdmin_result (u : Z) (db : DB) :
  result (isAdmin (Some u)) db =
  match find (fun x => u_id x =? u) (rows (users db)) with
  | Some r =>
      if u_isAdmin r then None
      else Some (mkReply 403 (JMessage "Access denied. Admin privileges required."))
  | None => Some (mkReply 403 (JMessage "Access denied. Admin privileges required."))
  end.
Proof.
  unfold isAdmin, getUser. rewrite !result_bind, result_select, result_ret.
  cbn [tbl usersT]. rewrite find_hd_filter.
  rewrite (filter_ext (matches usersT db [U_id_eq u]) (fun x => u_id x =? u))
    by (intros x; cbn; apply andb_true_r).
  destruct (hd_error (filter (fun x => u_id x =? u) (rows (users db)))) as [r|];
    cbn [hd_error]; [|now rewrite result_ret].
  destruct (u_isAdmin r); now rewrite result_ret.
Qed.

Lemma set_isAdmin_rows (b : bool) (id : Z) (db : DB) :
  rows (users (run (update usersT (set_isAdmin b) [U_id_eq id] ;;; ret tt) db)) =
  map (fun x => if u_id x =? id then set_isAdmin b x else x) (rows (users db)).
Proof.
  unfold run, bind, update, ret. cbn. apply map_ext. intros x.
  now rewrite andb_true_r.
Qed.

Lemma deleteUser_users (id : Z) (db : DB) :
  rows (users (run (deleteUser id) db)) =
  filter (fun x => negb (u_id x =? id)) (rows (users db)).
Proof.
  unfold deleteUser, run, bind, select, delete, ret. cbn.
  destruct (map q_id _); cbn; apply filter_ext; intros x;
    now rewrite andb_true_r.
Qed.

Lemma find_set_isAdmin (b : bool) (u id : Z) (l : list User) :
  find (fun x => u_id x =? u)
    (map (fun x => if u_id x =? id then set_isAdmin b x else x) l) =
  option_map (fun x => if u_id x =? id then set_isAdmin b x else x)
    (find (fun x => u_id x =? u) l).
Proof.
  rewrite find_map. f_equal.
  induction l as [|x l IH]; cbn; [reflexivity|].
  rewrite IH. now destruct (u_id x =? id).
Qed.

(** X21. The admin check reads the stored flag at every request: once
    [removeUserAdmin] or [deleteUser] has run for a user, that user's next
    request to an admin route is refused with 403, whatever the session
    says; a request without session user is refused with 401 without a
    statement. *)
Theorem revoked_admin_is_refused (db : DB) (u : Z) :
  let refused :=
    Some (mkReply 403 (JMessage "Access denied. Admin privileges required.")) in
  result (isAdmin (Some u)) (run (removeUserAdmin u) db) = refused /\
  result (isAdmin (Some u)) (run (deleteUser u) db) = refused /\
  result (isAdmin None) db = Some (mkReply 401 (JMessage "Unauthorized")) /\
  run (isAdmin None) db = db.
Proof.
  cbv zeta. split; [|split; [|now split]].
  - rewrite isAdmin_result. unfold removeUserAdmin.
    rewrite set_isAdmin_rows, find_set_isAdmin.
    destruct (find (fun x => u_id x =? u) (rows (users db))) as [r|] eqn:E;
      [|reflexivity].
    apply find_some in E. destruct E as [_ E]. cbn [option_map]. now rewrite E.
  - rewrite isAdmin_result, deleteUser_users, find_absent; [reflexivity|].
    intros x Hx. apply filter_In in Hx. destruct Hx as [_ Hx].
    now apply negb_true_iff in Hx.
Qed.

(** X22. After [makeUserAdmin] for a stored user the admin check lets that
    user pass; for every other user the check answers as before. *)
Theorem granted_admin_passes (db : DB) (u : Z) (r : User) :
  In r (rows (users db)) -> u_id r = u ->
  let db' := run (makeUserAdmin u) db in
  result (isAdmin (Some u)) db' = None /\
  forall v, v <> u ->
    result (isAdmin (Some v)) db' = result (isAdmin (Some v)) db.
Proof.
  intros Hin Hid. cbv zeta. unfold makeUserAdmin. split.
  - rewrite isAdmin_result, set_isAdmin_rows, find_set_isAdmin.
    destruct (find (fun x => u_id x =? u) (rows (users db))) as [x|] eqn:E.
    + apply find_some in E. destruct E as [_ E]. cbn [option_map].
      now rewrite E.
    + pose proof (find_none _ _ E r Hin) as Hn. cbn in Hn.
      apply Z.eqb_neq in Hn. contradiction.
  - intros v Hv. rewrite !isAdmin_result, set_isAdmin_rows, find_set_isAdmin.
    destruct (find (fun x => u_id x =? v) (rows (users db))) as [x|] eqn:E;
      [|reflexivity].
    apply find_some in E. destruct E as [_ E]. cbn [option_map].
    apply Z.eqb_eq in E. rewrite E. apply Z.eqb_neq in Hv. now rewrite Hv.
Qed.

Lemma granted_admin_passes_witness :
  result (isAdmin (Some 2)) sample_db =
    Some (mkReply 403 (JMessage "Access denied. Admin privileges required.")) /\
  result (isAdmin (Some 2)) (run (makeUserAdmin 2) sample_db) = None.
Proof.
  split; [reflexivity|].
  apply (@granted_admin_passes sample_db 2 (mkUser 2 "bob" "Bob" false)).
  - cbn. tauto.
  - reflexivity.
Defined.

(** ** Liking twice *)

(** X23. [likePost] is idempotent: after one call of a stored user for a
    stored post the pair has a PostLike row, and a second call leaves the
    PostLike rows and the stored counters as the first left them. *)
Theorem likePost_idempotent (db : DB) (postId userId now1 now2 : Z) :
  stored_user userId db -> stored_post postId db ->
  let db1 := run (likePost postId userId now1) db in
  let db2 := run (likePost postId userId now2) db1 in
  like_rows postId userId db1 <> [] /\
  postLikes db2 = postLikes db1 /\ posts db2 = posts db1.
Proof.
  intros _ _. cbv zeta.
  assert (H1 : like_rows postId userId (run (likePost postId userId now1) db) <> []).
  { pose proof (likePost_effect postId userId now1 db) as E. cbv zeta in E.
    unfold like_rows in *.
    destruct (filter (is_like_of postId userId) (rows (postLikes db)))
      as [|l ls] eqn:El.
    - destruct E as [-> _]. cbn [rows]. rewrite filter_app, El. cbn.
      rewrite is_like_of_self. discriminate.
    - destruct E as [-> _]. rewrite El. discriminate. }
  split; [exact H1|].
  pose proof (likePost_effect postId userId now2
                (run (likePost postId userId now1) db)) as E2.
  cbv zeta in E2.
  destruct (like_rows postId userId (run (likePost postId userId now1) db));
    [contradiction | exact E2].
Qed.

(** User 3 likes post 2 twice: one PostLike row, the counter at 1. *)
Lemma likePost_idempotent_witness :
  let db1 := run (likePost 2 3 200) sample_db in
  let db2 := run (likePost 2 3 201) db1 in
  like_rows 2 3 db1 = [mkPostLike 2 2 3 200] /\
  stored_likes 2 db1 = [1] /\
  postLikes db2 = postLikes db1 /\ posts db2 = posts db1.
Proof.
  destruct (@likePost_idempotent sample_db 2 3 200 201) as (_ & H1 & H2);
    [cbn; tauto | cbn; tauto |].
  split; [reflexivity|]. split; [reflexivity|]. split; [exact H1 | exact H2].
Defined.

(** ** The tag editor *)

Lemma addTag_keeps (normalize : string -> string) (tagToAdd : option string)
    (tags : list string) (tagInput : string) :
  NoDup tags /\ (List.length tags <= 5)%nat /\ ~ In "" tags ->
  let tags' := fst (addTag normalize tagToAdd tags tagInput) in
  NoDup tags' /\ (List.length tags' <= 5)%nat /\ ~ In "" tags'.
Proof.
  intros (Hnd & Hlen & Hne). cbv zeta. unfold addTag.
  set (tag := normalize _).
  destruct (negb (String.eqb tag "")) eqn:E1; cbn [andb fst];
    [|now repeat split].
  destruct (negb (mem_string tag tags)) eqn:E2; cbn [andb fst];
    [|now repeat split].
  destruct (List.length tags <? 5)%nat eqn:E3; cbn [fst]; [|now repeat split].
  apply negb_true_iff in E1, E2. apply String.eqb_neq in E1.
  apply Nat.ltb_lt in E3.
  assert (Hnotin : ~ In tag tags).
  { intros Hin. apply mem_string_In in Hin. congruence. }
  split; [|split].
  - apply NoDup_app; [exact Hnd | repeat constructor; intros [] | ].
    intros x Hx [<- | []]. contradiction.
  - rewrite length_app. cbn. lia.
  - intros Hin. apply in_app_or in Hin. destruct Hin as [Hin | [Hin | []]];
      [contradiction | congruence].
Qed.

(** X24. Whatever the user types, adds, removes or closes, and whatever the
    normalisation does, the tag editor started empty never holds more than
    five tags, never the same tag twice and never the empty tag; a removed
    tag is no longer among the tags. *)
Theorem tag_editor_invariant (normalize : string -> string)
    (actions : list TagAction) :
  let tags := fst (fold_left (tag_step normalize) actions ([], "")) in
  NoDup tags /\ (List.length tags <= 5)%nat /\ ~ In "" tags /\
  forall t st, ~ In t (fst (tag_step normalize st (Remove_tag t))).
Proof.
  cbv zeta.
  assert (H : forall st,
             NoDup (fst st) /\ (List.length (fst st) <= 5)%nat /\ ~ In "" (fst st) ->
             let tags := fst (fold_left (tag_step normalize) actions st) in
             NoDup tags /\ (List.length tags <= 5)%nat /\ ~ In "" tags).
  { induction actions as [|a actions IH]; intros st Hst; [exact Hst|].
    cbn [fold_left]. apply IH. destruct a as [text|tagToAdd|t|]; cbn [tag_step fst].
    - exact Hst.
    - now apply addTag_keeps.
    - destruct Hst as (Hnd & Hlen & Hne). unfold removeTag. split; [|split].
      + now apply NoDup_filter.
      + pose proof (filter_length_le
                      (fun tag => negb (String.eqb tag t)) (fst st)). lia.
      + intros Hin. apply filter_In in Hin. tauto.
    - repeat split; [constructor | cbn; lia | intros []]. }
  destruct (H ([], "")) as (H1 & H2 & H3).
  { repeat split; [constructor | cbn; lia | intros []]. }
  split; [exact H1|]. split; [exact H2|]. split; [exact H3|].
  intros t st Hin. cbn [tag_step fst] in Hin. unfold removeTag in Hin.
  apply filter_In in Hin. destruct Hin as [_ Hin].
  now rewrite String.eqb_refl in Hin.
Qed.

(** ** A posted answer in the listings *)




(** X26. Once [acceptAnswer] has run for an Answer of the Question,
    [getAnswersByQuestionId] lists that Answer first.  Answer ids are
    unique. *)
Theorem accepted_answer_listed_first (db : DB) (questionId answerId : Z)
    (a : Answer) :
  NoDup (map a_id (rows (answers db))) ->
  In a (rows (answers db)) ->
  a_id a = answerId -> a_questionId a = questionId ->
  let db' := run (acceptAnswer questionId answerId) db in
  option_map awa_row (hd_error (result (getAnswersByQuestionId questionId) db')) =
    Some (set_isAccepted true a).
Proof.
  intros Hnd Hin Hid Hq. cbv zeta.
  destruct (@acceptAnswer_own_answer db questionId answerId a Hnd Hin Hid Hq)
    as [Hacc _].
  set (db' := run (acceptAnswer questionId answerId) db) in *.
  pose proof (getAnswersByQuestionId_ordered questionId db') as Hs.
  assert (Hmem : In (set_isAccepted true a)
                   (map awa_row (result (getAnswersByQuestionId questionId) db'))).
  { apply In_getAnswersByQuestionId. unfold answers_of.
    assert (Hin' : In (set_isAccepted true a) (accepted_answers questionId db'))
      by (rewrite Hacc; now left).
    apply filter_In in Hin'. destruct Hin' as [Hin' Hp].
    apply andb_true_iff in Hp. apply filter_In. now split. }
  destruct (result (getAnswersByQuestionId questionId) db') as [|h l] eqn:El;
    [contradiction|].
  cbn [hd_error option_map]. f_equal.
  assert (Hh : a_isAccepted (awa_row h) = true).
  { cbn [map] in Hmem. destruct Hmem as [E | Hmem]; [now rewrite E|].
    inversion Hs as [|? ? _ Hall]; subst.
    apply in_map_iff in Hmem. destruct Hmem as (x & Ex & Hx).
    rewrite Forall_forall in Hall. specialize (Hall x Hx).
    unfold accepted_votes_oldest in Hall. rewrite Ex in Hall.
    cbn [a_isAccepted set_isAccepted] in Hall.
    now destruct (a_isAccepted (awa_row h)). }
  assert (Hhin : In (awa_row h) (accepted_answers questionId db')).
  { assert (H0 : In (awa_row h) (answers_of questionId db')).
    { apply In_getAnswersByQuestionId. rewrite El. now left. }
    apply filter_In in H0. destruct H0 as [H0 H1].
    apply filter_In. split; [exact H0|]. now rewrite H1, Hh. }
  rewrite Hacc in Hhin. destruct Hhin as [<- | []]. reflexivity.
Qed.

Lemma accepted_answer_listed_first_witness :
  map (fun x => a_id (awa_row x))
    (result (getAnswersByQuestionId 2) (run (acceptAnswer 2 13) sample_db)) =
    [13; 11; 10] /\
  option_map awa_row
    (hd_error (result (getAnswersByQuestionId 2) (run (acceptAnswer 2 13) sample_db))) =
    Some (mkAnswer 13 "Or Y3" 2 1 0 true 113).
Proof.
  split; [reflexivity|].
  apply (@accepted_answer_listed_first sample_db 2 13
           (mkAnswer 13 "Or Y3" 2 1 0 false 113)).
  - repeat constructor; cbn; intuition discriminate.
  - cbn. tauto.
  - reflexivity.
  - reflexivity.
Defined.
